(** * Pactum wallet: payment execution core

    A shallow embedding of the wallet service's payment pipeline
    ([packages/wallet]): the ERC-4337 operation builder and its hash
    ([userop/builder.py]), the bundler client ([userop/bundler.py]), the
    payment orchestrator ([services/payment.py]), the request models
    ([api/models.py], [api/routes.py]) and the deposit scanner
    ([chain/scanner.py]); around it the user's limits
    ([services/settings.py]), the rate limiter ([auth/rate_limit.py]), the
    digest handed to the signer ([privy/client.py]) and registration
    ([services/registration.py]).

    Python values are modelled as the code has them: the operation is a
    [dict] from field names to hex strings, integers or [None]; amounts are
    IEEE binary64 floats; exceptions are values of [exn] and every effectful
    function threads the [World] (durable store, log of outside calls). *)

From Stdlib Require Import ZArith NArith List Floats Ascii String Strings.Byte Lia Bool.
From Stdlib Require DecimalString.
From stdpp Require Import gmap strings list.

Set Warnings "-register-all".
Local Open Scope Z_scope.

(** ** Keccak-256

    [Web3.keccak] is library code.  The development is parametric in the
    hash wherever it proves something; this module supplies the real
    function so that the definitions can be run. *)
Module Keccak.

Local Open Scope N_scope.

Definition mask64 : N := 0xFFFFFFFFFFFFFFFF.

Definition rot64 (x : N) (n : N) : N :=
  N.land (N.lor (N.shiftl x n) (N.shiftr x (64 - n))) mask64.

Definition not64 (x : N) : N := N.lxor x mask64.

Definition lane (st : list N) (x y : nat) : N := nth (x + 5 * y)%nat st 0.

Definition rho_offsets : list N :=
  [ 0;  1; 62; 28; 27;
   36; 44;  6; 55; 20;
    3; 10; 43; 25; 39;
   41; 45; 15; 21;  8;
   18;  2; 61; 56; 14].

Definition round_constants : list N :=
  [0x0000000000000001; 0x0000000000008082; 0x800000000000808A;
   0x8000000080008000; 0x000000000000808B; 0x0000000080000001;
   0x8000000080008081; 0x8000000000008009; 0x000000000000008A;
   0x0000000000000088; 0x0000000080008009; 0x000000008000000A;
   0x000000008000808B; 0x800000000000008B; 0x8000000000008089;
   0x8000000000008003; 0x8000000000008002; 0x8000000000000080;
   0x000000000000800A; 0x800000008000000A; 0x8000000080008081;
   0x8000000000008080; 0x0000000080000001; 0x8000000080008008].

Definition coords : list (nat * nat) :=
  flat_map (fun y => map (fun x => (x, y)) (seq 0 5)) (seq 0 5).

Definition theta (st : list N) : list N :=
  let c := map (fun x => fold_left N.lxor (map (lane st x) (seq 0 5)) 0) (seq 0 5) in
  let d := map (fun x => N.lxor (nth ((x + 4) mod 5)%nat c 0)
                                (rot64 (nth ((x + 1) mod 5)%nat c 0) 1)) (seq 0 5) in
  map (fun '(x, y) => N.lxor (lane st x y) (nth x d 0)) coords.

Definition rho_pi (st : list N) : list N :=
  map (fun '(x, y) =>
         let x0 := ((x + 3 * y) mod 5)%nat in
         rot64 (lane st x0 x) (nth (x0 + 5 * x)%nat rho_offsets 0)) coords.

Definition chi (st : list N) : list N :=
  map (fun '(x, y) =>
         N.lxor (lane st x y)
                (N.land (not64 (lane st ((x + 1) mod 5)%nat y))
                        (lane st ((x + 2) mod 5)%nat y))) coords.

Definition iota (rc : N) (st : list N) : list N :=
  match st with
  | a :: rest => N.lxor a rc :: rest
  | [] => []
  end.

Definition keccak_round (st : list N) (rc : N) : list N :=
  iota rc (chi (rho_pi (theta st))).

Definition keccak_f (st : list N) : list N :=
  fold_left keccak_round round_constants st.

Definition byte_n (b : byte) : N := Byte.to_N b.

Definition n_byte (n : N) : byte :=
  match Byte.of_N (N.land n 0xFF) with
  | Some b => b
  | None => x00
  end.

(** A 64-bit lane from (up to) eight bytes, least significant first. *)
Fixpoint lane_of_bytes (bs : list byte) : N :=
  match bs with
  | [] => 0
  | b :: rest => N.lor (byte_n b) (N.shiftl (lane_of_bytes rest) 8)
  end.

Definition lane_to_bytes (l : N) : list byte :=
  [n_byte l; n_byte (N.shiftr l 8); n_byte (N.shiftr l 16);
   n_byte (N.shiftr l 24); n_byte (N.shiftr l 32); n_byte (N.shiftr l 40);
   n_byte (N.shiftr l 48); n_byte (N.shiftr l 56)].

Definition rate : nat := 136.

(** The block's seventeen lanes (a block has [rate] bytes). *)
Definition block_lanes (blk : list byte) : list N :=
  map (fun i => lane_of_bytes (firstn 8 (skipn (8 * i) blk))) (seq 0 17).

Definition absorb_block (st : list N) (blk : list byte) : list N :=
  let ls := block_lanes blk in
  keccak_f (map (fun i => N.lxor (nth i st 0) (nth i ls 0)) (seq 0 25)).

(** Padding of the last, partial block: 0x01, zeros, and 0x80 on the last
    byte (one byte 0x81 when a single byte is missing). *)
Definition pad_block (tl : list byte) : list byte :=
  let k := (rate - length tl)%nat in
  match k with
  | 1%nat => tl ++ [x81]
  | _ => tl ++ [x01] ++ repeat x00 (k - 2) ++ [x80]
  end.

Fixpoint absorb (fuel : nat) (st : list N) (msg : list byte) : list N :=
  match fuel with
  | O => st
  | S fuel' =>
      if (length msg <? rate)%nat
      then absorb_block st (pad_block msg)
      else absorb fuel' (absorb_block st (firstn rate msg)) (skipn rate msg)
  end.

Definition keccak256 (msg : list byte) : list byte :=
  let st := absorb (S (length msg)) (repeat 0 25) msg in
  lane_to_bytes (nth 0 st 0) ++ lane_to_bytes (nth 1 st 0)
  ++ lane_to_bytes (nth 2 st 0) ++ lane_to_bytes (nth 3 st 0).

End Keccak.

(** ** Python values, exceptions and the built-ins the code calls *)
Module Py.

(** The objects the code handles dynamically: JSON values and the fields of
    the operation dict. *)
Inductive pyval :=
| PNone
| PBool (b : bool)
| PInt (n : Z)
| PFloat (x : float)
| PStr (s : string)
| PDict (d : list (string * pyval)).

(** An f-string: literal text and interpolated objects.  How [str()]
    renders an object is left to the environment. *)
Inductive frag :=
| Txt (s : string)
| Obj (v : pyval).

Definition message := list frag.

Inductive exn :=
| ValueError (m : message)
| RuntimeError (m : message)
| TimeoutError (m : message)
| KeyError (k : string)
| TypeError
| AttributeError
| OverflowError
| EncodingError
| TransportError (m : string)
| RequestValidationError (field : string)
| HTTPException (status : Z) (detail : message)
| Unfinished.

Inductive result (A : Type) :=
| Ok (a : A)
| Err (e : exn).
Arguments Ok {A} a.
Arguments Err {A} e.

Definition bindR {A B} (r : result A) (k : A -> result B) : result B :=
  match r with
  | Ok a => k a
  | Err e => Err e
  end.

Notation "'let?' x ':=' r 'in' k" := (bindR r (fun x => k))
  (at level 10, x name, r at level 100, k at level 200).

Definition is_ok {A} (r : result A) : bool :=
  match r with Ok _ => true | Err _ => false end.

Fixpoint mapR {A B} (f : A -> result B) (l : list A) : result (list B) :=
  match l with
  | [] => Ok []
  | a :: rest =>
      let? b := f a in
      let? bs := mapR f rest in
      Ok (b :: bs)
  end.

(** Truth value of an object, as [if x:] and [not x] test it. *)
Definition truthy (v : pyval) : bool :=
  match v with
  | PNone => false
  | PBool b => b
  | PInt n => negb (n =? 0)
  | PFloat x => negb (PrimFloat.eqb x 0%float)
  | PStr s => negb (String.eqb s "")
  | PDict d => match d with [] => false | _ => true end
  end.

Definition is_none (v : pyval) : bool :=
  match v with PNone => true | _ => false end.

(** [v == s] for a string [s]. *)
Definition is_str (s : string) (v : pyval) : bool :=
  match v with
  | PStr s' => String.eqb s' s
  | _ => false
  end.

(** [d.get(k)] on a JSON object kept in key order. *)
Fixpoint assoc_get (k : string) (d : list (string * pyval)) : option pyval :=
  match d with
  | [] => None
  | (k', v) :: rest => if String.eqb k k' then Some v else assoc_get k rest
  end.

(** *** Strings *)

(** [s.replace("0x", "")]: every occurrence, left to right. *)
Fixpoint remove_0x (s : string) : string :=
  match s with
  | EmptyString => EmptyString
  | String c rest =>
      match rest with
      | String d rest' =>
          if Ascii.eqb c "0" && Ascii.eqb d "x" then remove_0x rest'
          else String c (remove_0x rest)
      | EmptyString => String c EmptyString
      end
  end.

(** [needle in s]. *)
Fixpoint contains (needle s : string) : bool :=
  String.prefix needle s
  || match s with
     | EmptyString => false
     | String _ rest => contains needle rest
     end.

Definition hexval (c : ascii) : option Z :=
  let n := Z.of_N (N_of_ascii c) in
  if (48 <=? n) && (n <=? 57) then Some (n - 48)
  else if (97 <=? n) && (n <=? 102) then Some (n - 87)
  else if (65 <=? n) && (n <=? 70) then Some (n - 55)
  else None.

Definition hexchar (n : Z) : ascii :=
  ascii_of_N (Z.to_N (if n <? 10 then 48 + n else 87 + n)).

Definition byte_z (b : byte) : Z := Z.of_N (Byte.to_N b).

Definition z_byte (n : Z) : byte :=
  match Byte.of_N (Z.to_N (n mod 256)) with
  | Some b => b
  | None => x00
  end.

(** ASCII whitespace, which [bytes.fromhex] skips between bytes. *)
Definition is_space (c : ascii) : bool :=
  let n := Z.of_N (N_of_ascii c) in
  ((9 <=? n) && (n <=? 13)) || (n =? 32).

Definition bad_hex : exn :=
  ValueError [Txt "non-hexadecimal number found in fromhex() arg"].

(** [bytes.fromhex(s)]. *)
Fixpoint fromhex (s : string) : result (list byte) :=
  match s with
  | EmptyString => Ok []
  | String c rest =>
      if is_space c then fromhex rest
      else
        match hexval c, rest with
        | Some hi, String d rest' =>
            match hexval d with
            | Some lo =>
                let? bs := fromhex rest' in
                Ok (z_byte (16 * hi + lo) :: bs)
            | None => Err bad_hex
            end
        | _, _ => Err bad_hex
        end
  end.

Fixpoint hexdigits (bs : list byte) : string :=
  match bs with
  | [] => EmptyString
  | b :: rest =>
      String (hexchar (byte_z b / 16)) (String (hexchar (byte_z b mod 16)) (hexdigits rest))
  end.

(** The "0x..." rendering web3 gives to binary data. *)
Definition hexstr (bs : list byte) : string := String "0" (String "x" (hexdigits bs)).

(** *** Integers *)

Definition bad_int : exn := ValueError [Txt "invalid literal for int() with base 16"].

Fixpoint digits16 (acc : Z) (after_digit : bool) (l : list ascii) : option Z :=
  match l with
  | [] => if after_digit then Some acc else None
  | c :: rest =>
      if Ascii.eqb c "_" then
        if after_digit then digits16 acc false rest else None
      else
        match hexval c with
        | Some d => digits16 (16 * acc + d) true rest
        | None => None
        end
  end.

Fixpoint lstrip (l : list ascii) : list ascii :=
  match l with
  | c :: rest => if is_space c then lstrip rest else l
  | [] => []
  end.

Definition strip (l : list ascii) : list ascii := rev (lstrip (rev (lstrip l))).

(** [int(s, 16)] on a string: surrounding whitespace, an optional sign, an
    optional 0x prefix, hexadecimal digits with single underscores. *)
Definition int16 (s : string) : result Z :=
  let l := strip (list_ascii_of_string s) in
  let '(neg, l1) :=
    match l with
    | "-"%char :: r => (true, r)
    | "+"%char :: r => (false, r)
    | _ => (false, l)
    end in
  let body :=
    match l1 with
    | "0"%char :: "x"%char :: r | "0"%char :: "X"%char :: r =>
        match r with
        | "_"%char :: r' => r'
        | _ => r
        end
    | _ => l1
    end in
  match digits16 0 false body with
  | Some n => Ok (if neg : bool then - n else n)
  | None => Err bad_int
  end.

(** [n.to_bytes(len, "big")]. *)
Fixpoint be_bytes (len : nat) (n : Z) : list byte :=
  match len with
  | O => []
  | S k => be_bytes k (n / 256) ++ [z_byte n]
  end.

Definition to_bytes (len : nat) (n : Z) : result (list byte) :=
  if (0 <=? n) && (n <? 256 ^ Z.of_nat len) then Ok (be_bytes len n)
  else Err OverflowError.

(** [hex(n)] for the non-negative integers the chain returns. *)
Fixpoint hex_digits_of (fuel : nat) (n : Z) (acc : string) : string :=
  match fuel with
  | O => acc
  | S k =>
      let acc' := String (hexchar (n mod 16)) acc in
      if n / 16 =? 0 then acc' else hex_digits_of k (n / 16) acc'
  end.

Definition hex (n : Z) : string :=
  let body := hex_digits_of (S (Z.to_nat (Z.log2 (Z.abs n)))) (Z.abs n) EmptyString in
  if n <? 0 then String "-" (String "0" (String "x" body))
  else String "0" (String "x" body).

End Py.

(** The hash library as the code sees it: [Web3.keccak], always 32 bytes. *)
Class Hash := {
  keccak : list byte -> list byte;
  keccak_length : forall msg, length (keccak msg) = 32%nat
}.

(** [config.py]: the constants read from the process environment. *)
Class Config := {
  CHAIN_ID : Z;
  USDC_CONTRACT_ADDRESS : string;
  ENTRYPOINT_ADDRESS : string;
  SIMPLE_ACCOUNT_FACTORY : string;
  BUNDLER_RPC_URL : string
}.

(** ** Contract ABI encoding ([eth_abi.encode], web3's call encoder) *)
Module Abi.
Import Py.

Inductive value :=
| Address (a : list byte)
| Uint256 (n : Z)
| Bytes32 (b : list byte)
| Bytes (b : list byte)
| Array (elems : list value).

Definition word (n : Z) : list byte := be_bytes 32 n.

Definition pad_right (b : list byte) : list byte :=
  b ++ repeat x00 ((32 - length b mod 32) mod 32).

Definition is_dynamic (v : value) : bool :=
  match v with
  | Bytes _ | Array _ => true
  | _ => false
  end.

(** Heads then tails; a dynamic item's head is the offset of its tail. *)
Fixpoint layout (items : list (bool * list byte)) (off : Z)
  : list byte * list byte :=
  match items with
  | [] => ([], [])
  | (dyn, e) :: rest =>
      let '(hs, ts) := layout rest (if dyn : bool then off + Z.of_nat (length e) else off) in
      if dyn then (word off ++ hs, e ++ ts) else (e ++ hs, ts)
  end.

Definition enc_seq (items : list (bool * list byte)) : list byte :=
  let '(hs, ts) := layout items (32 * Z.of_nat (length items)) in hs ++ ts.

Fixpoint enc (v : value) : list byte :=
  match v with
  | Address a => repeat x00 12 ++ a
  | Uint256 n => word n
  | Bytes32 b => pad_right b
  | Bytes b => word (Z.of_nat (length b)) ++ pad_right b
  | Array elems =>
      word (Z.of_nat (length elems))
      ++ enc_seq (map (fun e => (is_dynamic e, enc e)) elems)
  end.

(** The values the encoder accepts for each type. *)
Fixpoint valid (v : value) : bool :=
  match v with
  | Address a => (length a =? 20)%nat
  | Uint256 n => (0 <=? n) && (n <? 2 ^ 256)
  | Bytes32 b => (length b <=? 32)%nat
  | Bytes _ => true
  | Array elems => forallb valid elems
  end.

(** The encoding of a tuple of values. *)
Definition tuple (args : list value) : list byte :=
  enc_seq (map (fun e => (is_dynamic e, enc e)) args).

(** [encode(types, values)]. *)
Definition encode (args : list value) : result (list byte) :=
  if forallb valid args then Ok (tuple args) else Err EncodingError.

Section WithHash.
Context `{Hash}.

Definition selector (signature : string) : list byte :=
  firstn 4 (keccak (list_byte_of_string signature)).

(** web3 checks fixed-size byte strings strictly: exactly 32 bytes. *)
Fixpoint strict (v : value) : bool :=
  match v with
  | Bytes32 b => (length b =? 32)%nat
  | Array elems => forallb strict elems
  | _ => true
  end.

(** The data of a call [contract.functions.f(args)]: the selector and the
    encoded arguments, as [build_transaction] puts them under ["data"]. *)
Definition encode_call (signature : string) (args : list value) : result string :=
  if forallb strict args then
    let? body := encode args in
    Ok (hexstr (selector signature ++ body))
  else Err EncodingError.

(** *** Addresses *)

Definition bad_address : exn := ValueError [Txt "Unknown format, attempted to normalize to address"].

Definition strip_0x (s : string) : string :=
  match s with
  | String "0" (String "x" rest) | String "0" (String "X" rest) => rest
  | _ => s
  end.

Definition all_hex (s : string) : bool :=
  forallb (fun c => match hexval c with Some _ => true | None => false end)
          (list_ascii_of_string s).

(** The twenty bytes of a hex address, prefixed or not, in any case. *)
Definition address_bytes (s : string) : result (list byte) :=
  let body := strip_0x s in
  if (String.length body =? 40)%nat && all_hex body then fromhex body
  else Err bad_address.

Definition upper (c : ascii) : ascii :=
  let n := N_of_ascii c in
  if ((97 <=? n) && (n <=? 122))%N then ascii_of_N (n - 32) else c.

Fixpoint checksum_case (digits hash : list ascii) : list ascii :=
  match digits, hash with
  | d :: ds, h :: hs =>
      (match hexval h with
       | Some v => if 8 <=? v then upper d else d
       | None => d
       end) :: checksum_case ds hs
  | _, _ => digits
  end.

(** EIP-55: a digit is upper-cased when the matching nibble of the hash of
    the lower-case digits is 8 or more. *)
Definition checksum_encode (a : list byte) : string :=
  let digits := hexdigits a in
  let h := hexdigits (keccak (list_byte_of_string digits)) in
  String "0" (String "x"
    (string_of_list_ascii
       (checksum_case (list_ascii_of_string digits) (list_ascii_of_string h)))).

(** [Web3.to_checksum_address]. *)
Definition to_checksum_address (s : string) : result string :=
  let? a := address_bytes s in
  Ok (checksum_encode a).

(** The address strings [eth_abi] accepts ([eth_utils.is_address]): forty hex
    digits, with or without the prefix, in any case; the checksum is not
    looked at. *)
Definition is_address (s : string) : bool := is_ok (address_bytes s).

(** An ["address"] argument given as a string. *)
Definition address_arg (s : string) : result value :=
  if is_address s then (let? a := address_bytes s in Ok (Address a))
  else Err EncodingError.

End WithHash.
End Abi.

(** ** The durable store, the process state and the outside world *)
Module Store.
Import Py.

(** Instants: microseconds since the epoch, UTC. *)
Definition time := Z.

Definition minutes (n : Z) : time := n * 60 * 1000000.
Definition day : time := 86400 * 1000000.

(** [t.replace(hour=0, minute=0, second=0, microsecond=0)]. *)
Definition start_of_day (t : time) : time := t - t mod day.

Inductive payment_status := Pending | Confirmed | Cancelled | Expired.

Definition payment_status_eqb (a b : payment_status) : bool :=
  match a, b with
  | Pending, Pending | Confirmed, Confirmed
  | Cancelled, Cancelled | Expired, Expired => true
  | _, _ => false
  end.

Inductive tx_type := TPayment | TWithdrawal | TEscrowDeposit | TContractCall | TDeposit.

(** A row of [wallet_pending_payments]. *)
Record PendingPayment := {
  pp_id : nat;
  pp_user_id : nat;
  pp_to_address : string;
  pp_amount : float;
  pp_memo : option string;
  pp_expires_at : time;
  pp_status : payment_status
}.

(** A row of [wallet_transactions]. *)
Record Transaction := {
  tx_id : nat;
  tx_user_id : nat;
  tx_kind : tx_type;
  tx_amount : float;
  tx_from_address : string;
  tx_to_address : string;
  tx_memo : option string;
  tx_hash : pyval;
  tx_user_op_hash : option pyval;
  tx_status : option string;
  tx_created_at : time
}.

(** A row of [wallet_events]. *)
Record Event := {
  ev_user_id : nat;
  ev_type : string;
  ev_data : list (string * pyval)
}.

(** A row of [wallet_users], which is also the [user] dict of a request.
    A limit of [None] is a key the dict lacks. *)
Record User := {
  user_id : nat;
  wallet_address : string;
  smart_account_address : option string;
  smart_account_deployed : bool;
  per_transaction_limit : option float;
  daily_limit : option float;
  require_confirmation_above : option float;
  privy_wallet_id : string
}.

(** A positional parameter of a relay request. *)
Inductive param :=
| POp (op : gmap string pyval)
| PVal (v : pyval).

(** What a JSON-RPC round trip gives: a result, an error object, or a
    transport failure of the HTTP client. *)
Inductive rpc_reply :=
| RpcResult (v : pyval)
| RpcError (err : pyval)
| RpcTransport (m : string).

(** A decoded Transfer log. *)
Record TransferEvent := {
  te_from : string;
  te_to : string;
  te_value : float;
  te_tx_hash : string;
  te_block_number : Z
}.

(** Every call that leaves the process, other than to the store. *)
Inductive call :=
| GetBalance (address : string)
| GetNonce (sender : string)
| Rpc (id : nat) (method : string) (params : list param)
| GasPrice
| Sign (wallet_id : string) (message : string)
| Sleep (seconds : float)
| LatestBlock
| GetLogs (from_block to_block : Z)
| ChainId.

(** The outside world, as answers to the calls the code makes. *)
Record Env := {
  clock : nat -> time;
  balance_of : string -> result float;
  entrypoint_nonce : string -> result Z;
  relay : nat -> string -> list param -> rpc_reply;
  eth_gas_price : result pyval;
  privy_sign : string -> string -> result string;
  latest_block : result Z;
  transfer_logs : Z -> Z -> result (list TransferEvent);
  eth_chain_id : result Z;
  str_of : pyval -> string
}.

Record World := {
  pending_payments : list PendingPayment;
  transactions : list Transaction;
  events : list Event;
  users : list User;
  next_id : nat;
  calls : list call;
  ticks : nat;
  rpc_seq : nat;
  last_scanned_block : option Z
}.

(** A computation that may change the world and may raise; what it changed
    before raising stays changed. *)
Definition M (A : Type) : Type := World -> result A * World.

Definition ret {A} (a : A) : M A := fun w => (Ok a, w).

Definition raise {A} (e : exn) : M A := fun w => (Err e, w).

Definition bind {A B} (m : M A) (k : A -> M B) : M B :=
  fun w =>
    match m w with
    | (Ok a, w') => k a w'
    | (Err e, w') => (Err e, w')
    end.

Notation "x <- m ;; k" := (bind m (fun x => k))
  (at level 100, m at next level, right associativity).
Notation "m ;;; k" := (bind m (fun _ => k))
  (at level 100, right associativity).

Definition lift {A} (r : result A) : M A := fun w => (r, w).

Definition gets {A} (f : World -> A) : M A := fun w => (Ok (f w), w).

Definition modify (f : World -> World) : M unit := fun w => (Ok tt, f w).

Definition log (c : call) : M unit :=
  modify (fun w =>
    {| pending_payments := pending_payments w; transactions := transactions w;
       events := events w; users := users w; next_id := next_id w;
       calls := calls w ++ [c]; ticks := ticks w; rpc_seq := rpc_seq w;
       last_scanned_block := last_scanned_block w |}).

Section WithEnv.
Variable env : Env.

(** [datetime.now(timezone.utc)], and the store's own [now()]. *)
Definition now : M time :=
  fun w =>
    (Ok (clock env (ticks w)),
     {| pending_payments := pending_payments w; transactions := transactions w;
        events := events w; users := users w; next_id := next_id w;
        calls := calls w; ticks := S (ticks w); rpc_seq := rpc_seq w;
        last_scanned_block := last_scanned_block w |}).

Definition render (m : message) : string :=
  fold_right (fun f acc =>
                String.append (match f with Txt s => s | Obj v => str_of env v end) acc)
             EmptyString m.

(** [fn(args).build_transaction({"gas": 0, "gasPrice": 0})["data"]]: web3
    encodes the call, which gives [data] or raises, and then fills in the
    fields the dict lacks.  With [gas] and [gasPrice] given, the one that
    takes a request to the node is [chainId]; its value is not part of the
    data. *)
Definition build_transaction (data : result string) : M string :=
  d <- lift data ;;
  log ChainId ;;;
  _chain_id <- lift (eth_chain_id env) ;;
  ret d.

End WithEnv.

Definition catch {A} (m : M A) (handler : exn -> M A) : M A :=
  fun w =>
    match m w with
    | (Ok a, w') => (Ok a, w')
    | (Err e, w') => handler e w'
    end.

(** *** Tables *)

Definition set_pending (f : list PendingPayment -> list PendingPayment) (w : World) : World :=
  {| pending_payments := f (pending_payments w); transactions := transactions w;
     events := events w; users := users w; next_id := next_id w;
     calls := calls w; ticks := ticks w; rpc_seq := rpc_seq w;
     last_scanned_block := last_scanned_block w |}.

Definition set_transactions (f : list Transaction -> list Transaction) (w : World) : World :=
  {| pending_payments := pending_payments w; transactions := f (transactions w);
     events := events w; users := users w; next_id := next_id w;
     calls := calls w; ticks := ticks w; rpc_seq := rpc_seq w;
     last_scanned_block := last_scanned_block w |}.

Definition set_events (f : list Event -> list Event) (w : World) : World :=
  {| pending_payments := pending_payments w; transactions := transactions w;
     events := f (events w); users := users w; next_id := next_id w;
     calls := calls w; ticks := ticks w; rpc_seq := rpc_seq w;
     last_scanned_block := last_scanned_block w |}.

Definition set_users (f : list User -> list User) (w : World) : World :=
  {| pending_payments := pending_payments w; transactions := transactions w;
     events := events w; users := f (users w); next_id := next_id w;
     calls := calls w; ticks := ticks w; rpc_seq := rpc_seq w;
     last_scanned_block := last_scanned_block w |}.

(** The store hands out the next row identifier. *)
Definition fresh_id : M nat :=
  fun w =>
    (Ok (next_id w),
     {| pending_payments := pending_payments w; transactions := transactions w;
        events := events w; users := users w; next_id := S (next_id w);
        calls := calls w; ticks := ticks w; rpc_seq := rpc_seq w;
        last_scanned_block := last_scanned_block w |}).

Definition set_rpc_seq (n : nat) (w : World) : World :=
  {| pending_payments := pending_payments w; transactions := transactions w;
     events := events w; users := users w; next_id := next_id w;
     calls := calls w; ticks := ticks w; rpc_seq := n;
     last_scanned_block := last_scanned_block w |}.

Definition set_last_scanned_block (b : option Z) (w : World) : World :=
  {| pending_payments := pending_payments w; transactions := transactions w;
     events := events w; users := users w; next_id := next_id w;
     calls := calls w; ticks := ticks w; rpc_seq := rpc_seq w;
     last_scanned_block := b |}.

(** Modelled from the spec: the table definitions are not part of the
    sources.  A new PendingPayment gets an identifier from the store and
    starts in status pending. *)
Definition insert_pending_payment (uid : nat) (to : string) (amount : float)
    (memo : option string) (expires_at : time) : M PendingPayment :=
  pid <- fresh_id ;;
  let row := {| pp_id := pid; pp_user_id := uid; pp_to_address := to;
                pp_amount := amount; pp_memo := memo; pp_expires_at := expires_at;
                pp_status := Pending |} in
  modify (set_pending (fun ps => ps ++ [row])) ;;;
  ret row.

(** [db.table("wallet_events").insert({...}).execute()]. *)
Definition insert_event (uid : nat) (type : string) (data : list (string * pyval)) : M unit :=
  modify (set_events (fun es =>
    es ++ [{| ev_user_id := uid; ev_type := type; ev_data := data |}])).

(** [.update({"status": s}).eq("id", pid)] on [wallet_pending_payments]. *)
Definition with_status (s : payment_status) (p : PendingPayment) : PendingPayment :=
  {| pp_id := pp_id p; pp_user_id := pp_user_id p; pp_to_address := pp_to_address p;
     pp_amount := pp_amount p; pp_memo := pp_memo p; pp_expires_at := pp_expires_at p;
     pp_status := s |}.

Definition mark_status (pid : nat) (s : payment_status) (p : PendingPayment)
  : PendingPayment :=
  if (pp_id p =? pid)%nat then with_status s p else p.

Definition update_payment_status (pid : nat) (s : payment_status) : M unit :=
  modify (set_pending (map (mark_status pid s))).

Section Inserts.
Variable env : Env.

(** Modelled from the spec: the table definitions are not part of the
    sources.  A new Transaction gets an identifier and the store's current
    time as its creation instant. *)
Definition insert_transaction (uid : nat) (kind : tx_type) (amount : float)
    (from to : string) (memo : option string) (hash : pyval)
    (user_op_hash : option pyval) (status : option string) : M unit :=
  tid <- fresh_id ;;
  t <- now env ;;
  modify (set_transactions (fun txs =>
    txs ++ [{| tx_id := tid; tx_user_id := uid; tx_kind := kind; tx_amount := amount;
               tx_from_address := from; tx_to_address := to; tx_memo := memo;
               tx_hash := hash; tx_user_op_hash := user_op_hash;
               tx_status := status; tx_created_at := t |}])).

End Inserts.

Definition opt_str (o : option string) : pyval :=
  match o with
  | Some s => PStr s
  | None => PNone
  end.

End Store.

(** ** [chain/usdc.py]: balance reads and calldata for the token and the escrow *)
Module Usdc.
Import Py Abi Store.

Definition USDC_DECIMALS : Z := 6.

(** [int(x)] on a float: truncation toward zero; infinities and NaN raise. *)
Definition int_of_float (x : float) : result Z :=
  match Prim2SF x with
  | S754_zero _ => Ok 0
  | S754_finite s m e =>
      let mag := if 0 <=? e then Z.pos m * 2 ^ e else Z.pos m / 2 ^ (- e) in
      Ok (if s then - mag else mag)
  | S754_infinity _ => Err OverflowError
  | S754_nan => Err (ValueError [Txt "cannot convert float NaN to integer"])
  end.

(** [int(amount * (10 ** USDC_DECIMALS))]. *)
Definition raw_units (amount : float) : result Z :=
  int_of_float (amount * 1000000)%float.

Section WithLib.
Context `{Hash} `{Config} (env : Env).

Definition get_balance (address : string) : M float :=
  _usdc <- lift (to_checksum_address USDC_CONTRACT_ADDRESS) ;;
  a <- lift (to_checksum_address address) ;;
  log (GetBalance a) ;;;
  lift (balance_of env a).

(** The encoded call of each builder: what web3 computes before it turns to
    the node. *)
Definition encode_transfer (to : string) (amount : float) : result string :=
  let? _usdc := to_checksum_address USDC_CONTRACT_ADDRESS in
  let? raw_amount := raw_units amount in
  let? dest := to_checksum_address to in
  let? a := address_bytes dest in
  encode_call "transfer(address,uint256)" [Address a; Uint256 raw_amount].

Definition encode_approve (spender : string) (amount : Z) : result string :=
  let? _usdc := to_checksum_address USDC_CONTRACT_ADDRESS in
  let? s := to_checksum_address spender in
  let? a := address_bytes s in
  encode_call "approve(address,uint256)" [Address a; Uint256 amount].

Definition encode_deposit (order_id_bytes32 seller : string) (amount : Z)
  : result string :=
  let? order_bytes := fromhex (remove_0x order_id_bytes32) in
  let? s := to_checksum_address seller in
  let? a := address_bytes s in
  encode_call "deposit(bytes32,address,uint256)"
              [Bytes32 order_bytes; Address a; Uint256 amount].

Definition build_transfer_calldata (to : string) (amount : float) : M string :=
  build_transaction env (encode_transfer to amount).

Definition build_approve_calldata (spender : string) (amount : Z) : M string :=
  build_transaction env (encode_approve spender amount).

Definition build_deposit_calldata (order_id_bytes32 seller : string) (amount : Z)
  : M string :=
  build_transaction env (encode_deposit order_id_bytes32 seller amount).

Definition get_latest_block : M Z :=
  log LatestBlock ;;; lift (latest_block env).

Definition get_transfer_events (from_block to_block : Z) : M (list TransferEvent) :=
  _usdc <- lift (to_checksum_address USDC_CONTRACT_ADDRESS) ;;
  log (GetLogs from_block to_block) ;;;
  lift (transfer_logs env from_block to_block).

End WithLib.
End Usdc.

(** ** [userop/builder.py]: the operation and its hash *)
Module Builder.
Import Py Abi Store.

Definition zero_address : string := "0x0000000000000000000000000000000000000000".

(** The placeholder signature: r = 1, s = 1, v = 27. *)
Definition dummy_signature : string :=
  hexstr (repeat x00 31 ++ [x01] ++ repeat x00 31 ++ [x01] ++ [x1b]).

(** One inner call of a batch: [{"to": ..., "value": ..., "data": ...}]. *)
Record Call := {
  call_to : string;
  call_value : option Z;
  call_data : option string
}.

(** [d.get(k, default)]. *)
Definition get_or (d : gmap string pyval) (k : string) (default : pyval) : pyval :=
  match d !! k with
  | Some v => v
  | None => default
  end.

(** [d[k]]. *)
Definition item (d : gmap string pyval) (k : string) : result pyval :=
  match d !! k with
  | Some v => Ok v
  | None => Err (KeyError k)
  end.

(** [h.replace("0x", "")] on whatever object [h] is. *)
Definition replace_0x (v : pyval) : result string :=
  match v with
  | PStr s => Ok (remove_0x s)
  | _ => Err AttributeError
  end.

Definition _hex_to_int (h : pyval) : result Z :=
  match h with
  | PInt n => Ok n
  | PBool b => Ok (Z.b2z b)
  | PStr s => int16 s
  | _ => Err TypeError
  end.

(** The integer encoders of [eth_abi] take an [int], and turn a [bool] down. *)
Definition encodable_int (obj : pyval) : result unit :=
  match obj with
  | PBool _ => Err EncodingError
  | _ => Ok tt
  end.

Definition _hex_to_bytes (h : pyval) : result (list byte) :=
  if negb (truthy h) || is_str "0x" h then Ok []
  else
    let? digits := replace_0x h in
    fromhex digits.

Section WithLib.
Context `{Hash} `{Config} (env : Env).

Definition get_nonce (sender : string) : M Z :=
  _ep <- lift (to_checksum_address ENTRYPOINT_ADDRESS) ;;
  s <- lift (to_checksum_address sender) ;;
  log (GetNonce s) ;;;
  lift (entrypoint_nonce env s).

(** The bytes behind a [data] argument: [bytes.fromhex(...)] if data else b"". *)
Definition data_bytes (data : option string) : result (list byte) :=
  match data with
  | Some d => if String.eqb d "" then Ok [] else fromhex (remove_0x d)
  | None => Ok []
  end.

(** The encoded calls of the builders, before web3 turns to the node. *)
Definition encode_execute (to : string) (value : Z) (data : string) : result string :=
  let? bytes := data_bytes (Some data) in
  let? dest := to_checksum_address to in
  let? a := address_bytes dest in
  encode_call "execute(address,uint256,bytes)" [Address a; Uint256 value; Bytes bytes].

Definition build_execute_calldata (to : string) (value : Z) (data : string) : M string :=
  build_transaction env (encode_execute to value data).

Definition call_dest (c : Call) : result value :=
  let? dest := to_checksum_address (call_to c) in
  let? a := address_bytes dest in
  Ok (Address a).

Definition call_amount (c : Call) : value :=
  Uint256 (match call_value c with Some v => v | None => 0 end).

Definition call_func (c : Call) : result value :=
  let? bytes := data_bytes (call_data c) in
  Ok (Bytes bytes).

Definition encode_execute_batch (calls : list Call) : result string :=
  let? dests := mapR call_dest calls in
  let values := map call_amount calls in
  let? funcs := mapR call_func calls in
  encode_call "executeBatch(address[],uint256[],bytes[])"
              [Array dests; Array values; Array funcs].

Definition build_execute_batch_calldata (calls : list Call) : M string :=
  build_transaction env (encode_execute_batch calls).

Definition encode_create_account (owner : string) (salt : Z) : result string :=
  let? _f := to_checksum_address SIMPLE_ACCOUNT_FACTORY in
  let? o := to_checksum_address owner in
  let? a := address_bytes o in
  encode_call "createAccount(address,uint256)" [Address a; Uint256 salt].

(** [factory.functions.createAccount(owner, salt).build_transaction(...)["data"]]. *)
Definition create_account_calldata (owner : string) (salt : Z) : M string :=
  build_transaction env (encode_create_account owner salt).

Definition build_user_operation (sender call_data : string) (is_deployed : bool)
    (owner : string) (salt : Z) : M (gmap string pyval) :=
  nonce <- get_nonce sender ;;
  factory_data <-
    (if is_deployed then ret "0x"
     else create_account_calldata owner salt) ;;
  let factory := if is_deployed then zero_address else SIMPLE_ACCOUNT_FACTORY in
  s <- lift (to_checksum_address sender) ;;
  f <- (if String.eqb factory zero_address then ret PNone
        else c <- lift (to_checksum_address factory) ;; ret (PStr c)) ;;
  ret (list_to_map
    [("sender", PStr s);
     ("nonce", PStr (hex nonce));
     ("factory", f);
     ("factoryData", if String.eqb factory zero_address then PNone else PStr factory_data);
     ("callData", PStr call_data);
     ("callGasLimit", PStr "0x0");
     ("verificationGasLimit", PStr "0x0");
     ("preVerificationGas", PStr "0x0");
     ("maxFeePerGas", PStr "0x0");
     ("maxPriorityFeePerGas", PStr "0x0");
     ("signature", PStr dummy_signature);
     ("paymaster", PNone);
     ("paymasterData", PNone);
     ("paymasterVerificationGasLimit", PNone);
     ("paymasterPostOpGasLimit", PNone)] : gmap string pyval).

Definition init_code (op : gmap string pyval) : result (list byte) :=
  if truthy (get_or op "factory" PNone) && negb (is_str zero_address (get_or op "factory" PNone))
  then
    let? f := item op "factory" in
    let? fb := _hex_to_bytes f in
    let? fd := _hex_to_bytes (get_or op "factoryData" PNone) in
    Ok (fb ++ fd)
  else Ok [].

Definition paymaster_and_data (op : gmap string pyval) : result (list byte) :=
  if truthy (get_or op "paymaster" PNone) then
    let? p := item op "paymaster" in
    let? pm := _hex_to_bytes p in
    let? pm_vgl := _hex_to_int (get_or op "paymasterVerificationGasLimit" (PStr "0x0")) in
    let? pm_pogl := _hex_to_int (get_or op "paymasterPostOpGasLimit" (PStr "0x0")) in
    let? pm_data := _hex_to_bytes (get_or op "paymasterData" PNone) in
    let? v16 := to_bytes 16 pm_vgl in
    let? p16 := to_bytes 16 pm_pogl in
    Ok (pm ++ v16 ++ p16 ++ pm_data)
  else Ok [].

Definition compute_user_op_hash (op : gmap string pyval) (entrypoint : string)
    (chain_id : Z) : result (list byte) :=
  let? sender_obj := item op "sender" in
  let? sender_hex := replace_0x sender_obj in
  let? _sender := fromhex sender_hex in
  let? nonce_obj := item op "nonce" in
  let? nonce := _hex_to_int nonce_obj in
  let? init := init_code op in
  let init_code_hash := keccak init in
  let? call_data_obj := item op "callData" in
  let? call_data := _hex_to_bytes call_data_obj in
  let call_data_hash := keccak call_data in
  let? vgl := _hex_to_int (get_or op "verificationGasLimit" (PStr "0x0")) in
  let? cgl := _hex_to_int (get_or op "callGasLimit" (PStr "0x0")) in
  let? vgl16 := to_bytes 16 vgl in
  let? cgl16 := to_bytes 16 cgl in
  let account_gas_limits := vgl16 ++ cgl16 in
  let? pre_verification_gas := _hex_to_int (get_or op "preVerificationGas" (PStr "0x0")) in
  let? mpfpg := _hex_to_int (get_or op "maxPriorityFeePerGas" (PStr "0x0")) in
  let? mfpg := _hex_to_int (get_or op "maxFeePerGas" (PStr "0x0")) in
  let? mpfpg16 := to_bytes 16 mpfpg in
  let? mfpg16 := to_bytes 16 mfpg in
  let gas_fees := mpfpg16 ++ mfpg16 in
  let? pmd := paymaster_and_data op in
  let paymaster_and_data_hash := keccak pmd in
  let? sender_arg :=
    match sender_obj with
    | PStr s => address_arg s
    | _ => Err EncodingError
    end in
  let? _nonce_is_int := encodable_int nonce_obj in
  let? _gas_is_int := encodable_int (get_or op "preVerificationGas" (PStr "0x0")) in
  let? packed :=
    encode [sender_arg; Uint256 nonce; Bytes32 init_code_hash; Bytes32 call_data_hash;
            Bytes32 account_gas_limits; Uint256 pre_verification_gas;
            Bytes32 gas_fees; Bytes32 paymaster_and_data_hash] in
  let inner_hash := keccak packed in
  let? entrypoint_arg := address_arg entrypoint in
  let? outer := encode [Bytes32 inner_hash; entrypoint_arg; Uint256 chain_id] in
  Ok (keccak outer).

End WithLib.
End Builder.

(** ** [userop/bundler.py]: the relay client *)
Module Bundler.
Import Py Store.

(** [{k: v for k, v in user_op.items() if v is not None}]. *)
Definition clean (op : gmap string pyval) : gmap string pyval :=
  omap (fun v => if is_none v then None else Some v) op.

(** [for key in keys: if key in src and src[key]: op[key] = src[key]]. *)
Definition merge_fields (keys : list string) (src : pyval) (op : gmap string pyval)
  : result (gmap string pyval) :=
  match src with
  | PDict d =>
      Ok (fold_left (fun acc k =>
                       match assoc_get k d with
                       | Some v => if truthy v then <[k := v]> acc else acc
                       | None => acc
                       end) keys op)
  | PStr s => if existsb (fun k => contains k s) keys then Err TypeError else Ok op
  | _ => Err TypeError
  end.

(** [src.get(...)]: only an object has it. *)
Definition require_get (src : pyval) : result unit :=
  match src with
  | PDict _ => Ok tt
  | _ => Err AttributeError
  end.

Definition paymaster_keys : list string :=
  ["paymaster"; "paymasterData"; "paymasterVerificationGasLimit"; "paymasterPostOpGasLimit"].

Definition gas_keys : list string :=
  ["preVerificationGas"; "callGasLimit"; "verificationGasLimit";
   "paymasterVerificationGasLimit"; "paymasterPostOpGasLimit"].

Section WithLib.
Context `{Config} (env : Env).

Definition CHAIN_ID_HEX : string := hex CHAIN_ID.

(** [BundlerClient()]: a new client numbers its requests from 1. *)
Definition BundlerClient : M unit :=
  if String.eqb BUNDLER_RPC_URL "" then raise (RuntimeError [Txt "BUNDLER_RPC_URL not configured"])
  else modify (set_rpc_seq 0).

Definition _next_id : M nat :=
  fun w => (Ok (S (rpc_seq w)), set_rpc_seq (S (rpc_seq w)) w).

Definition _rpc (method : string) (params : list param) : M pyval :=
  id <- _next_id ;;
  log (Rpc id method params) ;;;
  match relay env id method params with
  | RpcResult v => ret v
  | RpcError err => raise (RuntimeError [Txt "Bundler RPC error: "; Obj err])
  | RpcTransport m => raise (TransportError m)
  end.

Definition _get_gas_price : M pyval :=
  log GasPrice ;;; lift (eth_gas_price env).

Definition sponsor_user_op (user_op : gmap string pyval) : M (gmap string pyval) :=
  stub <- _rpc "pm_getPaymasterStubData"
               [POp (clean user_op); PVal (PStr ENTRYPOINT_ADDRESS); PVal (PStr CHAIN_ID_HEX)] ;;
  op1 <- lift (merge_fields paymaster_keys stub user_op) ;;
  lift (require_get stub) ;;;
  gas <- _rpc "eth_estimateUserOperationGas"
              [POp (clean op1); PVal (PStr ENTRYPOINT_ADDRESS)] ;;
  op2 <- lift (merge_fields gas_keys gas op1) ;;
  gas_price <- _get_gas_price ;;
  let op3 := <["maxPriorityFeePerGas" := gas_price]> (<["maxFeePerGas" := gas_price]> op2) in
  lift (require_get gas) ;;;
  pm_data <- _rpc "pm_getPaymasterData"
                  [POp (clean op3); PVal (PStr ENTRYPOINT_ADDRESS); PVal (PStr CHAIN_ID_HEX)] ;;
  lift (merge_fields paymaster_keys pm_data op3).

Definition send_user_op (user_op : gmap string pyval) : M pyval :=
  _rpc "eth_sendUserOperation" [POp (clean user_op); PVal (PStr ENTRYPOINT_ADDRESS)].

(** [result.get("receipt", {}).get("transactionHash", default)]. *)
Definition transaction_hash (receipt : list (string * pyval)) (default : pyval)
  : result pyval :=
  match assoc_get "receipt" receipt with
  | None => Ok default
  | Some (PDict r) =>
      Ok (match assoc_get "transactionHash" r with Some h => h | None => default end)
  | Some _ => Err AttributeError
  end.

(** The body of the [try] in one round of the loop: [Some] receipt when the
    relay knows a successful one, [None] when it knows nothing yet. *)
Definition poll_once (user_op_hash : pyval) : M (option pyval) :=
  result <- _rpc "eth_getUserOperationReceipt" [PVal user_op_hash] ;;
  match result with
  | PNone => ret None
  | PDict d =>
      let success := match assoc_get "success" d with Some v => v | None => PBool false end in
      _tx <- lift (transaction_hash d (PStr "")) ;;
      if truthy success then ret (Some result)
      else raise (RuntimeError
                    [Txt "UserOp failed: ";
                     Obj (match assoc_get "reason" d with Some v => v | None => PStr "unknown" end)])
  | _ => raise AttributeError
  end.

(** [except RuntimeError as e]: a relay failure is let through, any other
    RuntimeError means "not found yet". *)
Definition on_runtime_error (e : exn) : M (option pyval) :=
  match e with
  | RuntimeError m =>
      if contains "UserOp failed" (render env m) then raise e else ret None
  | _ => raise e
  end.

Fixpoint wait_loop (rounds : nat) (user_op_hash : pyval) (timeout interval elapsed : float)
  : M pyval :=
  if (elapsed <? timeout)%float then
    match rounds with
    | O => raise Unfinished
    | S rounds' =>
        r <- catch (poll_once user_op_hash) on_runtime_error ;;
        match r with
        | Some receipt => ret receipt
        | None =>
            log (Sleep interval) ;;;
            wait_loop rounds' user_op_hash timeout interval (elapsed + interval)%float
        end
    end
  else
    raise (TimeoutError [Txt "UserOp "; Obj user_op_hash; Txt " not confirmed within ";
                         Obj (PFloat timeout); Txt "s"]).

(** [wait_for_receipt(user_op_hash, timeout, interval)], unrolled at most
    [rounds] times. *)
Definition wait_for_receipt (rounds : nat) (user_op_hash : pyval) (timeout interval : float)
  : M pyval :=
  wait_loop rounds user_op_hash timeout interval 0%float.

(** The default arguments: sixty seconds, every two seconds; the loop then
    makes at most thirty rounds. *)
Definition default_timeout : float := 60%float.
Definition default_interval : float := 2%float.
Definition default_rounds : nat := 30.

End WithLib.
End Bundler.

(** ** [services/payment.py]: pay, confirm, escrow deposit *)
Module Payment.
Import Py Abi Store Usdc Builder Bundler.

Definition PENDING_PAYMENT_TTL_MINUTES : Z := 10.

(** What the entry points return. *)
Inductive Receipt :=
| PendingConfirmation (payment_id : nat) (expires_at : time)
| Completed (tx_hash user_op_hash : pyval) (from to : string) (amount : float)
| EscrowCompleted (tx_hash user_op_hash : pyval) (from escrow_contract : string)
                  (order_id_bytes32 seller : string) (amount : float).

Definition _get_sender (user : User) : result string :=
  match smart_account_address user with
  | Some sa =>
      if String.eqb sa "" then
        Err (ValueError [Txt "Smart account not configured. Re-register to get a smart account."])
      else Ok sa
  | None =>
      Err (ValueError [Txt "Smart account not configured. Re-register to get a smart account."])
  end.

Definition over_per_tx_limit (amount per_tx : float) : exn :=
  ValueError [Txt "Amount "; Obj (PFloat amount);
              Txt " exceeds per-transaction limit of "; Obj (PFloat per_tx); Txt " USDC"].

Definition over_daily_limit (daily today_total : float) : exn :=
  ValueError [Txt "Amount would exceed daily limit of "; Obj (PFloat daily);
              Txt " USDC (spent today: "; Obj (PFloat today_total); Txt ")"].

Definition insufficient_balance (balance amount : float) : exn :=
  ValueError [Txt "Insufficient balance: "; Obj (PFloat balance);
              Txt " USDC (need "; Obj (PFloat amount); Txt ")"].

Definition per_tx_of (user : User) : float :=
  match per_transaction_limit user with Some x => x | None => 10%float end.

Definition daily_of (user : User) : float :=
  match daily_limit user with Some x => x | None => 50%float end.

Definition threshold_of (user : User) : float :=
  match require_confirmation_above user with Some x => x | None => 5%float end.

(** The rows the daily total is taken over: this user's payments and
    withdrawals created since midnight.  The total below adds their amounts
    in binary64, left to right in the order of insertion; the source fixes
    neither the order the store returns the rows in nor the summation of
    the interpreter. *)
Definition spent_today_row (uid : nat) (today_start : time) (tx : Transaction) : bool :=
  (tx_user_id tx =? uid)%nat
  && match tx_kind tx with TPayment | TWithdrawal => true | _ => false end
  && (today_start <=? tx_created_at tx).

Definition today_total (uid : nat) (today_start : time) (txs : list Transaction) : float :=
  fold_left (fun acc tx => (acc + tx_amount tx)%float)
            (filter (fun tx => spent_today_row uid today_start tx = true) txs) 0%float.

Section WithLib.
Context `{Hash} `{Config} (env : Env).

Definition _check_limits (user : User) (amount : float) : M unit :=
  let per_tx := per_tx_of user in
  let daily := daily_of user in
  if (per_tx <? amount)%float then raise (over_per_tx_limit amount per_tx)
  else
    t <- now env ;;
    txs <- gets transactions ;;
    let total := today_total (user_id user) (start_of_day t) txs in
    if (daily <? total + amount)%float then raise (over_daily_limit daily total)
    else ret tt.

Definition sign_message (wallet_id message : string) : M string :=
  log (Sign wallet_id message) ;;;
  lift (privy_sign env wallet_id message).

Definition mark_deployed (uid : nat) (u : User) : User :=
  if (user_id u =? uid)%nat then
    {| user_id := user_id u; wallet_address := wallet_address u;
       smart_account_address := smart_account_address u;
       smart_account_deployed := true;
       per_transaction_limit := per_transaction_limit u; daily_limit := daily_limit u;
       require_confirmation_above := require_confirmation_above u;
       privy_wallet_id := privy_wallet_id u |}
  else u.

(** Build, sponsor, sign, submit, wait.  The source also recovers the signer
    of the signature for a log line, inside a [try] that swallows every
    error, and marks the in-memory [user] dict deployed; neither is read by
    what follows. *)
Definition _submit_user_op (user : User) (call_data : string) : M (pyval * pyval) :=
  sender <- lift (_get_sender user) ;;
  let is_deployed := smart_account_deployed user in
  let owner := wallet_address user in
  op <- build_user_operation env sender call_data is_deployed owner 0 ;;
  BundlerClient ;;;
  op <- sponsor_user_op env op ;;
  op_hash <- lift (compute_user_op_hash op ENTRYPOINT_ADDRESS CHAIN_ID) ;;
  let op_hash_hex := hexstr op_hash in
  signature <- sign_message (privy_wallet_id user) op_hash_hex ;;
  let op := <["signature" := PStr signature]> op in
  user_op_hash <- send_user_op env op ;;
  receipt <- wait_for_receipt env default_rounds user_op_hash default_timeout default_interval ;;
  tx_hash <-
    lift (match receipt with
          | PDict d => transaction_hash d user_op_hash
          | _ => Err AttributeError
          end) ;;
  (if is_deployed then ret tt
   else modify (set_users (map (mark_deployed (user_id user))))) ;;;
  ret (user_op_hash, tx_hash).

Definition _execute_payment (user : User) (to_address : string) (amount : float)
    (memo : option string) : M Receipt :=
  sender <- lift (_get_sender user) ;;
  inner_calldata <- build_transfer_calldata env to_address amount ;;
  call_data <- build_execute_calldata env USDC_CONTRACT_ADDRESS 0 inner_calldata ;;
  submitted <- _submit_user_op user call_data ;;
  let user_op_hash := fst submitted in
  let tx_hash := snd submitted in
  insert_transaction env (user_id user) TPayment amount sender to_address memo
                     tx_hash (Some user_op_hash) None ;;;
  insert_event (user_id user) "payment_sent"
               [("to", PStr to_address); ("amount", PFloat amount); ("tx_hash", tx_hash);
                ("user_op_hash", user_op_hash); ("memo", opt_str memo)] ;;;
  ret (Completed tx_hash user_op_hash sender to_address amount).

Definition pay (user : User) (to_address : string) (amount : float)
    (memo : option string) : M Receipt :=
  sender <- lift (_get_sender user) ;;
  _check_limits user amount ;;;
  sender' <- lift (_get_sender user) ;;
  balance <- get_balance env sender' ;;
  if (balance <? amount)%float then raise (insufficient_balance balance amount)
  else
    let threshold := threshold_of user in
    if (threshold <? amount)%float then
      t <- now env ;;
      let expires_at := t + minutes PENDING_PAYMENT_TTL_MINUTES in
      row <- insert_pending_payment (user_id user) to_address amount memo expires_at ;;
      let payment_id := pp_id row in
      insert_event (user_id user) "payment_requires_confirmation"
                   [("payment_id", PInt (Z.of_nat payment_id)); ("to", PStr to_address);
                    ("amount", PFloat amount); ("memo", opt_str memo)] ;;;
      ret (PendingConfirmation payment_id expires_at)
    else _execute_payment user to_address amount memo.

(** [.eq("id", payment_id).eq("user_id", user["id"]).eq("status", "pending")]. *)
Definition pending_row (payment_id uid : nat) (p : PendingPayment) : bool :=
  (pp_id p =? payment_id)%nat && (pp_user_id p =? uid)%nat
  && payment_status_eqb (pp_status p) Pending.

Definition confirm_payment (user : User) (payment_id : nat) : M Receipt :=
  rows <- gets (fun w => filter (fun p => pending_row payment_id (user_id user) p = true)
                                (pending_payments w)) ;;
  match rows with
  | [] => raise (ValueError [Txt "Payment not found or already processed"])
  | payment :: _ =>
      t <- now env ;;
      if pp_expires_at payment <? t then
        update_payment_status payment_id Expired ;;;
        raise (ValueError [Txt "Payment has expired"])
      else
        result <- _execute_payment user (pp_to_address payment) (pp_amount payment)
                                   (pp_memo payment) ;;
        update_payment_status payment_id Confirmed ;;;
        ret result
  end.

Definition escrow_deposit (user : User) (escrow_contract usdc_contract : string)
    (order_id_bytes32 seller : string) (amount : float) : M Receipt :=
  sender <- lift (_get_sender user) ;;
  sender' <- lift (_get_sender user) ;;
  balance <- get_balance env sender' ;;
  if (balance <? amount)%float then raise (insufficient_balance balance amount)
  else
    amount_units <- lift (raw_units amount) ;;
    approve_data <- build_approve_calldata env escrow_contract amount_units ;;
    deposit_data <- build_deposit_calldata env order_id_bytes32 seller amount_units ;;
    call_data <- build_execute_batch_calldata env
      [{| call_to := usdc_contract; call_value := Some 0; call_data := Some approve_data |};
       {| call_to := escrow_contract; call_value := Some 0; call_data := Some deposit_data |}] ;;
    submitted <- _submit_user_op user call_data ;;
    let user_op_hash := fst submitted in
    let tx_hash := snd submitted in
    insert_transaction env (user_id user) TEscrowDeposit amount sender escrow_contract
      (Some (String.append "order:" (String.append order_id_bytes32
               (String.append " seller:" seller))))
      tx_hash (Some user_op_hash) None ;;;
    insert_event (user_id user) "escrow_deposit"
                 [("escrow_contract", PStr escrow_contract);
                  ("order_id_bytes32", PStr order_id_bytes32);
                  ("seller", PStr seller); ("amount", PFloat amount);
                  ("tx_hash", tx_hash); ("user_op_hash", user_op_hash)] ;;;
    ret (EscrowCompleted tx_hash user_op_hash sender escrow_contract
                         order_id_bytes32 seller amount).

End WithLib.
End Payment.

(** ** [api/models.py], [api/routes.py]: the pay request and its endpoint *)
Module Api.
Import Py Store Payment.

(** A finite [Decimal]: [coefficient * 10 ^ exponent]. *)
Record Decimal := {
  coefficient : Z;
  exponent : Z
}.

(** [float(d)]: the binary64 nearest to the decimal, ties to even. *)
Definition float_of_decimal (d : Decimal) : float :=
  let c := coefficient d in
  let e := exponent d in
  if 0 <=? e then SF2Prim (binary_normalize prec emax (c * 10 ^ e) 0 false)
  else
    let den := 10 ^ (- e) in
    let k := Z.max 0 (66 + Z.log2 den - Z.log2 (Z.abs c)) in
    let num := Z.abs c * 2 ^ k in
    let sticky := if num mod den =? 0 then 0 else 1 in
    let mant := 2 * (num / den) + sticky in
    SF2Prim (binary_normalize prec emax (Z.sgn c * mant) (- (k + 1)) false).

Record PayRequest := {
  to : string;
  amount : Decimal;
  memo : option string
}.

(** [amount: Decimal = Field(..., gt=0)]. *)
Definition validate_pay_request (req : PayRequest) : result PayRequest :=
  if 0 <? coefficient (amount req) then Ok req
  else Err (RequestValidationError "amount").

Section WithLib.
Context `{Hash} `{Config} (env : Env).

(** [except ValueError as e: raise HTTPException(status_code=400, ...)]. *)
Definition bad_request (e : exn) : M Receipt :=
  match e with
  | ValueError m => raise (HTTPException 400 m)
  | _ => raise e
  end.

(** POST /v1/pay: the body is validated against [PayRequest] before the
    handler runs. *)
Definition pay_endpoint (body : PayRequest) (user : User) : M Receipt :=
  req <- lift (validate_pay_request body) ;;
  catch (pay env user (to req) (float_of_decimal (amount req)) (memo req)) bad_request.

End WithLib.
End Api.

(** ** [chain/scanner.py]: deposit detection *)
Module Scanner.
Import Py Store Usdc.

Definition lower_char (c : ascii) : ascii :=
  let n := N_of_ascii c in
  if ((65 <=? n) && (n <=? 90))%N then ascii_of_N (n + 32) else c.

(** [s.lower()]. *)
Fixpoint lower (s : string) : string :=
  match s with
  | EmptyString => EmptyString
  | String c rest => String (lower_char c) (lower rest)
  end.

(** Address (lower case) to user id, the owner key and the smart account. *)
Definition add_user_addresses (m : gmap string nat) (row : User) : gmap string nat :=
  let m1 := <[lower (wallet_address row) := user_id row]> m in
  match smart_account_address row with
  | Some sa => if String.eqb sa "" then m1 else <[lower sa := user_id row]> m1
  | None => m1
  end.

Definition _get_user_addresses : M (gmap string nat) :=
  gets (fun w => fold_left add_user_addresses (users w) ∅).

(** [.select("id").eq("tx_hash", tx_hash)] finds a row. *)
Definition has_tx_hash (h : string) (txs : list Transaction) : bool :=
  existsb (fun tx => is_str h (tx_hash tx)) txs.

Section WithLib.
Context `{Hash} `{Config} (env : Env).

(** One round of the [for evt in events] loop. *)
Definition ingest (user_map : gmap string nat) (evt : TransferEvent) : M unit :=
  match user_map !! lower (te_to evt) with
  | None => ret tt
  | Some uid =>
      existing <- gets (fun w => has_tx_hash (te_tx_hash evt) (transactions w)) ;;
      if existing then ret tt
      else
        insert_transaction env uid TDeposit (te_value evt) (te_from evt) (te_to evt)
                           None (PStr (te_tx_hash evt)) None (Some "completed") ;;;
        insert_event uid "deposit_received"
                     [("from", PStr (te_from evt)); ("amount", PFloat (te_value evt));
                      ("tx_hash", PStr (te_tx_hash evt))]
  end.

Fixpoint ingest_all (user_map : gmap string nat) (evts : list TransferEvent) : M unit :=
  match evts with
  | [] => ret tt
  | evt :: rest => ingest user_map evt ;;; ingest_all user_map rest
  end.

(** [scan_deposits()]: whatever is raised inside is logged and dropped. *)
Definition scan_deposits : M unit :=
  catch
    (latest <- get_latest_block env ;;
     last <- gets last_scanned_block ;;
     match last with
     | None => modify (set_last_scanned_block (Some latest))
     | Some last_block =>
         if latest <=? last_block then ret tt
         else
           let from_block := last_block + 1 in
           let to_block := Z.min latest (from_block + 2000) in
           evts <- get_transfer_events env from_block to_block ;;
           user_map <- _get_user_addresses ;;
           ingest_all user_map evts ;;;
           modify (set_last_scanned_block (Some to_block))
     end)
    (fun _ => ret tt).

End WithLib.
End Scanner.

(** ** The hash as the specification words it

    A second definition, written from the specification's own steps (a) to
    (e) over a typed operation record; [Wire.of_dict] reads the dict the
    code works on as such a record. *)
Module OperationSpec.
Import Py.

Record Paymaster := {
  pm_address : list byte;
  pm_verification_gas_limit : Z;
  pm_post_op_gas_limit : Z;
  pm_data : list byte
}.

Record Operation := {
  sender : list byte;
  nonce : Z;
  factory : option (list byte * list byte);
  callData : list byte;
  verificationGasLimit : Z;
  callGasLimit : Z;
  preVerificationGas : Z;
  maxPriorityFeePerGas : Z;
  maxFeePerGas : Z;
  paymaster : option Paymaster;
  signature : option pyval
}.

(** One 16-byte big-endian half of a packed 32-byte value. *)
Definition half (n : Z) : list byte := be_bytes 16 n.

(** Tuple encoding of the fixed-size fields: one 32-byte word each. *)
Definition uint_word (n : Z) : list byte := be_bytes 32 n.
Definition address_word (a : list byte) : list byte := repeat x00 12 ++ a.

Definition init_payload (o : Operation) : list byte :=
  match factory o with
  | Some (address, data) => address ++ data
  | None => []
  end.

Definition gas_limits_packed (o : Operation) : list byte :=
  half (verificationGasLimit o) ++ half (callGasLimit o).

Definition fees_packed (o : Operation) : list byte :=
  half (maxPriorityFeePerGas o) ++ half (maxFeePerGas o).

Definition paymaster_payload (o : Operation) : list byte :=
  match paymaster o with
  | Some p =>
      pm_address p ++ half (pm_verification_gas_limit p)
      ++ half (pm_post_op_gas_limit p) ++ pm_data p
  | None => []
  end.

Definition fits (bits : Z) (n : Z) : bool := (0 <=? n) && (n <? 2 ^ bits).

(** The widths the wire format gives the fields. *)
Definition well_formed (o : Operation) : bool :=
  (length (sender o) =? 20)%nat
  && fits 256 (nonce o)
  && fits 128 (verificationGasLimit o) && fits 128 (callGasLimit o)
  && fits 256 (preVerificationGas o)
  && fits 128 (maxPriorityFeePerGas o) && fits 128 (maxFeePerGas o)
  && match paymaster o with
     | Some p => fits 128 (pm_verification_gas_limit p) && fits 128 (pm_post_op_gas_limit p)
     | None => true
     end.

Section WithHash.
Context `{Hash}.

Definition inner_hash (o : Operation) : list byte :=
  keccak (address_word (sender o) ++ uint_word (nonce o)
          ++ keccak (init_payload o) ++ keccak (callData o)
          ++ gas_limits_packed o ++ uint_word (preVerificationGas o)
          ++ fees_packed o ++ keccak (paymaster_payload o)).

Definition operation_hash (o : Operation) (entry_point : list byte) (chain_id : Z)
  : list byte :=
  keccak (inner_hash o ++ address_word entry_point ++ uint_word chain_id).

End WithHash.
End OperationSpec.

(** ** Reading the operation dict as the specification's record *)
Module Wire.
Import Py Abi Builder OperationSpec.

Section WithHash.
Context `{Hash}.

Definition read_sender (op : gmap string pyval) : result (list byte) :=
  let? v := item op "sender" in
  match v with
  | PStr s =>
      if is_address s && is_ok (fromhex (remove_0x s)) then address_bytes s
      else Err EncodingError
  | _ => Err AttributeError
  end.

Definition read_factory (op : gmap string pyval) : result (option (list byte * list byte)) :=
  let f := get_or op "factory" PNone in
  if truthy f && negb (is_str zero_address f) then
    let? address := _hex_to_bytes f in
    let? data := _hex_to_bytes (get_or op "factoryData" PNone) in
    Ok (Some (address, data))
  else Ok None.

Definition read_paymaster (op : gmap string pyval) : result (option Paymaster) :=
  let p := get_or op "paymaster" PNone in
  if truthy p then
    let? address := _hex_to_bytes p in
    let? vgl := _hex_to_int (get_or op "paymasterVerificationGasLimit" (PStr "0x0")) in
    let? pogl := _hex_to_int (get_or op "paymasterPostOpGasLimit" (PStr "0x0")) in
    let? data := _hex_to_bytes (get_or op "paymasterData" PNone) in
    Ok (Some {| pm_address := address; pm_verification_gas_limit := vgl;
                pm_post_op_gas_limit := pogl; pm_data := data |})
  else Ok None.

Definition of_dict (op : gmap string pyval) : result Operation :=
  let? s := read_sender op in
  let? n_obj := item op "nonce" in
  let? n := _hex_to_int n_obj in
  let? _n := encodable_int n_obj in
  let? f := read_factory op in
  let? cd_obj := item op "callData" in
  let? cd := _hex_to_bytes cd_obj in
  let? vgl := _hex_to_int (get_or op "verificationGasLimit" (PStr "0x0")) in
  let? cgl := _hex_to_int (get_or op "callGasLimit" (PStr "0x0")) in
  let? pvg := _hex_to_int (get_or op "preVerificationGas" (PStr "0x0")) in
  let? _pvg := encodable_int (get_or op "preVerificationGas" (PStr "0x0")) in
  let? mpf := _hex_to_int (get_or op "maxPriorityFeePerGas" (PStr "0x0")) in
  let? mf := _hex_to_int (get_or op "maxFeePerGas" (PStr "0x0")) in
  let? pm := read_paymaster op in
  Ok {| sender := s; nonce := n; factory := f; callData := cd;
        verificationGasLimit := vgl; callGasLimit := cgl; preVerificationGas := pvg;
        maxPriorityFeePerGas := mpf; maxFeePerGas := mf; paymaster := pm;
        signature := op !! "signature" |}.

(** The entry point address as the caller passes it, and its bytes. *)
Definition read_address (s : string) : result (list byte) :=
  if is_address s then address_bytes s else Err EncodingError.

End WithHash.
End Wire.

(** ** Vocabulary of the properties: frames and the log of outside calls *)
Module Trace.
Import Py Abi Store Usdc Builder Bundler Payment Scanner.

(** [m] takes every world to one related to it by [R], whatever it returns. *)
Definition keeps {A} (R : World -> World -> Prop) (m : M A) : Prop :=
  forall w, R w (snd (m w)).

(** The part [f] of the world is left as it was. *)
Definition same {X} (f : World -> X) (w w' : World) : Prop := f w' = f w.

(** The three tables of payments are as they were. *)
Definition same_store (w w' : World) : Prop :=
  pending_payments w' = pending_payments w
  /\ transactions w' = transactions w
  /\ events w' = events w.

(** The parameters of the operations submitted to the relay. *)
Definition submissions (cs : list call) : list (list param) :=
  flat_map (fun c =>
              match c with
              | Rpc _ method params =>
                  if String.eqb method "eth_sendUserOperation" then [params] else []
              | _ => []
              end) cs.

(** Calls were only added, and none of them submits an operation. *)
Definition no_submission (w w' : World) : Prop :=
  exists new, calls w' = calls w ++ new /\ submissions new = [].

(** How many times the process slept. *)
Definition sleeps (cs : list call) : nat :=
  length (List.filter (fun c => match c with Sleep _ => true | _ => false end) cs).

(** The rows recorded under a chain transaction identifier. *)
Definition rows_with_hash (h : string) (txs : list Transaction) : list Transaction :=
  filter (fun tx => is_str h (tx_hash tx) = true) txs.

(** The relay's answer to a receipt poll means "not known yet". *)
Definition unknown_reply (env : Env) (r : rpc_reply) : Prop :=
  r = RpcResult PNone
  \/ exists err, r = RpcError err
       /\ contains "UserOp failed" (render env [Txt "Bundler RPC error: "; Obj err]) = false.

(** [elapsed] after [k] rounds of the polling loop. *)
Definition elapsed_after (interval : float) (k : nat) : float :=
  Nat.iter k (fun e => (e + interval)%float) 0%float.

(** The receipt poll a client in world [w] sends next. *)
Definition poll_call (h : pyval) (w : World) : call :=
  Rpc (S (rpc_seq w)) "eth_getUserOperationReceipt" [PVal h].

(** The world after that poll was sent and answered. *)
Definition after_poll (h : pyval) (w : World) : World :=
  {| pending_payments := pending_payments w; transactions := transactions w;
     events := events w; users := users w; next_id := next_id w;
     calls := calls w ++ [poll_call h w]; ticks := ticks w;
     rpc_seq := S (rpc_seq w); last_scanned_block := last_scanned_block w |}.

(** The world after a poll that learned nothing and the sleep that follows. *)
Definition after_round (h : pyval) (interval : float) (w : World) : World :=
  {| pending_payments := pending_payments w; transactions := transactions w;
     events := events w; users := users w; next_id := next_id w;
     calls := calls w ++ [poll_call h w; Sleep interval]; ticks := ticks w;
     rpc_seq := S (rpc_seq w); last_scanned_block := last_scanned_block w |}.

(** [d.get("success", False)]. *)
Definition success_of (d : list (string * pyval)) : pyval :=
  match assoc_get "success" d with
  | Some v => v
  | None => PBool false
  end.

(** [d.get("reason", "unknown")]. *)
Definition reason_of (d : list (string * pyval)) : pyval :=
  match assoc_get "reason" d with
  | Some v => v
  | None => PStr "unknown"
  end.

(** The two errors the wait can end in. *)
Definition timeout_error (h : pyval) (timeout : float) : exn :=
  TimeoutError [Txt "UserOp "; Obj h; Txt " not confirmed within ";
                Obj (PFloat timeout); Txt "s"].

Definition failed_error (d : list (string * pyval)) : exn :=
  RuntimeError [Txt "UserOp failed: "; Obj (reason_of d)].

(** The log shows a receipt poll that the relay answered with a receipt
    whose success flag is true. *)
Definition saw_success (env : Env) (w : World) : Prop :=
  exists id h d,
    In (Rpc id "eth_getUserOperationReceipt" [PVal h]) (calls w)
    /\ relay env id "eth_getUserOperationReceipt" [PVal h] = RpcResult (PDict d)
    /\ truthy (success_of d) = true.

(** What a scanner tick may do to the rows of each chain transaction
    identifier: rows already there stay as they are, and an identifier with
    at most one row keeps at most one. *)
Definition idempotent_step (w w' : World) : Prop :=
  (forall h, has_tx_hash h (transactions w) = true ->
     rows_with_hash h (transactions w') = rows_with_hash h (transactions w))
  /\ (forall h, (length (rows_with_hash h (transactions w)) <= 1)%nat ->
        (length (rows_with_hash h (transactions w')) <= 1)%nat).

(** The two errors a confirmation raises by itself. *)
Definition not_found : exn := ValueError [Txt "Payment not found or already processed"].
Definition expired : exn := ValueError [Txt "Payment has expired"].

(** The rows [confirm_payment] selects. *)
Definition selected (user : User) (payment_id : nat) (w : World) : list PendingPayment :=
  filter (fun p => pending_row payment_id (user_id user) p = true) (pending_payments w).

(** [c] is a digit of the nibble [n], in either case. *)
Definition digit_of (n : Z) (c : ascii) : Prop :=
  c = hexchar n \/ c = upper (hexchar n).

(** [s] spells the bytes [bs], two digits each. *)
Inductive spells : list byte -> string -> Prop :=
| spells_nil : spells [] EmptyString
| spells_cons b bs c1 c2 s :
    digit_of (byte_z b / 16) c1 -> digit_of (byte_z b mod 16) c2 -> spells bs s ->
    spells (b :: bs) (String c1 (String c2 s)).

(** [m] only adds calls, and what it returns and the operations it submits
    on the way are related by [P]. *)
Definition traced {A} (m : M A) (P : result A -> list (list param) -> Prop) : Prop :=
  forall w, exists new,
    calls (snd (m w)) = calls w ++ new /\ P (fst (m w)) (submissions new).

Section Window.
Context `{Hash} `{Config}.

(** Nothing was submitted and the call failed, or exactly one operation was
    submitted, to the entry point, and its callData satisfies [Q]. *)
Definition one_submission {A} (Q : string -> Prop) (r : result A)
    (subs : list (list param)) : Prop :=
  (subs = [] /\ is_ok r = false)
  \/ exists op call_data,
       subs = [[POp op; PVal (PStr ENTRYPOINT_ADDRESS)]]
       /\ op !! "callData" = Some (PStr call_data)
       /\ Q call_data.

(** The calldata of the atomic approve-then-deposit batch: one executeBatch
    over two calls, the token's approve of the escrow contract and the
    escrow's deposit, each with value zero. *)
Definition approve_then_deposit (usdc escrow seller order : list byte) (units : Z)
  : list byte :=
  selector "executeBatch(address[],uint256[],bytes[])"
  ++ tuple [Array [Address usdc; Address escrow];
            Array [Uint256 0; Uint256 0];
            Array [Bytes (selector "approve(address,uint256)"
                          ++ tuple [Address escrow; Uint256 units]);
                   Bytes (selector "deposit(bytes32,address,uint256)"
                          ++ tuple [Bytes32 order; Address seller; Uint256 units])]].

(** [call_data] is that batch for the arguments of [escrow_deposit]. *)
Definition is_escrow_batch (escrow usdc order seller : string) (amount : float)
    (call_data : string) : Prop :=
  exists units usdc_b escrow_b seller_b order_b,
    raw_units amount = Ok units
    /\ address_bytes usdc = Ok usdc_b
    /\ address_bytes escrow = Ok escrow_b
    /\ address_bytes seller = Ok seller_b
    /\ fromhex (remove_0x order) = Ok order_b
    /\ call_data = hexstr (approve_then_deposit usdc_b escrow_b seller_b order_b units).

(** The tick that starts in [w] scans a window whose log holds [evt], a
    transfer to a known account. *)
Definition in_window (env : Env) (w : World) (evt : TransferEvent) : Prop :=
  exists latest last evts uid,
    latest_block env = Ok latest
    /\ last_scanned_block w = Some last
    /\ last < latest
    /\ is_ok (to_checksum_address USDC_CONTRACT_ADDRESS) = true
    /\ transfer_logs env (last + 1) (Z.min latest (last + 1 + 2000)) = Ok evts
    /\ In evt evts
    /\ fold_left add_user_addresses (users w) ∅ !! lower (te_to evt) = Some uid.

End Window.

End Trace.

(** ** The hash library instance and the deployed configuration *)

#[export] Instance Keccak256 : Hash :=
  {| keccak := Keccak.keccak256; keccak_length := fun _ => eq_refl |}.

(** The defaults of [config.py], with a relay configured. *)
Definition testnet : Config :=
  {| CHAIN_ID := 84532;
     USDC_CONTRACT_ADDRESS := "0x036CbD53842c5426634e7929541eC2318f3dCF7e";
     ENTRYPOINT_ADDRESS := "0x0000000071727De22E5E9d8BAf0edAc6f37da032";
     SIMPLE_ACCOUNT_FACTORY := "0x91E60e0613810449d098b0b5Ec8b51A0FE8c8985";
     BUNDLER_RPC_URL := "https://bundler.example/rpc" |}.

(** ** A scripted outside world, to run the definitions on *)
Module Scenario.
Import Py Store.

Definition sponsor : string := "0x0101010101010101010101010101010101010101".

Definition receipt_ok : pyval :=
  PDict [("success", PBool true);
         ("receipt", PDict [("transactionHash", PStr "0xabc")])].

(** A relay that sponsors, estimates, accepts the operation, does not know
    the receipt for two polls and then reports success. *)
Definition relay_ok (id : nat) (method : string) (params : list param) : rpc_reply :=
  if String.eqb method "pm_getPaymasterStubData" then
    RpcResult (PDict [("paymaster", PStr sponsor); ("paymasterData", PStr "0xdead");
                      ("paymasterVerificationGasLimit", PStr "0x10");
                      ("paymasterPostOpGasLimit", PStr "0x20")])
  else if String.eqb method "eth_estimateUserOperationGas" then
    RpcResult (PDict [("preVerificationGas", PStr "0x5208");
                      ("callGasLimit", PStr "0x10000");
                      ("verificationGasLimit", PStr "0x20000")])
  else if String.eqb method "pm_getPaymasterData" then
    RpcResult (PDict [("paymaster", PStr sponsor); ("paymasterData", PStr "0xbeef")])
  else if String.eqb method "eth_sendUserOperation" then RpcResult (PStr "0xuserop")
  else if (id <? 7)%nat then RpcError (PStr "receipt not found")
  else RpcResult receipt_ok.

Definition env : Env :=
  {| clock := fun n => 1000000000 + Z.of_nat n;
     balance_of := fun _ => Ok 100%float;
     entrypoint_nonce := fun _ => Ok 7;
     relay := relay_ok;
     eth_gas_price := Ok (PStr "0x3b9aca00");
     privy_sign := fun _ _ => Ok "0x1234";
     latest_block := Ok 100;
     transfer_logs := fun _ _ => Ok [];
     eth_chain_id := Ok 84532;
     str_of := fun v => match v with PStr s => s | _ => "?" end |}.

Definition alice : User :=
  {| user_id := 1;
     wallet_address := "0x036CbD53842c5426634e7929541eC2318f3dCF7e";
     smart_account_address := Some "0x91E60e0613810449d098b0b5Ec8b51A0FE8c8985";
     smart_account_deployed := false;
     per_transaction_limit := None;
     daily_limit := None;
     require_confirmation_above := None;
     privy_wallet_id := "wallet-1" |}.

Definition bob : string := "0x0000000071727De22E5E9d8BAf0edAc6f37da032".

Definition start : World :=
  {| pending_payments := []; transactions := []; events := []; users := [alice];
     next_id := 0; calls := []; ticks := 0; rpc_seq := 0;
     last_scanned_block := None |}.

(** The same world with another relay. *)
Definition with_relay (r : nat -> string -> list param -> rpc_reply) : Env :=
  {| clock := clock env; balance_of := balance_of env;
     entrypoint_nonce := entrypoint_nonce env; relay := r;
     eth_gas_price := eth_gas_price env; privy_sign := privy_sign env;
     latest_block := latest_block env; transfer_logs := transfer_logs env;
     eth_chain_id := eth_chain_id env; str_of := str_of env |}.

(** A relay that answers every request with an error object. *)
Definition relay_down (id : nat) (method : string) (params : list param) : rpc_reply :=
  RpcError (PStr "service unavailable").

(** A relay whose receipt says the operation failed on chain. *)
Definition relay_reverting (id : nat) (method : string) (params : list param) : rpc_reply :=
  if String.eqb method "eth_getUserOperationReceipt" then
    RpcResult (PDict [("success", PBool false); ("reason", PStr "AA23 reverted");
                      ("receipt", PDict [("transactionHash", PStr "0xabc")])])
  else relay_ok id method params.

(** A relay that never learns the receipt. *)
Definition relay_silent (id : nat) (method : string) (params : list param) : rpc_reply :=
  if String.eqb method "eth_getUserOperationReceipt" then RpcResult PNone
  else relay_ok id method params.

(** Alice's payment of seven units to Bob, waiting for confirmation. *)
Definition waiting : PendingPayment :=
  {| pp_id := 0; pp_user_id := 1; pp_to_address := bob; pp_amount := 7;
     pp_memo := None; pp_expires_at := 2000000000; pp_status := Pending |}.

Definition with_payment (p : PendingPayment) : World :=
  {| pending_payments := [p]; transactions := []; events := []; users := [alice];
     next_id := 1; calls := []; ticks := 0; rpc_seq := 0;
     last_scanned_block := None |}.

(** Bytes from their hex digits. *)
Definition unhex (digits : string) : list byte :=
  match fromhex digits with
  | Ok bs => bs
  | Err _ => []
  end.

(** A sponsored operation of Alice's undeployed account, as the dict the
    relay client hands to the hash. *)
Definition reference_op : gmap string pyval :=
  list_to_map
    [("sender", PStr "0x91E60e0613810449d098b0b5Ec8b51A0FE8c8985");
     ("nonce", PStr "0x7");
     ("factory", PStr "0x91E60e0613810449d098b0b5Ec8b51A0FE8c8985");
     ("factoryData", PStr "0x5fbfb9cf");
     ("callData", PStr "0xb61d27f6");
     ("callGasLimit", PStr "0x10000");
     ("verificationGasLimit", PStr "0x20000");
     ("preVerificationGas", PStr "0x5208");
     ("maxFeePerGas", PStr "0x3b9aca00");
     ("maxPriorityFeePerGas", PStr "0x3b9aca00");
     ("signature", PStr "0x1234");
     ("paymaster", PStr sponsor);
     ("paymasterData", PStr "0xbeef");
     ("paymasterVerificationGasLimit", PStr "0x10");
     ("paymasterPostOpGasLimit", PStr "0x20")].

(** The same operation as the specification's record. *)
Definition reference_operation : OperationSpec.Operation :=
  {| OperationSpec.sender := unhex "91E60e0613810449d098b0b5Ec8b51A0FE8c8985";
     OperationSpec.nonce := 7;
     OperationSpec.factory :=
       Some (unhex "91E60e0613810449d098b0b5Ec8b51A0FE8c8985", unhex "5fbfb9cf");
     OperationSpec.callData := unhex "b61d27f6";
     OperationSpec.verificationGasLimit := 131072;
     OperationSpec.callGasLimit := 65536;
     OperationSpec.preVerificationGas := 21000;
     OperationSpec.maxPriorityFeePerGas := 1000000000;
     OperationSpec.maxFeePerGas := 1000000000;
     OperationSpec.paymaster :=
       Some {| OperationSpec.pm_address := unhex "0101010101010101010101010101010101010101";
               OperationSpec.pm_verification_gas_limit := 16;
               OperationSpec.pm_post_op_gas_limit := 32;
               OperationSpec.pm_data := unhex "beef" |};
     OperationSpec.signature := Some (PStr "0x1234") |}.

(** An order identifier of the marketplace. *)
Definition order : string :=
  "0x0101010101010101010101010101010101010101010101010101010101010101".

(** A transfer of two units to Alice's smart account. *)
Definition deposit : TransferEvent :=
  {| te_from := bob; te_to := "0x91E60e0613810449d098b0b5Ec8b51A0FE8c8985";
     te_value := 2; te_tx_hash := "0xfeed"; te_block_number := 95 |}.

(** A chain at height [latest] whose every log window holds that transfer. *)
Definition chain_at (latest : Z) : Env :=
  {| clock := clock env; balance_of := balance_of env;
     entrypoint_nonce := entrypoint_nonce env; relay := relay env;
     eth_gas_price := eth_gas_price env; privy_sign := privy_sign env;
     latest_block := Ok latest; transfer_logs := fun _ _ => Ok [deposit];
     eth_chain_id := eth_chain_id env; str_of := str_of env |}.

(** The scanner has run before and stands at block 90. *)
Definition scanning : World :=
  {| pending_payments := []; transactions := []; events := []; users := [alice];
     next_id := 0; calls := []; ticks := 0; rpc_seq := 0;
     last_scanned_block := Some 90 |}.

End Scenario.

(** ** [services/payment.py]: cancel, withdraw, contract call *)
Module Outflow.
Import Py Abi Store Usdc Builder Bundler Payment.

(** [{"status": "cancelled", "payment_id": payment_id}]. *)
Inductive Cancellation :=
| CancelledPayment (payment_id : nat).

(** What [contract_call] returns. *)
Inductive CallReceipt :=
| CallCompleted (tx_hash user_op_hash : pyval) (from contract_address : string).

(** [f"contract_call:{calldata[:20]}..."]. *)
Definition contract_call_memo (calldata : string) : string :=
  String.append "contract_call:" (String.append (String.substring 0 20 calldata) "...").

Section WithLib.
Context `{Hash} `{Config} (env : Env).

Definition cancel_payment (user : User) (payment_id : nat) : M Cancellation :=
  rows <- gets (fun w => filter (fun p => pending_row payment_id (user_id user) p = true)
                                (pending_payments w)) ;;
  match rows with
  | [] => raise (ValueError [Txt "Payment not found or already processed"])
  | _ :: _ =>
      update_payment_status payment_id Cancelled ;;;
      insert_event (user_id user) "payment_cancelled"
                   [("payment_id", PInt (Z.of_nat payment_id))] ;;;
      ret (CancelledPayment payment_id)
  end.

Definition withdraw (user : User) (to_address : string) (amount : float)
    (memo : option string) : M Receipt :=
  sender <- lift (_get_sender user) ;;
  _check_limits env user amount ;;;
  sender' <- lift (_get_sender user) ;;
  balance <- get_balance env sender' ;;
  if (balance <? amount)%float then raise (insufficient_balance balance amount)
  else
    inner_calldata <- build_transfer_calldata env to_address amount ;;
    call_data <- build_execute_calldata env USDC_CONTRACT_ADDRESS 0 inner_calldata ;;
    submitted <- _submit_user_op env user call_data ;;
    let user_op_hash := fst submitted in
    let tx_hash := snd submitted in
    insert_transaction env (user_id user) TWithdrawal amount sender to_address memo
                       tx_hash (Some user_op_hash) None ;;;
    insert_event (user_id user) "withdrawal_sent"
                 [("to", PStr to_address); ("amount", PFloat amount); ("tx_hash", tx_hash);
                  ("user_op_hash", user_op_hash); ("memo", opt_str memo)] ;;;
    ret (Completed tx_hash user_op_hash sender to_address amount).

Definition contract_call (user : User) (contract_address calldata : string)
  : M CallReceipt :=
  sender <- lift (_get_sender user) ;;
  call_data <- build_execute_calldata env contract_address 0 calldata ;;
  submitted <- _submit_user_op env user call_data ;;
  let user_op_hash := fst submitted in
  let tx_hash := snd submitted in
  insert_transaction env (user_id user) TContractCall 0%float sender contract_address
                     (Some (contract_call_memo calldata))
                     tx_hash (Some user_op_hash) None ;;;
  insert_event (user_id user) "contract_call"
               [("contract_address", PStr contract_address); ("tx_hash", tx_hash);
                ("user_op_hash", user_op_hash)] ;;;
  ret (CallCompleted tx_hash user_op_hash sender contract_address).

End WithLib.
End Outflow.

(** ** [chain/scanner.py]: the sweep of expired pending payments *)
Module Cleanup.
Import Py Store.

(** [.eq("status", "pending").lt("expires_at", now)]. *)
Definition overdue (t : time) (p : PendingPayment) : bool :=
  payment_status_eqb (pp_status p) Pending && (pp_expires_at p <? t).

Definition expire (t : time) (p : PendingPayment) : PendingPayment :=
  if overdue t p then with_status Expired p else p.

Section WithEnv.
Variable env : Env.

(** The body of one round of [expired_payment_cleanup_loop]: the number of
    rows the update touched is only logged, and whatever is raised inside
    is logged and dropped. *)
Definition expired_payment_cleanup : M unit :=
  catch
    (t <- now env ;;
     modify (set_pending (map (expire t))))
    (fun _ => ret tt).

End WithEnv.
End Cleanup.

(** ** What an outflow leaves in the books *)
Module Ledger.
Import Py Store Payment Trace.

(** The outcome [run] of an outflow started in [w]: the pending payments
    are as they were; a failure leaves the transactions as they were; a
    success was reported by the relay and appended exactly one row, of user
    [uid], type [kind], the amount and the destination, created at
    [created]. *)
Definition records_outflow {A} (env : Env) (uid : nat) (kind : tx_type) (amount : float)
    (to : string) (created : time) (w : World) (run : result A * World) : Prop :=
  pending_payments (snd run) = pending_payments w
  /\ match fst run with
     | Err _ => transactions (snd run) = transactions w
     | Ok _ =>
         saw_success env (snd run)
         /\ exists row,
              transactions (snd run) = transactions w ++ [row]
              /\ tx_user_id row = uid /\ tx_kind row = kind /\ tx_amount row = amount
              /\ tx_to_address row = to /\ tx_created_at row = created
     end.

(** Calls were only added, and none of them reads a balance. *)
Definition no_balance_read (w w' : World) : Prop :=
  exists new,
    calls w' = calls w ++ new
    /\ existsb (fun c => match c with GetBalance _ => true | _ => false end) new = false.

(** The same user with other limits. *)
Definition with_limits (per_tx daily threshold : option float) (u : User) : User :=
  {| user_id := user_id u; wallet_address := wallet_address u;
     smart_account_address := smart_account_address u;
     smart_account_deployed := smart_account_deployed u;
     per_transaction_limit := per_tx; daily_limit := daily;
     require_confirmation_above := threshold;
     privy_wallet_id := privy_wallet_id u |}.

End Ledger.

(** ** The calldata of a transfer and of a plain call *)
Module Calldata.
Import Py Abi Store Usdc Builder.

Section WithLib.
Context `{Hash} `{Config}.

(** [execute(dest, 0, func)] on the account. *)
Definition execute_call (dest : list byte) (func : list byte) : list byte :=
  selector "execute(address,uint256,bytes)"
  ++ tuple [Address dest; Uint256 0; Bytes func].

(** [transfer(to, units)] on the token. *)
Definition transfer_call (to : list byte) (units : Z) : list byte :=
  selector "transfer(address,uint256)" ++ tuple [Address to; Uint256 units].

(** [call_data] makes the account call the token's transfer of the amount,
    in base units, to [to]. *)
Definition is_transfer (to : string) (amount : float) (call_data : string) : Prop :=
  exists units usdc_b to_b,
    raw_units amount = Ok units
    /\ address_bytes USDC_CONTRACT_ADDRESS = Ok usdc_b
    /\ address_bytes to = Ok to_b
    /\ call_data = hexstr (execute_call usdc_b (transfer_call to_b units)).

(** [call_data] makes the account call [contract] with the bytes that
    [calldata] spells. *)
Definition is_execute (contract calldata : string) (call_data : string) : Prop :=
  exists contract_b func,
    address_bytes contract = Ok contract_b
    /\ data_bytes (Some calldata) = Ok func
    /\ call_data = hexstr (execute_call contract_b func).

End WithLib.
End Calldata.

(** ** [api/models.py], [api/routes.py]: the other requests that move funds *)
Module Routes.
Import Py Store Payment Api Outflow.

Record WithdrawRequest := {
  withdraw_to : string;
  withdraw_amount : Decimal;
  withdraw_memo : option string
}.

Record EscrowDepositRequest := {
  escrow_contract : string;
  usdc_contract : string;
  order_id_bytes32 : string;
  seller : string;
  escrow_amount : Decimal
}.

(** [amount: Decimal = Field(..., gt=0)], on both models. *)
Definition positive (field : string) (d : Decimal) : result unit :=
  if 0 <? coefficient d then Ok tt else Err (RequestValidationError field).

Section WithLib.
Context `{Hash} `{Config} (env : Env).

(** [except ValueError as e: raise HTTPException(status_code=400, detail=str(e))]. *)
Definition http_400 {A} (e : exn) : M A :=
  match e with
  | ValueError m => raise (HTTPException 400 m)
  | _ => raise e
  end.

(** POST /v1/withdraw. *)
Definition withdraw_endpoint (body : WithdrawRequest) (user : User) : M Receipt :=
  lift (positive "amount" (withdraw_amount body)) ;;;
  catch (withdraw env user (withdraw_to body) (float_of_decimal (withdraw_amount body))
                  (withdraw_memo body))
        http_400.

(** POST /v1/escrow-deposit. *)
Definition escrow_deposit_endpoint (body : EscrowDepositRequest) (user : User) : M Receipt :=
  lift (positive "amount" (escrow_amount body)) ;;;
  catch (escrow_deposit env user (escrow_contract body) (usdc_contract body)
                        (order_id_bytes32 body) (seller body)
                        (float_of_decimal (escrow_amount body)))
        http_400.

(** POST /v1/pay/{payment_id}/confirm and /cancel. *)
Definition confirm_payment_endpoint (payment_id : nat) (user : User) : M Receipt :=
  catch (confirm_payment env user payment_id) http_400.

Definition cancel_payment_endpoint (payment_id : nat) (user : User) : M Cancellation :=
  catch (cancel_payment user payment_id) http_400.

End WithLib.
End Routes.

(** ** More of the scripted world *)
Module Cases.
Import Py Store Scenario.

(** Alice has paid forty-five units today. *)
Definition earlier : Transaction :=
  {| tx_id := 0; tx_user_id := 1; tx_kind := TPayment; tx_amount := 45;
     tx_from_address := "0x91E60e0613810449d098b0b5Ec8b51A0FE8c8985"; tx_to_address := bob;
     tx_memo := None; tx_hash := PStr "0xabc"; tx_user_op_hash := Some (PStr "0xuserop");
     tx_status := None; tx_created_at := 999999999 |}.

Definition after_spending : World :=
  {| pending_payments := []; transactions := [earlier]; events := []; users := [alice];
     next_id := 1; calls := []; ticks := 0; rpc_seq := 0;
     last_scanned_block := None |}.

(** The chain reports a balance of one unit. *)
Definition low_balance : Env :=
  {| clock := clock env; balance_of := fun _ => Ok 1%float;
     entrypoint_nonce := entrypoint_nonce env; relay := relay env;
     eth_gas_price := eth_gas_price env; privy_sign := privy_sign env;
     latest_block := latest_block env; transfer_logs := transfer_logs env;
     eth_chain_id := eth_chain_id env; str_of := str_of env |}.

(** A payment of Alice's whose expiry has passed. *)
Definition overdue_payment : PendingPayment :=
  {| pp_id := 0; pp_user_id := 1; pp_to_address := bob; pp_amount := 7;
     pp_memo := None; pp_expires_at := 5; pp_status := Pending |}.

End Cases.

(** ** [auth/rate_limit.py]: the sliding-window limiter *)
Module RateLimit.
Import Py.

(** [float(n)] as arithmetic on a float and an [int] does it: the nearest
    binary64, or OverflowError beyond the largest one. *)
Definition float_of_int (n : Z) : result float :=
  let x := SF2Prim (binary_normalize prec emax n 0 false) in
  if PrimFloat.is_infinity x then Err OverflowError else Ok x.

Record RateLimiter := {
  max_requests : Z;
  window_seconds : Z;
  _requests : gmap string (list float)
}.

(** [RateLimiter(max_requests, window_seconds)]. *)
Definition new_limiter (max_requests window_seconds : Z) : RateLimiter :=
  {| max_requests := max_requests; window_seconds := window_seconds; _requests := ∅ |}.

(** [self._requests[key]] on the defaultdict. *)
Definition requests_of (l : RateLimiter) (key : string) : list float :=
  match _requests l !! key with
  | Some stamps => stamps
  | None => []
  end.

Definition set_requests (key : string) (stamps : list float) (l : RateLimiter)
  : RateLimiter :=
  {| max_requests := max_requests l; window_seconds := window_seconds l;
     _requests := <[key := stamps]> (_requests l) |}.

Definition rate_limited (l : RateLimiter) : exn :=
  HTTPException 429
    [Txt "Rate limit exceeded. Max "; Obj (PInt (max_requests l)); Txt " requests per ";
     Obj (PInt (window_seconds l)); Txt "s."].

Section WithClock.
(** [time.time()], by the number of readings taken so far. *)
Variable time_time : nat -> float.

(** The limiter together with the number of clock readings. *)
Definition L (A : Type) : Type := RateLimiter * nat -> result A * (RateLimiter * nat).

Definition _cleanup (key : string) : L unit :=
  fun st =>
    let l := fst st in
    let now := time_time (snd st) in
    match float_of_int (window_seconds l) with
    | Ok window =>
        let cutoff := (now - window)%float in
        (Ok tt,
         (set_requests key (List.filter (fun t => (cutoff <? t)%float) (requests_of l key)) l,
          S (snd st)))
    | Err e => (Err e, (l, S (snd st)))
    end.

Definition check (key : string) : L unit :=
  fun st =>
    match _cleanup key st with
    | (Ok _, st1) =>
        let l := fst st1 in
        if max_requests l <=? Z.of_nat (length (requests_of l key)) then
          (Err (rate_limited l), st1)
        else
          (Ok tt,
           (set_requests key (requests_of l key ++ [time_time (snd st1)]) l, S (snd st1)))
    | (Err e, st1) => (Err e, st1)
    end.

(** The limiter after the checks of [keys], one after the other, whatever
    each of them answered. *)
Fixpoint serve (keys : list string) (st : RateLimiter * nat) : RateLimiter * nat :=
  match keys with
  | [] => st
  | key :: rest => serve rest (snd (check key st))
  end.

End WithClock.
End RateLimit.

(** ** [services/settings.py]: the user's limits *)
Module Settings.
Import Py Store Payment Api.

Record UpdateSettingsRequest := {
  new_per_transaction_limit : option Decimal;
  new_daily_limit : option Decimal;
  new_require_confirmation_above : option Decimal
}.

(** [Decimal | None = Field(None, gt=0)]. *)
Definition positive_or_none (field : string) (d : option Decimal) : result unit :=
  match d with
  | Some x => if 0 <? coefficient x then Ok tt else Err (RequestValidationError field)
  | None => Ok tt
  end.

Definition validate_update (req : UpdateSettingsRequest) : result UpdateSettingsRequest :=
  let? _ := positive_or_none "per_transaction_limit" (new_per_transaction_limit req) in
  let? _ := positive_or_none "daily_limit" (new_daily_limit req) in
  let? _ := positive_or_none "require_confirmation_above"
                             (new_require_confirmation_above req) in
  Ok req.

(** The three values of a row, as the answer shows them. *)
Record SettingsView := {
  shown_per_transaction_limit : option float;
  shown_daily_limit : option float;
  shown_require_confirmation_above : option float
}.

(** What [update_settings] can end in besides the exceptions of [exn]: the
    row read back is missing. *)
Inductive outcome (A : Type) :=
| Returned (a : A)
| Raised (e : exn)
| IndexError.
Arguments Returned {A} a.
Arguments Raised {A} e.
Arguments IndexError {A}.

(** [.update(updates).eq("id", uid)] on [wallet_users]. *)
Definition updated (req : UpdateSettingsRequest) (uid : nat) (u : User) : User :=
  if (user_id u =? uid)%nat then
    {| user_id := user_id u; wallet_address := wallet_address u;
       smart_account_address := smart_account_address u;
       smart_account_deployed := smart_account_deployed u;
       per_transaction_limit :=
         match new_per_transaction_limit req with
         | Some d => Some (float_of_decimal d)
         | None => per_transaction_limit u
         end;
       daily_limit :=
         match new_daily_limit req with
         | Some d => Some (float_of_decimal d)
         | None => daily_limit u
         end;
       require_confirmation_above :=
         match new_require_confirmation_above req with
         | Some d => Some (float_of_decimal d)
         | None => require_confirmation_above u
         end;
       privy_wallet_id := privy_wallet_id u |}
  else u.

Definition view (u : User) : SettingsView :=
  {| shown_per_transaction_limit := per_transaction_limit u;
     shown_daily_limit := daily_limit u;
     shown_require_confirmation_above := require_confirmation_above u |}.

(** [update_settings(user, req)]; the values are returned as stored, where
    the source renders each with [str]. *)
Definition update_settings (user : User) (req : UpdateSettingsRequest) (w : World)
  : outcome SettingsView * World :=
  match new_per_transaction_limit req, new_daily_limit req,
        new_require_confirmation_above req with
  | None, None, None => (Raised (ValueError [Txt "No settings to update"]), w)
  | _, _, _ =>
      let w1 := set_users (map (updated req (user_id user))) w in
      match List.filter (fun u => (user_id u =? user_id user)%nat) (users w1) with
      | row :: _ => (Returned (view row), w1)
      | [] => (IndexError, w1)
      end
  end.

End Settings.

(** ** [privy/client.py]: the digest handed to the signer *)
Module Privy.
Import Py.

(** [str(n)]. *)
Definition str_of_nat (n : nat) : string :=
  DecimalString.NilZero.string_of_uint (Nat.to_uint n).

Section WithHash.
Context `{Hash}.

(** The first step of [sign_message]: the EIP-191 digest of the message
    bytes, rendered as hex for the [secp256k1_sign] request. *)
Definition eth_signed_hash (message : string) : result string :=
  let? hash_bytes := fromhex (remove_0x message) in
  let prefix :=
    list_byte_of_string (String (ascii_of_nat 25) "Ethereum Signed Message:")
    ++ [x0a] ++ list_byte_of_string (str_of_nat (length hash_bytes)) in
  let eth_signed_hash := keccak (prefix ++ hash_bytes) in
  Ok (String.append "0x" (remove_0x (hexstr eth_signed_hash))).

End WithHash.
End Privy.

(** ** More of the scripted world: a built operation, a limiter *)
Module Fixtures.
Import Py Store Builder Bundler RateLimit Scenario.

(** The operation built for Alice's undeployed account, and the world after
    the nonce read and the chain id request. *)
Definition built : result (gmap string pyval) * World :=
  build_user_operation (H0 := testnet) env "0x91E60e0613810449d098b0b5Ec8b51A0FE8c8985"
                       "0xb61d27f6" false
                       "0x036CbD53842c5426634e7929541eC2318f3dCF7e" 0 start.

Definition fresh_operation : gmap string pyval :=
  match fst built with
  | Ok op => op
  | Err _ => ∅
  end.

(** The same operation after sponsoring. *)
Definition sponsored : result (gmap string pyval) * World :=
  sponsor_user_op (H := testnet) env fresh_operation (snd built).

Definition sponsored_operation : gmap string pyval :=
  match fst sponsored with
  | Ok op => op
  | Err _ => ∅
  end.

(** A clock that stands at one thousand seconds, and a limiter of three
    requests a minute that has admitted two from one address. *)
Definition frozen (n : nat) : float := 1000%float.

Definition busy : RateLimiter :=
  set_requests "203.0.113.7" [990%float; 995%float] (new_limiter 3 60).

(** Alice's smart account and the entry point, spelt in mixed case without
    regard to the checksum, and the reference operation with that sender. *)
Definition unchecked_sender : string := "0x91E60E0613810449D098b0b5ec8b51a0fe8C8985".
Definition unchecked_entry_point : string := "0x0000000071727de22E5E9D8BAF0EDAC6F37DA032".

Definition unchecked_op : gmap string pyval :=
  <["sender" := PStr unchecked_sender]> reference_op.

End Fixtures.

(** ** [services/registration.py], [auth/api_key.py]: register and verify *)
Module Registration.
Import Py Abi Privy.

(** A row of [wallet_users], with the columns [verify] writes. *)
Record Account := {
  acc_email : string;
  acc_api_key_hash : string;
  acc_privy_wallet_id : string;
  acc_wallet_address : string;
  acc_smart_account_address : string
}.

(** A row of [wallet_verification_codes]; a new row is not used. *)
Record VerificationCode := {
  vc_id : nat;
  vc_email : string;
  vc_code : string;
  vc_expires_at : Store.time;
  vc_used : bool
}.

(** What leaves the service: the mail with the code, the request for a new
    signer wallet, the factory's [getAddress] call. *)
Inductive request :=
| SendCode (sender recipient code : string)
| CreateWallet
| GetAddress (owner : string) (salt : Z).

(** The two tables, the requests made, and the number of readings taken
    from the outside: clock, random source and remote services. *)
Record Registry := {
  wallet_users : list Account;
  wallet_verification_codes : list VerificationCode;
  next_code_id : nat;
  requests : list request;
  readings : nat
}.

(** The outside, by the number of readings taken before. *)
Record Outside := {
  utcnow : nat -> Store.time;
  entropy : nat -> N;
  token_hex : nat -> string;
  bcrypt_hashpw : string -> nat -> string;
  resend_send : nat -> result unit;
  privy_create_wallet : nat -> result (string * string);
  factory_get_address : nat -> string -> Z -> result string
}.

Definition R (A : Type) : Type := Registry -> result A * Registry.

Definition unit_ {A} (a : A) : R A := fun r => (Ok a, r).

Definition fail {A} (e : exn) : R A := fun r => (Err e, r).

Definition lift_ {A} (x : result A) : R A := fun r => (x, r).

Definition and_then {A B} (m : R A) (k : A -> R B) : R B :=
  fun r =>
    match m r with
    | (Ok a, r') => k a r'
    | (Err e, r') => (Err e, r')
    end.

Notation "'let!' x ':=' m 'in' k" := (and_then m (fun x => k))
  (at level 10, x name, m at level 100, k at level 200).

(** One more reading: its number. *)
Definition reading : R nat :=
  fun r =>
    (Ok (readings r),
     {| wallet_users := wallet_users r;
        wallet_verification_codes := wallet_verification_codes r;
        next_code_id := next_code_id r; requests := requests r;
        readings := S (readings r) |}).

Definition request_ (q : request) : R unit :=
  fun r =>
    (Ok tt,
     {| wallet_users := wallet_users r;
        wallet_verification_codes := wallet_verification_codes r;
        next_code_id := next_code_id r; requests := requests r ++ [q];
        readings := readings r |}).

Definition set_codes (f : list VerificationCode -> list VerificationCode) (r : Registry)
  : Registry :=
  {| wallet_users := wallet_users r;
     wallet_verification_codes := f (wallet_verification_codes r);
     next_code_id := next_code_id r; requests := requests r; readings := readings r |}.

Definition with_used (c : VerificationCode) : VerificationCode :=
  {| vc_id := vc_id c; vc_email := vc_email c; vc_code := vc_code c;
     vc_expires_at := vc_expires_at c; vc_used := true |}.

(** [.select("id").eq("email", email)] on [wallet_users]. *)
Definition users_with (email : string) (r : Registry) : list Account :=
  List.filter (fun a => String.eqb (acc_email a) email) (wallet_users r).

(** [.eq("email", email).eq("used", False)]. *)
Definition live (email : string) (c : VerificationCode) : bool :=
  String.eqb (vc_email c) email && negb (vc_used c).

(** [.eq("email", email).eq("code", code).eq("used", False)]. *)
Definition matching (email code : string) (c : VerificationCode) : bool :=
  String.eqb (vc_email c) email && String.eqb (vc_code c) code && negb (vc_used c).

(** [.update({"used": True}).eq("email", email).eq("used", False)]. *)
Definition retire (email : string) (c : VerificationCode) : VerificationCode :=
  if live email c then with_used c else c.

(** [.update({"used": True}).eq("id", id)]. *)
Definition use (id : nat) (c : VerificationCode) : VerificationCode :=
  if (vc_id c =? id)%nat then with_used c else c.

Definition insert_code (email code : string) (expires_at : Store.time) : R unit :=
  fun r =>
    (Ok tt,
     {| wallet_users := wallet_users r;
        wallet_verification_codes :=
          wallet_verification_codes r
          ++ [{| vc_id := next_code_id r; vc_email := email; vc_code := code;
                 vc_expires_at := expires_at; vc_used := false |}];
        next_code_id := S (next_code_id r); requests := requests r;
        readings := readings r |}).

Definition insert_user (a : Account) : R unit :=
  fun r =>
    (Ok tt,
     {| wallet_users := wallet_users r ++ [a];
        wallet_verification_codes := wallet_verification_codes r;
        next_code_id := next_code_id r; requests := requests r;
        readings := readings r |}).

(** [f"{n:06d}"] for the [n >= 0] that [randbelow] returns. *)
Definition zero_padded (width : nat) (n : N) : string :=
  let digits := DecimalString.NilZero.string_of_uint (N.to_uint n) in
  String.append (string_of_list_ascii (repeat "0"%char (width - String.length digits)))
                digits.

Definition VERIFY_CODE_TTL_MINUTES : Z := 5.

(** [{"message": "Verification code sent", "email": email}]. *)
Inductive Sent :=
| CodeSent (email : string).

(** [{"api_key": plain_key, "wallet_address": smart_account, "email": email}]. *)
Record Credentials := {
  api_key : string;
  credentials_wallet_address : string;
  credentials_email : string
}.

Section WithLib.
Context `{Hash} `{Config}.
Variable out : Outside.
(** [config.RESEND_API_KEY] and [config.FROM_EMAIL]. *)
Variables RESEND_API_KEY FROM_EMAIL : string.

(** [secrets.randbelow(n)]. *)
Definition randbelow (n : N) : R N :=
  let! k := reading in
  unit_ (entropy out k mod n)%N.

Definition datetime_now : R Store.time :=
  let! k := reading in
  unit_ (utcnow out k).

(** [resend.Emails.send({...})]: the mail carries the code. *)
Definition send_code (email code : string) : R unit :=
  let! _ := request_ (SendCode FROM_EMAIL email code) in
  let! k := reading in
  lift_ (resend_send out k).

(** [privy.client.create_wallet]: the identifier and the address. *)
Definition create_wallet : R (string * string) :=
  let! _ := request_ CreateWallet in
  let! k := reading in
  lift_ (privy_create_wallet out k).

(** [userop.builder.get_smart_account_address(owner, salt=0)]: the factory's
    [getAddress(owner, salt)]. *)
Definition get_smart_account_address (owner : string) (salt : Z) : R string :=
  let! _f := lift_ (to_checksum_address SIMPLE_ACCOUNT_FACTORY) in
  let! o := lift_ (to_checksum_address owner) in
  let! _ := request_ (GetAddress o salt) in
  let! k := reading in
  lift_ (factory_get_address out k o salt).

(** [auth.api_key.generate_api_key]: the plain key and its hash. *)
Definition generate_api_key : R (string * string) :=
  let! k := reading in
  let plain := String.append "pk_live_" (token_hex out k) in
  let! salt := reading in
  unit_ (plain, bcrypt_hashpw out plain salt).

Definition register (email : string) : R Sent :=
  fun r =>
    match users_with email r with
    | _ :: _ =>
        (Err (ValueError [Txt "Email already registered. Use your existing API key."]), r)
    | [] =>
        (let! n := randbelow 1000000 in
         let code := zero_padded 6 n in
         let! t := datetime_now in
         let expires_at := t + Store.minutes VERIFY_CODE_TTL_MINUTES in
         let! _ := (fun r1 => (Ok tt, set_codes (map (retire email)) r1)) in
         let! _ := insert_code email code expires_at in
         let! _ := (if String.eqb RESEND_API_KEY "" then unit_ tt
                    else send_code email code) in
         unit_ (CodeSent email)) r
    end.

Definition verify (email code : string) : R Credentials :=
  fun r =>
    match List.filter (matching email code) (wallet_verification_codes r) with
    | [] => (Err (ValueError [Txt "Invalid or expired verification code"]), r)
    | record :: _ =>
        (let! t := datetime_now in
         if vc_expires_at record <? t then
           fail (ValueError [Txt "Verification code expired"])
         else
           let! _ := (fun r1 => (Ok tt, set_codes (map (use (vc_id record))) r1)) in
           let! existing := (fun r1 => (Ok (users_with email r1), r1)) in
           match existing with
           | _ :: _ => fail (ValueError [Txt "Email already registered"])
           | [] =>
               let! wallet := create_wallet in
               let! smart_account := get_smart_account_address (snd wallet) 0 in
               let! key := generate_api_key in
               let! _ := insert_user
                           {| acc_email := email; acc_api_key_hash := snd key;
                              acc_privy_wallet_id := fst wallet;
                              acc_wallet_address := snd wallet;
                              acc_smart_account_address := smart_account |} in
               unit_ {| api_key := fst key; credentials_wallet_address := smart_account;
                        credentials_email := email |}
           end) r
    end.

End WithLib.
End Registration.

(** ** A scripted registration desk *)
Module Desk.
Import Py Registration.

(** The random source draws 1042 for the code; the signer makes the wallet
    of Alice's owner address and the factory computes her smart account. *)
Definition outside : Outside :=
  {| utcnow := fun n => 1000000000 + Z.of_nat n;
     entropy := fun _ => 1042%N;
     token_hex := fun _ => "000102030405060708090a0b0c0d0e0f";
     bcrypt_hashpw := fun plain _ => String.append "$2b$12$" plain;
     resend_send := fun _ => Ok tt;
     privy_create_wallet :=
       fun _ => Ok ("wallet-1", "0x036cbd53842c5426634e7929541ec2318f3dcf7e");
     factory_get_address :=
       fun _ _ _ => Ok "0x91E60e0613810449d098b0b5Ec8b51A0FE8c8985" |}.

Definition empty : Registry :=
  {| wallet_users := []; wallet_verification_codes := []; next_code_id := 0;
     requests := []; readings := 0 |}.

End Desk.

(** * Properties *)

(** ** The monad *)
Module MonadFacts.
Import Py Store.

Lemma bind_ok {A B} (m : M A) (k : A -> M B) w a w' :
  m w = (Ok a, w') -> bind m k w = k a w'.
Proof. unfold bind. intros ->. reflexivity. Qed.

Lemma bind_err {A B} (m : M A) (k : A -> M B) w e w' :
  m w = (Err e, w') -> bind m k w = (Err e, w').
Proof. unfold bind. intros ->. reflexivity. Qed.

Lemma bind_lift_ok {A B} (r : result A) (k : A -> M B) w a :
  r = Ok a -> bind (lift r) k w = k a w.
Proof. intros ->. reflexivity. Qed.

Lemma bind_lift_err {A B} (r : result A) (k : A -> M B) w e :
  r = Err e -> bind (lift r) k w = (Err e, w).
Proof. intros ->. reflexivity. Qed.

End MonadFacts.

(** ** Limits, the confirmation threshold and the request model *)
Module PaymentFacts.
Import Py Abi Store Usdc Builder Bundler Payment Api MonadFacts.

Section WithLib.
Context `{Hash} `{Config} (env : Env).

(** C5.  A payment above the per-transaction limit raises a ValueError and
    leaves the world exactly as it was: no pending payment, no transaction,
    no event, no outside call.  For an account with a smart account address
    the error is the limit message, which carries the amount and the limit. *)
Theorem pay_over_per_transaction_limit (user : User) (to_address : string)
    (amount : float) (memo : option string) (w : World) :
  (per_tx_of user <? amount)%float = true ->
  exists m,
    pay env user to_address amount memo w = (Err (ValueError m), w)
    /\ (is_ok (_get_sender user) = true ->
        ValueError m = over_per_tx_limit amount (per_tx_of user)
        /\ In (Obj (PFloat (per_tx_of user))) m).
Proof.
  intros Hlim. unfold pay.
  destruct (_get_sender user) as [sender | e] eqn:Hs.
  - rewrite (bind_lift_ok _ _ _ sender eq_refl).
    unfold _check_limits. rewrite Hlim.
    eexists. split; [reflexivity |].
    intros _. split; [reflexivity |]. simpl. auto.
  - unfold _get_sender in Hs.
    destruct (smart_account_address user) as [sa |];
      [destruct (String.eqb sa "") |]; try discriminate;
      injection Hs as <-; eexists; (split; [reflexivity | discriminate]).
Qed.

(** C2.  A payment that passes the limit and balance checks and exceeds the
    confirmation threshold stores one pending row expiring ten minutes after
    the instant read at insertion, records no transaction, and makes no
    outside call but the balance read of the check. *)
Theorem pay_above_threshold_is_pending (user : User) (to_address : string)
    (amount : float) (memo : option string) (w : World)
    (sender usdc account : string) (balance : float) :
  _get_sender user = Ok sender ->
  (per_tx_of user <? amount)%float = false ->
  (daily_of user <?
     today_total (user_id user) (start_of_day (clock env (ticks w))) (transactions w)
     + amount)%float = false ->
  to_checksum_address USDC_CONTRACT_ADDRESS = Ok usdc ->
  to_checksum_address sender = Ok account ->
  balance_of env account = Ok balance ->
  (balance <? amount)%float = false ->
  (threshold_of user <? amount)%float = true ->
  let expires_at := clock env (S (ticks w)) + minutes 10 in
  let row := {| pp_id := next_id w; pp_user_id := user_id user;
                pp_to_address := to_address; pp_amount := amount; pp_memo := memo;
                pp_expires_at := expires_at; pp_status := Pending |} in
  exists w',
    pay env user to_address amount memo w
      = (Ok (PendingConfirmation (next_id w) expires_at), w')
    /\ pending_payments w' = pending_payments w ++ [row]
    /\ transactions w' = transactions w
    /\ calls w' = calls w ++ [GetBalance account]
    /\ events w' = events w ++
         [{| ev_user_id := user_id user; ev_type := "payment_requires_confirmation";
             ev_data := [("payment_id", PInt (Z.of_nat (next_id w)));
                         ("to", PStr to_address); ("amount", PFloat amount);
                         ("memo", opt_str memo)] |}].
Proof.
  intros Hs Hper Hday Husdc Hacc Hbal Henough Hthr expires_at row.
  unfold pay, _check_limits, get_balance, insert_pending_payment, insert_event,
    fresh_id, log, modify, now, gets, bind, lift, ret, raise.
  rewrite Hs, Hper. simpl. rewrite Hday, Husdc, Hacc. simpl.
  rewrite Hbal, Henough, Hthr. simpl.
  eexists. split; [reflexivity |]. simpl. auto.
Qed.

(** C4, as the code has it.  The request model rejects an amount that is not
    positive before the handler runs: the endpoint answers with a validation
    error and the world is untouched, so no limit, balance or chain
    interaction happens and nothing is stored. *)
Theorem pay_endpoint_rejects_non_positive_amount (body : PayRequest) (user : User)
    (w : World) :
  coefficient (amount body) <= 0 ->
  pay_endpoint env body user w = (Err (RequestValidationError "amount"), w).
Proof.
  intros Hle. unfold pay_endpoint, validate_pay_request.
  destruct (0 <? coefficient (amount body)) eqn:Hpos; [lia |].
  reflexivity.
Qed.

End WithLib.
End PaymentFacts.

(** ** The properties above on the scripted world *)
Module PaymentExamples.
Import Py Abi Store Usdc Builder Bundler Payment Api Trace Scenario PaymentFacts.

(** Eleven units against the default limit of ten. *)
Lemma pay_over_per_transaction_limit_witness :
  (per_tx_of alice <? 11)%float = true
  /\ exists m,
       pay (H0 := testnet) env alice bob 11 None start = (Err (ValueError m), start)
       /\ (is_ok (_get_sender alice) = true ->
           ValueError m = over_per_tx_limit 11 (per_tx_of alice)
           /\ In (Obj (PFloat (per_tx_of alice))) m).
Proof.
  split; [reflexivity |].
  apply (pay_over_per_transaction_limit (H0 := testnet) env alice bob 11 None start).
  reflexivity.
Defined.

(** Seven units: within the limits, above the default threshold of five. *)
Lemma pay_above_threshold_is_pending_witness :
  exists w',
    pay (H0 := testnet) env alice bob 7 None start
      = (Ok (PendingConfirmation 0 (1000000001 + minutes 10)), w')
    /\ pending_payments w' =
         [{| pp_id := 0; pp_user_id := 1; pp_to_address := bob; pp_amount := 7;
             pp_memo := None; pp_expires_at := 1000000001 + minutes 10;
             pp_status := Pending |}]
    /\ transactions w' = []
    /\ calls w' = [GetBalance "0x91E60e0613810449d098b0b5Ec8b51A0FE8c8985"]
    /\ events w' =
         [{| ev_user_id := 1; ev_type := "payment_requires_confirmation";
             ev_data := [("payment_id", PInt 0); ("to", PStr bob);
                         ("amount", PFloat 7); ("memo", PNone)] |}].
Proof.
  apply (pay_above_threshold_is_pending (H0 := testnet) env alice bob 7 None start
           "0x91E60e0613810449d098b0b5Ec8b51A0FE8c8985"
           "0x036CbD53842c5426634e7929541eC2318f3dCF7e"
           "0x91E60e0613810449d098b0b5Ec8b51A0FE8c8985" 100);
    vm_compute; reflexivity.
Defined.

(** A request for minus five units. *)
Lemma pay_endpoint_rejects_non_positive_amount_witness :
  pay_endpoint (H0 := testnet) env
    {| to := bob; amount := {| coefficient := -5; exponent := 0 |}; memo := None |}
    alice start
  = (Err (RequestValidationError "amount"), start).
Proof.
  apply (pay_endpoint_rejects_non_positive_amount (H0 := testnet) env).
  simpl. lia.
Defined.

(** C4 as stated fails on [pay] itself: called with amount zero it checks the
    limits and the balance, submits an operation and records a transaction. *)
Lemma pay_accepts_zero_amount :
  (0 <=? 0)%float = true
  /\ exists tx_hash user_op_hash sender w',
       pay (H0 := testnet) env alice bob 0 None start
         = (Ok (Completed tx_hash user_op_hash sender bob 0), w')
       /\ length (transactions w') = 1%nat
       /\ length (submissions (calls w')) = 1%nat.
Proof.
  split; [reflexivity |].
  eexists _, _, _, (snd (pay (H0 := testnet) env alice bob 0 None start)).
  split; [| split]; vm_compute; reflexivity.
Qed.

End PaymentExamples.

(** ** Frames: what the stages of the pipeline leave alone *)
Module FrameFacts.
Import Py Abi Store Usdc Builder Bundler Payment Trace MonadFacts.

#[export] Instance same_store_preorder : PreOrder same_store.
Proof.
  split.
  - intros w. repeat split.
  - intros a b c (H1 & H2 & H3) (H4 & H5 & H6). repeat split; congruence.
Qed.

#[export] Instance no_submission_preorder : PreOrder no_submission.
Proof.
  split.
  - intros w. exists []. split; [symmetry; apply app_nil_r | reflexivity].
  - intros a b c (n1 & E1 & S1) (n2 & E2 & S2). exists (n1 ++ n2). split.
    + rewrite E2, E1. symmetry. apply app_assoc.
    + unfold submissions in *. rewrite flat_map_app, S1, S2. reflexivity.
Qed.

Section Rules.
Context (R : World -> World -> Prop) `{!PreOrder R}.

Lemma keeps_ret {A} (a : A) : keeps R (ret a).
Proof. intros w. simpl. reflexivity. Qed.

Lemma keeps_raise {A} (e : exn) : keeps R (@raise A e).
Proof. intros w. simpl. reflexivity. Qed.

Lemma keeps_lift {A} (r : result A) : keeps R (lift r).
Proof. intros w. simpl. reflexivity. Qed.

Lemma keeps_gets {A} (f : World -> A) : keeps R (gets f).
Proof. intros w. simpl. reflexivity. Qed.

Lemma keeps_bind {A B} (m : M A) (k : A -> M B) :
  keeps R m -> (forall a, keeps R (k a)) -> keeps R (bind m k).
Proof.
  intros Hm Hk w. unfold bind. specialize (Hm w).
  destruct (m w) as [[a | e] w1]; simpl in *; [| exact Hm].
  etransitivity; [exact Hm | apply Hk].
Qed.

Lemma keeps_catch {A} (m : M A) (h : exn -> M A) :
  keeps R m -> (forall e, keeps R (h e)) -> keeps R (catch m h).
Proof.
  intros Hm Hh w. unfold catch. specialize (Hm w).
  destruct (m w) as [[a | e] w1]; simpl in *; [exact Hm |].
  etransitivity; [exact Hm | apply Hh].
Qed.

(** From a run to its frame. *)
Lemma keeps_run {A} (m : M A) w r w' : keeps R m -> m w = (r, w') -> R w w'.
Proof. intros Hm E. specialize (Hm w). rewrite E in Hm. exact Hm. Qed.

End Rules.

(** Splits a goal [keeps R m] along the structure of [m], trying [leaf] on
    every piece first. *)
Ltac keeps_with leaf :=
  repeat first
    [ leaf
    | match goal with
      | |- keeps _ (ret _) => apply keeps_ret; solve [typeclasses eauto]
      | |- keeps _ (raise _) => apply keeps_raise; solve [typeclasses eauto]
      | |- keeps _ (lift _) => apply keeps_lift; solve [typeclasses eauto]
      | |- keeps _ (gets _) => apply keeps_gets; solve [typeclasses eauto]
      | |- keeps _ (bind _ _) => apply keeps_bind; [typeclasses eauto | | intros]
      | |- keeps _ (catch _ _) => apply keeps_catch; [typeclasses eauto | | intros]
      | |- keeps _ (if ?b then _ else _) => destruct b
      | |- keeps _ (match ?x with _ => _ end) => destruct x
      end ].

Ltac store_step := solve [intros w; repeat split].

Section WithLib.
Context `{Hash} `{Config} (env : Env).

(** *** The store *)

Lemma log_same_store c : keeps same_store (log c).
Proof. store_step. Qed.

Lemma now_same_store : keeps same_store (now env).
Proof. store_step. Qed.

Lemma rpc_same_store method params : keeps same_store (_rpc env method params).
Proof.
  unfold _rpc. keeps_with ltac:(first [apply log_same_store | store_step]).
Qed.

Lemma get_nonce_same_store sender : keeps same_store (get_nonce env sender).
Proof. unfold get_nonce. keeps_with ltac:(apply log_same_store). Qed.

Lemma build_transaction_same_store data : keeps same_store (build_transaction env data).
Proof. unfold build_transaction. keeps_with ltac:(apply log_same_store). Qed.

Lemma bind_build_transaction {A} data (k : string -> M A) w :
  bind (build_transaction env data) k w
  = match data with
    | Ok d =>
        match eth_chain_id env with
        | Ok _ => k d (snd (log ChainId w))
        | Err e => (Err e, snd (log ChainId w))
        end
    | Err e => (Err e, w)
    end.
Proof.
  unfold build_transaction, bind, lift, ret. destruct data; [| reflexivity].
  simpl. destruct (eth_chain_id env); reflexivity.
Qed.

(** A builder returns the encoded call, after the node answered. *)
Lemma build_transaction_ok data w d w' :
  build_transaction env data w = (Ok d, w') ->
  data = Ok d /\ is_ok (eth_chain_id env) = true /\ w' = snd (log ChainId w).
Proof.
  unfold build_transaction, bind, lift, ret. destruct data as [d0 | e]; [| discriminate].
  simpl. destruct (eth_chain_id env); [| discriminate].
  intros E. injection E as <- <-. auto.
Qed.

Lemma build_user_operation_same_store sender call_data deployed owner salt :
  keeps same_store (build_user_operation env sender call_data deployed owner salt).
Proof.
  unfold build_user_operation, create_account_calldata.
  keeps_with ltac:(first [apply get_nonce_same_store | apply build_transaction_same_store]).
Qed.

Lemma sponsor_user_op_same_store op : keeps same_store (sponsor_user_op env op).
Proof.
  unfold sponsor_user_op, _get_gas_price.
  keeps_with ltac:(first [apply rpc_same_store | apply log_same_store]).
Qed.

Lemma wait_loop_same_store rounds h timeout interval elapsed :
  keeps same_store (wait_loop env rounds h timeout interval elapsed).
Proof.
  revert elapsed. induction rounds as [| rounds IH]; intros elapsed; simpl.
  - keeps_with fail.
  - unfold poll_once, on_runtime_error.
    keeps_with ltac:(first [apply rpc_same_store | apply log_same_store | apply IH]).
Qed.

Lemma submit_user_op_same_store user call_data :
  keeps same_store (_submit_user_op env user call_data).
Proof.
  unfold _submit_user_op, BundlerClient, sign_message, send_user_op, wait_for_receipt.
  keeps_with ltac:(first
    [ apply build_user_operation_same_store | apply sponsor_user_op_same_store
    | apply rpc_same_store | apply log_same_store | apply wait_loop_same_store
    | store_step ]).
Qed.

End WithLib.
End FrameFacts.

(** ** Waiting for the receipt *)
Module BundlerFacts.
Import Py Abi Store Usdc Builder Bundler Payment Trace MonadFacts FrameFacts.

Lemma bind_inv_ok {A B} (m : M A) (k : A -> M B) w b w' :
  bind m k w = (Ok b, w') ->
  exists a w1, m w = (Ok a, w1) /\ k a w1 = (Ok b, w').
Proof.
  unfold bind. destruct (m w) as [[a | e] w1]; [eauto | discriminate].
Qed.

Lemma bind_inv_err {A B} (m : M A) (k : A -> M B) w e w' :
  bind m k w = (Err e, w') ->
  m w = (Err e, w') \/ exists a w1, m w = (Ok a, w1) /\ k a w1 = (Err e, w').
Proof.
  unfold bind. destruct (m w) as [[a | e0] w1]; intros Hrun.
  - right. exists a, w1. split; [reflexivity | exact Hrun].
  - left. injection Hrun as -> ->. reflexivity.
Qed.

Section WithLib.
Context `{Config} (env : Env).

(** The marker of a failed operation is in the literal part of its message. *)
Lemma failed_error_is_let_through d :
  contains "UserOp failed" (render env [Txt "UserOp failed: "; Obj (reason_of d)]) = true.
Proof. reflexivity. Qed.

Lemma poll_unknown h w :
  unknown_reply env (relay env (S (rpc_seq w)) "eth_getUserOperationReceipt" [PVal h]) ->
  catch (poll_once env h) (on_runtime_error env) w = (Ok None, after_poll h w).
Proof.
  intros [E | (err & E & Hno)];
    unfold catch, poll_once, _rpc, _next_id, log, modify, bind, ret, raise; simpl;
    rewrite E; simpl; [reflexivity |].
  unfold render in Hno. simpl in Hno. unfold render. simpl. rewrite Hno. reflexivity.
Qed.

Lemma poll_failed h w d :
  relay env (S (rpc_seq w)) "eth_getUserOperationReceipt" [PVal h] = RpcResult (PDict d) ->
  truthy (success_of d) = false ->
  exists e,
    catch (poll_once env h) (on_runtime_error env) w = (Err e, after_poll h w)
    /\ (e = failed_error d \/ e = AttributeError)
    /\ (is_ok (transaction_hash d (PStr "")) = true -> e = failed_error d).
Proof.
  intros E Hfail.
  unfold catch, poll_once, _rpc, _next_id, log, modify, bind, ret, raise, lift; simpl.
  rewrite E. simpl. fold (success_of d). rewrite Hfail.
  destruct (transaction_hash d (PStr "")) as [tx | e0] eqn:Etx; simpl.
  - fold (reason_of d). eexists. split; [reflexivity |]. split; [left |]; reflexivity.
  - unfold transaction_hash in Etx.
    destruct (assoc_get "receipt" d) as [[] |]; try discriminate;
      injection Etx as <-; (eexists; split; [reflexivity |]; split; [right; reflexivity | discriminate]).
Qed.

(** While the receipt is not known the loop sleeps and goes round again. *)
Lemma wait_loop_keeps_polling rounds h timeout interval elapsed w :
  (elapsed <? timeout)%float = true ->
  unknown_reply env (relay env (S (rpc_seq w)) "eth_getUserOperationReceipt" [PVal h]) ->
  wait_loop env (S rounds) h timeout interval elapsed w
  = wait_loop env rounds h timeout interval (elapsed + interval)%float
              (after_round h interval w).
Proof.
  intros Hlt Hun. simpl. rewrite Hlt.
  rewrite (bind_ok _ _ _ _ _ (poll_unknown h w Hun)).
  unfold bind at 1. unfold log, modify. simpl.
  unfold after_round, after_poll, poll_call. simpl.
  rewrite <- app_assoc. reflexivity.
Qed.

(** A receipt that reports failure ends the loop at once. *)
Lemma wait_loop_stops_on_failure rounds h timeout interval elapsed w d :
  (elapsed <? timeout)%float = true ->
  relay env (S (rpc_seq w)) "eth_getUserOperationReceipt" [PVal h] = RpcResult (PDict d) ->
  truthy (success_of d) = false ->
  exists e,
    wait_loop env (S rounds) h timeout interval elapsed w = (Err e, after_poll h w)
    /\ (e = failed_error d \/ e = AttributeError)
    /\ (is_ok (transaction_hash d (PStr "")) = true -> e = failed_error d).
Proof.
  intros Hlt E Hfail. simpl. rewrite Hlt.
  destruct (poll_failed h w d E Hfail) as (e & Hrun & He).
  exists e. split; [| exact He].
  apply bind_err. exact Hrun.
Qed.

Lemma wait_loop_times_out rounds h timeout interval elapsed w :
  (elapsed <? timeout)%float = false ->
  wait_loop env rounds h timeout interval elapsed w = (Err (timeout_error h timeout), w).
Proof. intros Hge. destruct rounds; simpl; rewrite Hge; reflexivity. Qed.

(** [n] rounds that learn nothing. *)
Lemma wait_loop_unknown_rounds n : forall rounds h timeout interval elapsed w,
  (forall k, (k < n)%nat ->
     (Nat.iter k (fun e => (e + interval)%float) elapsed <? timeout)%float = true
     /\ unknown_reply env
          (relay env (S (rpc_seq w + k)) "eth_getUserOperationReceipt" [PVal h])) ->
  wait_loop env (n + rounds) h timeout interval elapsed w
  = wait_loop env rounds h timeout interval
              (Nat.iter n (fun e => (e + interval)%float) elapsed)
              (Nat.iter n (after_round h interval) w).
Proof.
  induction n as [| n IH]; intros rounds h timeout interval elapsed w Hall.
  - reflexivity.
  - destruct (Hall 0%nat ltac:(lia)) as [Hlt Hun]. simpl in Hlt.
    rewrite Nat.add_0_r in Hun.
    change (S n + rounds)%nat with (S (n + rounds)).
    rewrite (wait_loop_keeps_polling _ _ _ _ _ _ Hlt Hun).
    rewrite IH.
    + rewrite !Nat.iter_succ_r. reflexivity.
    + intros k Hk. destruct (Hall (S k) ltac:(lia)) as [Hlt' Hun'].
      rewrite Nat.iter_succ_r in Hlt'. split; [exact Hlt' |].
      simpl. rewrite <- Nat.add_succ_r. exact Hun'.
Qed.

(** With the default arguments the guard holds for thirty rounds and fails
    at the thirty-first test. *)
Lemma default_elapsed k :
  (k <= 30)%nat ->
  (elapsed_after default_interval k <? default_timeout)%float = (k <? 30)%nat.
Proof.
  intros Hk. do 31 (destruct k as [| k]; [reflexivity |]). lia.
Qed.

(** What one round can return without raising. *)
Lemma poll_returns h w r w1 :
  catch (poll_once env h) (on_runtime_error env) w = (Ok r, w1) ->
  w1 = after_poll h w
  /\ (r = None
      \/ exists d, r = Some (PDict d)
           /\ relay env (S (rpc_seq w)) "eth_getUserOperationReceipt" [PVal h]
              = RpcResult (PDict d)
           /\ truthy (success_of d) = true).
Proof.
  intros Hrun.
  unfold catch, poll_once, on_runtime_error, _rpc, _next_id, log, modify, bind, lift,
    raise, ret in Hrun.
  simpl in Hrun.
  destruct (relay env (S (rpc_seq w)) "eth_getUserOperationReceipt" [PVal h])
    as [v | err | m] eqn:E; simpl in Hrun.
  - destruct v as [| | | | | d]; simpl in Hrun; try discriminate.
    + injection Hrun as <- <-. split; [reflexivity | left; reflexivity].
    + destruct (transaction_hash d (PStr "")) as [tx | e] eqn:Etx; simpl in Hrun.
      2:{ unfold transaction_hash in Etx.
          destruct (assoc_get "receipt" d) as [[] |]; try discriminate;
            injection Etx as <-; discriminate. }
      fold (success_of d) in Hrun.
      destruct (truthy (success_of d)) eqn:Hs; simpl in Hrun; try discriminate.
      injection Hrun as <- <-. split; [reflexivity |].
      right. exists d. auto.
  - destruct (contains _ _); simpl in Hrun; try discriminate.
    injection Hrun as <- <-. split; [reflexivity | left; reflexivity].
  - discriminate.
Qed.

(** A receipt is only returned when the relay answered a logged poll with a
    receipt whose success flag is true. *)
Lemma wait_loop_ok rounds : forall h timeout interval elapsed w receipt w',
  wait_loop env rounds h timeout interval elapsed w = (Ok receipt, w') ->
  exists d, receipt = PDict d /\ saw_success env w'
            /\ exists new, calls w' = calls w ++ new.
Proof.
  induction rounds as [| rounds IH]; intros h timeout interval elapsed w receipt w' Hrun;
    simpl in Hrun; destruct (elapsed <? timeout)%float; try discriminate.
  apply bind_inv_ok in Hrun as (r & w1 & Hpoll & Hrest).
  apply poll_returns in Hpoll as [-> [-> | (d & -> & E & Hs)]].
  - apply bind_inv_ok in Hrest as ([] & w2 & Hlog & Hloop).
    unfold log, modify in Hlog. injection Hlog as <-.
    apply IH in Hloop as (d & -> & Hsaw & new & Hnew).
    exists d. split; [reflexivity |]. split; [exact Hsaw |].
    simpl in Hnew. rewrite Hnew, <- !app_assoc. eauto.
  - injection Hrest as <- <-. exists d. split; [reflexivity |]. split.
    + exists (S (rpc_seq w)), h, d. simpl. split; [| split; assumption].
      apply in_or_app. right. left. reflexivity.
    + simpl. eauto.
Qed.

Lemma poll_never_unfinished h w :
  fst (catch (poll_once env h) (on_runtime_error env) w) <> Err Unfinished.
Proof.
  unfold catch, poll_once, on_runtime_error, _rpc, _next_id, log, modify, lift,
    raise, ret, bind. simpl.
  destruct (relay env (S (rpc_seq w)) "eth_getUserOperationReceipt" [PVal h])
    as [v | err | m]; simpl.
  - destruct v as [| | | | | d]; simpl; try discriminate.
    unfold transaction_hash.
    destruct (assoc_get "receipt" d) as [[] |]; simpl; try discriminate;
      destruct (truthy _); simpl; discriminate.
  - destruct (contains _ _); simpl; discriminate.
  - discriminate.
Qed.

(** With the default arguments the unrolling bound is never reached. *)
Lemma default_wait_finishes h : forall n k w,
  (k + n = 30)%nat ->
  fst (wait_loop env n h default_timeout default_interval
                 (elapsed_after default_interval k) w) <> Err Unfinished.
Proof.
  induction n as [| n IH]; intros k w Hk.
  - rewrite wait_loop_times_out; [discriminate |].
    rewrite default_elapsed by lia. apply Nat.ltb_ge. lia.
  - simpl. destruct (_ <? _)%float; [| discriminate].
    unfold bind at 1.
    pose proof (poll_never_unfinished h w) as Hpoll.
    destruct (catch (poll_once env h) (on_runtime_error env) w) as [[[r |] | e] w1];
      simpl in *.
    + discriminate.
    + unfold bind, log, modify. simpl.
      apply (IH (S k)). lia.
    + intros E. apply Hpoll. injection E as ->. reflexivity.
Qed.

End WithLib.
End BundlerFacts.

(** ** Settlement: a transaction is recorded only after success *)
Module SettlementFacts.
Import Py Abi Store Usdc Builder Bundler Payment Trace MonadFacts FrameFacts BundlerFacts.

Ltac step_ok H :=
  let a := fresh "a" in
  let w := fresh "w" in
  let Hs := fresh "Hstep" in
  apply bind_inv_ok in H as (a & w & Hs & H).

Lemma lift_run {A} (r r' : result A) w w' : lift r w = (r', w') -> r' = r /\ w' = w.
Proof. unfold lift. intros E. injection E as <- <-. auto. Qed.

Lemma saw_success_calls env w w' :
  calls w' = calls w -> saw_success env w -> saw_success env w'.
Proof. intros E (id & h & d & Hin & Hr & Hs). exists id, h, d. rewrite E. auto. Qed.

Section WithLib.
Context `{Hash} `{Config} (env : Env).

Lemma submit_user_op_ok user call_data w r w' :
  _submit_user_op env user call_data w = (Ok r, w') ->
  same_store w w' /\ saw_success env w'.
Proof.
  intros Hrun. split.
  - exact (keeps_run same_store _ _ _ _ (submit_user_op_same_store env user call_data) Hrun).
  - unfold _submit_user_op in Hrun.
    do 7 step_ok Hrun.
    apply bind_inv_ok in Hrun as (receipt & w8 & Hwait & Hrun).
    unfold wait_for_receipt in Hwait.
    apply wait_loop_ok in Hwait as (d & -> & Hsaw & _).
    apply bind_inv_ok in Hrun as (tx_hash & w9 & Hhash & Hrun).
    apply lift_run in Hhash as [_ ->].
    apply bind_inv_ok in Hrun as ([] & w10 & Hdep & Hrun).
    injection Hrun as _ <-.
    eapply saw_success_calls; [| exact Hsaw].
    destruct (smart_account_deployed user); unfold ret, modify in Hdep;
      injection Hdep as <-; reflexivity.
Qed.

(** The two inserts that follow a settlement never raise. *)
Lemma record_payment_run uid kind amount from to memo hash uoh ev_type data (res : Receipt) w :
  exists row,
    (insert_transaction env uid kind amount from to memo hash uoh None ;;;
     insert_event uid ev_type data ;;;
     ret res) w
    = (Ok res,
       set_events (fun es => es ++ [{| ev_user_id := uid; ev_type := ev_type; ev_data := data |}])
         (set_transactions (fun txs => txs ++ [row]) (snd (now env (snd (fresh_id w))))))
    /\ tx_kind row = kind /\ tx_amount row = amount /\ tx_hash row = hash.
Proof. eexists. split; [reflexivity |]. simpl. auto. Qed.

(** Recording follows the receipt.  [_execute_payment] leaves the transactions as they
    were whenever it raises, and when it returns it has added exactly one
    row, after the relay reported a receipt whose success flag is true. *)
Lemma execute_payment_records_after_success user to_address amount memo w r w' :
  _execute_payment env user to_address amount memo w = (r, w') ->
  pending_payments w' = pending_payments w
  /\ match r with
     | Err _ => transactions w' = transactions w
     | Ok _ =>
         saw_success env w'
         /\ exists row, transactions w' = transactions w ++ [row]
                        /\ tx_kind row = TPayment /\ tx_amount row = amount
     end.
Proof.
  intros Hrun. unfold _execute_payment in Hrun.
  destruct (_get_sender user) as [sender | e] eqn:Hsender;
    [ rewrite (bind_lift_ok _ _ _ _ eq_refl) in Hrun
    | rewrite (bind_lift_err _ _ _ _ eq_refl) in Hrun;
      injection Hrun as <- <-; split; reflexivity ].
  unfold bind at 1 in Hrun.
  destruct (build_transfer_calldata env to_address amount w) as [[inner | e] w1] eqn:Hb1;
    pose proof (keeps_run same_store _ _ _ _
                  (build_transaction_same_store env _) Hb1) as (Hp1 & Ht1 & He1);
    [| injection Hrun as <- <-; auto].
  unfold bind at 1 in Hrun.
  destruct (build_execute_calldata env USDC_CONTRACT_ADDRESS 0 inner w1)
    as [[call_data | e] w2] eqn:Hb2;
    pose proof (keeps_run same_store _ _ _ _
                  (build_transaction_same_store env _) Hb2) as (Hp2 & Ht2 & He2);
    [| injection Hrun as <- <-; split; congruence].
  unfold bind at 1 in Hrun.
  destruct (_submit_user_op env user call_data w2) as [[[uoh txh] | e] w3] eqn:Hsub.
  - apply submit_user_op_ok in Hsub as [(Hp & Ht & He) Hsaw].
    destruct (record_payment_run (user_id user) TPayment amount sender to_address memo txh
                (Some uoh) "payment_sent"
                [("to", PStr to_address); ("amount", PFloat amount); ("tx_hash", txh);
                 ("user_op_hash", uoh); ("memo", opt_str memo)]
                (Completed txh uoh sender to_address amount) w3)
      as (row & Hrec & Hk & Ha & _).
    simpl fst in Hrun. simpl snd in Hrun. rewrite Hrec in Hrun.
    injection Hrun as <- <-. simpl. split; [congruence |]. split.
    + eapply saw_success_calls; [| exact Hsaw]. reflexivity.
    + exists row. rewrite Ht, Ht2, Ht1. auto.
  - injection Hrun as <- <-.
    pose proof (keeps_run same_store _ _ _ _
                  (submit_user_op_same_store env user call_data) Hsub) as (Hp & Ht & _).
    split; congruence.
Qed.

End WithLib.
End SettlementFacts.

(** ** The wait for the receipt, and what it means for the record *)
Module ReceiptFacts.
Import Py Abi Store Usdc Builder Bundler Payment Trace MonadFacts FrameFacts
       BundlerFacts SettlementFacts.

Section WithLib.
Context `{Hash} `{Config} (env : Env).

(** The default wait against a relay that never knows the receipt: thirty
    polls two seconds apart, then the timeout error. *)
Lemma default_wait_times_out h w :
  (forall k, (k < 30)%nat ->
     unknown_reply env
       (relay env (S (rpc_seq w + k)) "eth_getUserOperationReceipt" [PVal h])) ->
  wait_for_receipt env default_rounds h default_timeout default_interval w
  = (Err (timeout_error h default_timeout),
     Nat.iter 30 (after_round h default_interval) w).
Proof.
  intros Hun. unfold wait_for_receipt.
  change default_rounds with (30 + 0)%nat.
  rewrite wait_loop_unknown_rounds.
  - apply wait_loop_times_out. apply (default_elapsed 30). lia.
  - intros k Hk. split; [| apply Hun; exact Hk].
    change (Nat.iter k _ 0%float) with (elapsed_after default_interval k).
    rewrite default_elapsed by lia. apply Nat.ltb_lt. exact Hk.
Qed.

(** C6.  The wait tells the two outcomes apart.  While the relay does not
    know the receipt the loop sleeps for the interval and polls again; a
    receipt whose success flag is false ends it at that poll with an error
    that is not the timeout error (the failure RuntimeError when the
    receipt is an object of the expected shape); once the elapsed time
    reaches the timeout it raises the timeout error, after exactly thirty
    polls with the default arguments, for which the loop always ends within
    the thirty rounds it is unrolled.  In the settlement pipeline every
    error leaves the transactions as they were, and a row is added only
    after a receipt with a true success flag. *)
Theorem wait_for_receipt_outcomes :
  (forall rounds h timeout interval elapsed w,
     (elapsed <? timeout)%float = true ->
     unknown_reply env (relay env (S (rpc_seq w)) "eth_getUserOperationReceipt" [PVal h]) ->
     wait_loop env (S rounds) h timeout interval elapsed w
     = wait_loop env rounds h timeout interval (elapsed + interval)%float
                 (after_round h interval w))
  /\ (forall rounds h timeout interval elapsed w d,
        (elapsed <? timeout)%float = true ->
        relay env (S (rpc_seq w)) "eth_getUserOperationReceipt" [PVal h]
          = RpcResult (PDict d) ->
        truthy (success_of d) = false ->
        exists e,
          wait_loop env (S rounds) h timeout interval elapsed w = (Err e, after_poll h w)
          /\ (forall m, e <> TimeoutError m)
          /\ (is_ok (transaction_hash d (PStr "")) = true -> e = failed_error d))
  /\ (forall rounds h timeout interval elapsed w,
        (elapsed <? timeout)%float = false ->
        wait_loop env rounds h timeout interval elapsed w
        = (Err (timeout_error h timeout), w))
  /\ (forall h w,
        (forall k, (k < 30)%nat ->
           unknown_reply env
             (relay env (S (rpc_seq w + k)) "eth_getUserOperationReceipt" [PVal h])) ->
        wait_for_receipt env default_rounds h default_timeout default_interval w
        = (Err (timeout_error h default_timeout),
           Nat.iter 30 (after_round h default_interval) w))
  /\ (forall h w,
        fst (wait_for_receipt env default_rounds h default_timeout default_interval w)
        <> Err Unfinished)
  /\ (forall user to_address amount memo w r w',
        _execute_payment env user to_address amount memo w = (r, w') ->
        match r with
        | Err _ => transactions w' = transactions w
        | Ok _ =>
            saw_success env w'
            /\ exists row, transactions w' = transactions w ++ [row]
        end).
Proof.
  split; [| split; [| split; [| split; [| split]]]].
  - intros. apply wait_loop_keeps_polling; assumption.
  - intros rounds h timeout interval elapsed w d Hlt E Hfail.
    destruct (wait_loop_stops_on_failure env rounds h timeout interval elapsed w d Hlt E Hfail)
      as (e & Hrun & Hshape & Hwf).
    exists e. split; [exact Hrun |]. split; [| exact Hwf].
    intros m. destruct Hshape as [-> | ->]; discriminate.
  - intros. apply wait_loop_times_out. assumption.
  - intros. apply default_wait_times_out. assumption.
  - intros h w. unfold wait_for_receipt.
    apply (default_wait_finishes env h default_rounds 0%nat w). reflexivity.
  - intros user to_address amount memo w r w' Hrun.
    apply execute_payment_records_after_success in Hrun as [_ Hr].
    destruct r; [| exact Hr].
    destruct Hr as (Hsaw & row & Hrow & _). eauto.
Qed.

End WithLib.
End ReceiptFacts.

(** ** Confirming a pending payment *)
Module ConfirmFacts.
Import Py Abi Store Usdc Builder Bundler Payment Trace MonadFacts FrameFacts
       BundlerFacts SettlementFacts.

Lemma selected_none user payment_id w :
  (forall p, In p (pending_payments w) ->
     pp_id p = payment_id -> pp_user_id p = user_id user -> pp_status p <> Pending) ->
  selected user payment_id w = [].
Proof.
  unfold selected. intros Hnone.
  induction (pending_payments w) as [| p ps IH]; [reflexivity |].
  rewrite filter_cons. destruct (decide (pending_row payment_id (user_id user) p = true)) as [Hp | Hp].
  - exfalso. unfold pending_row in Hp.
    apply andb_true_iff in Hp as [Hp Hst]. apply andb_true_iff in Hp as [Hid Hu].
    apply Nat.eqb_eq in Hid. apply Nat.eqb_eq in Hu.
    apply (Hnone p (or_introl eq_refl) Hid Hu).
    destruct (pp_status p); try discriminate. reflexivity.
  - apply IH. intros q Hq. apply Hnone. right. exact Hq.
Qed.

Lemma marked_rows payment_id s ps :
  Forall (fun q => pp_id q = payment_id -> pp_status q = s)
         (map (mark_status payment_id s) ps).
Proof.
  apply Forall_forall. intros q Hq.
  apply list_elem_of_In, in_map_iff in Hq as (p & <- & _).
  unfold mark_status. destruct (pp_id p =? payment_id)%nat eqn:E; simpl.
  - reflexivity.
  - intros Hid. apply Nat.eqb_neq in E. contradiction.
Qed.

Section WithLib.
Context `{Hash} `{Config} (env : Env).

Lemma confirm_not_found user payment_id w :
  selected user payment_id w = [] ->
  confirm_payment env user payment_id w = (Err not_found, w).
Proof.
  unfold selected, confirm_payment, bind, gets. intros ->. reflexivity.
Qed.

Lemma confirm_expired user payment_id w p rest :
  selected user payment_id w = p :: rest ->
  (pp_expires_at p <? clock env (ticks w)) = true ->
  confirm_payment env user payment_id w
  = (Err expired,
     set_pending (map (mark_status payment_id Expired)) (snd (now env w))).
Proof.
  unfold selected, confirm_payment, bind, gets. intros -> Hexp.
  simpl. rewrite Hexp. reflexivity.
Qed.

Lemma confirm_settles user payment_id w p rest :
  selected user payment_id w = p :: rest ->
  (pp_expires_at p <? clock env (ticks w)) = false ->
  confirm_payment env user payment_id w
  = match _execute_payment env user (pp_to_address p) (pp_amount p) (pp_memo p)
                           (snd (now env w)) with
    | (Ok res, w1) => (Ok res, set_pending (map (mark_status payment_id Confirmed)) w1)
    | (Err e, w1) => (Err e, w1)
    end.
Proof.
  unfold selected, confirm_payment, gets, bind, now. intros Hsel Hfresh.
  rewrite Hsel. simpl. rewrite Hfresh.
  destruct (_execute_payment env user (pp_to_address p) (pp_amount p) (pp_memo p) _)
    as [[res | e] w1]; reflexivity.
Qed.

(** C3.  Confirmation needs a row of this user with this identifier in
    status pending.  Without one it fails and the world is untouched, so
    nothing is settled again.  With one whose expiry has passed it fails,
    writes status expired on the payment and touches nothing else.  With one
    that has not expired it runs the settlement on the stored destination,
    amount and memo, and sets status confirmed exactly when that returns. *)
Theorem confirm_payment_cases (user : User) (payment_id : nat) (w : World) :
  ((forall p, In p (pending_payments w) ->
      pp_id p = payment_id -> pp_user_id p = user_id user -> pp_status p <> Pending) ->
   confirm_payment env user payment_id w = (Err not_found, w))
  /\ (forall p rest,
        selected user payment_id w = p :: rest ->
        (pp_expires_at p <? clock env (ticks w)) = true ->
        exists w',
          confirm_payment env user payment_id w = (Err expired, w')
          /\ pending_payments w' = map (mark_status payment_id Expired) (pending_payments w)
          /\ Forall (fun q => pp_id q = payment_id -> pp_status q = Expired)
                    (pending_payments w')
          /\ transactions w' = transactions w
          /\ events w' = events w
          /\ calls w' = calls w)
  /\ (forall p rest,
        selected user payment_id w = p :: rest ->
        (pp_expires_at p <? clock env (ticks w)) = false ->
        forall r w1,
          _execute_payment env user (pp_to_address p) (pp_amount p) (pp_memo p)
                           (snd (now env w)) = (r, w1) ->
          match r with
          | Ok res =>
              confirm_payment env user payment_id w
              = (Ok res, set_pending (map (mark_status payment_id Confirmed)) w1)
              /\ Forall (fun q => pp_id q = payment_id -> pp_status q = Confirmed)
                        (map (mark_status payment_id Confirmed) (pending_payments w1))
          | Err e =>
              confirm_payment env user payment_id w = (Err e, w1)
              /\ pending_payments w1 = pending_payments w
          end).
Proof.
  split; [| split].
  - intros Hnone. apply confirm_not_found. apply selected_none. exact Hnone.
  - intros p rest Hsel Hexp. eexists. split; [exact (confirm_expired _ _ _ _ _ Hsel Hexp) |].
    simpl. repeat split. apply marked_rows.
  - intros p rest Hsel Hfresh r w1 Hrun.
    rewrite (confirm_settles _ _ _ _ _ Hsel Hfresh), Hrun.
    destruct r as [res | e].
    + split; [reflexivity | apply marked_rows].
    + split; [reflexivity |].
      apply execute_payment_records_after_success in Hrun as [Hp _]. exact Hp.
Qed.

(** C9.  When the settlement raises during a confirmation, the confirmation
    raises the same error and the pending payments are as before, status
    included; no transaction was recorded, and the same payment is selected
    again by a later confirmation. *)
Theorem confirm_failure_leaves_payment_pending (user : User) (payment_id : nat)
    (w : World) (p : PendingPayment) (rest : list PendingPayment) (e : exn) (w1 : World) :
  selected user payment_id w = p :: rest ->
  (pp_expires_at p <? clock env (ticks w)) = false ->
  _execute_payment env user (pp_to_address p) (pp_amount p) (pp_memo p)
                   (snd (now env w)) = (Err e, w1) ->
  confirm_payment env user payment_id w = (Err e, w1)
  /\ pending_payments w1 = pending_payments w
  /\ transactions w1 = transactions w
  /\ selected user payment_id w1 = p :: rest
  /\ pp_status p = Pending.
Proof.
  intros Hsel Hfresh Hrun.
  rewrite (confirm_settles _ _ _ _ _ Hsel Hfresh), Hrun.
  apply execute_payment_records_after_success in Hrun as [Hp Ht].
  simpl in Hp, Ht.
  split; [reflexivity |]. split; [exact Hp |]. split; [exact Ht |]. split.
  - unfold selected in *. rewrite Hp. exact Hsel.
  - assert (p ∈ selected user payment_id w) as Hin by (rewrite Hsel; left).
    unfold selected in Hin. apply list_elem_of_filter in Hin as [Hrow _].
    unfold pending_row in Hrow. apply andb_true_iff in Hrow as [_ Hst].
    destruct (pp_status p); try discriminate. reflexivity.
Qed.

End WithLib.
End ConfirmFacts.

(** ** Confirmation and settlement on the scripted world *)
Module ConfirmExamples.
Import Py Abi Store Usdc Builder Bundler Payment Trace Scenario ConfirmFacts.

(** The relay is down while Alice confirms her waiting payment. *)
Lemma confirm_failure_leaves_payment_pending_witness :
  confirm_payment (H0 := testnet) (with_relay relay_down) alice 0 (with_payment waiting)
  = (Err (RuntimeError [Txt "Bundler RPC error: "; Obj (PStr "service unavailable")]),
     snd (_execute_payment (H0 := testnet) (with_relay relay_down) alice bob 7 None
            (snd (now (with_relay relay_down) (with_payment waiting)))))
  /\ pending_payments
       (snd (_execute_payment (H0 := testnet) (with_relay relay_down) alice bob 7 None
               (snd (now (with_relay relay_down) (with_payment waiting)))))
     = pending_payments (with_payment waiting)
  /\ transactions
       (snd (_execute_payment (H0 := testnet) (with_relay relay_down) alice bob 7 None
               (snd (now (with_relay relay_down) (with_payment waiting)))))
     = transactions (with_payment waiting)
  /\ selected alice 0
       (snd (_execute_payment (H0 := testnet) (with_relay relay_down) alice bob 7 None
               (snd (now (with_relay relay_down) (with_payment waiting)))))
     = [waiting]
  /\ pp_status waiting = Pending.
Proof.
  apply (confirm_failure_leaves_payment_pending (H0 := testnet) (with_relay relay_down)
           alice 0 (with_payment waiting) waiting []);
    vm_compute; reflexivity.
Defined.

(** A second confirmation of a confirmed payment finds nothing to settle. *)
Example confirm_twice :
  let first := confirm_payment (H0 := testnet) env alice 0 (with_payment waiting) in
  is_ok (fst first) = true
  /\ map pp_status (pending_payments (snd first)) = [Confirmed]
  /\ length (transactions (snd first)) = 1%nat
  /\ confirm_payment (H0 := testnet) env alice 0 (snd first) = (Err not_found, snd first).
Proof.
  cbv zeta. split; [| split; [| split]]; vm_compute; reflexivity.
Qed.

(** Confirming after the expiry flips the payment to expired. *)
Example confirm_late :
  let late := {| pp_id := 0; pp_user_id := 1; pp_to_address := bob; pp_amount := 7;
                 pp_memo := None; pp_expires_at := 5; pp_status := Pending |} in
  let run := confirm_payment (H0 := testnet) env alice 0 (with_payment late) in
  fst run = Err expired
  /\ map pp_status (pending_payments (snd run)) = [Expired]
  /\ transactions (snd run) = [] /\ calls (snd run) = [].
Proof.
  cbv zeta. split; [| split; [| split]]; vm_compute; reflexivity.
Qed.

(** The operation reverts on chain: the failure surfaces at the first poll,
    without a sleep, and no transaction is recorded. *)
Example pay_reverted :
  let run := pay (H0 := testnet) (with_relay relay_reverting) alice bob 3 None start in
  fst run = Err (RuntimeError [Txt "UserOp failed: "; Obj (PStr "AA23 reverted")])
  /\ transactions (snd run) = []
  /\ sleeps (calls (snd run)) = 0%nat.
Proof.
  cbv zeta. split; [| split]; vm_compute; reflexivity.
Qed.

(** The relay never learns the receipt: thirty sleeps, then the timeout
    error, and no transaction is recorded. *)
Example pay_timed_out :
  let run := pay (H0 := testnet) (with_relay relay_silent) alice bob 3 None start in
  fst run = Err (timeout_error (PStr "0xuserop") 60)
  /\ transactions (snd run) = []
  /\ sleeps (calls (snd run)) = 30%nat.
Proof.
  cbv zeta. split; [| split]; vm_compute; reflexivity.
Qed.

End ConfirmExamples.

(** ** The operation hash *)
Module HashFacts.
Import Py Abi Builder Wire.

Lemma bindR_ok {A B} (r : result A) (k : A -> result B) b :
  bindR r k = Ok b -> exists a, r = Ok a /\ k a = Ok b.
Proof. destruct r as [a | e]; simpl; [eauto | discriminate]. Qed.

Lemma be_bytes_length len n : length (be_bytes len n) = len.
Proof.
  revert n. induction len as [| len IH]; intros n; simpl; [reflexivity |].
  rewrite length_app, IH. simpl. lia.
Qed.

Lemma to_bytes_half n :
  OperationSpec.fits 128 n = true -> to_bytes 16 n = Ok (OperationSpec.half n).
Proof.
  unfold OperationSpec.fits, to_bytes. intros Hfit.
  change (256 ^ Z.of_nat 16) with (2 ^ 128). rewrite Hfit. reflexivity.
Qed.

Lemma pad_right_full b : length b = 32%nat -> pad_right b = b.
Proof.
  intros Hlen. unfold pad_right. rewrite Hlen. simpl. apply app_nil_r.
Qed.

Lemma layout_static items off :
  forallb (fun it => negb (fst it)) items = true ->
  layout items off = (concat (map snd items), []).
Proof.
  revert off. induction items as [| [dyn e] items IH]; intros off Hst; simpl in *.
  - reflexivity.
  - apply andb_true_iff in Hst as [Hd Hrest]. destruct dyn; [discriminate |].
    rewrite (IH off Hrest). reflexivity.
Qed.

Lemma forallb_over_map {A B} (f : B -> bool) (g : A -> B) l :
  forallb f (map g l) = forallb (fun a => f (g a)) l.
Proof. induction l as [| a l IH]; simpl; [reflexivity | rewrite IH; reflexivity]. Qed.

Lemma encode_static args :
  forallb valid args = true ->
  forallb (fun v => negb (is_dynamic v)) args = true ->
  encode args = Ok (concat (map enc args)).
Proof.
  intros Hvalid Hst. unfold encode, tuple, enc_seq. rewrite Hvalid.
  rewrite layout_static.
  - rewrite app_nil_r, map_map. reflexivity.
  - rewrite forallb_over_map. exact Hst.
Qed.

Lemma hex_is_not_space c v : hexval c = Some v -> is_space c = false.
Proof.
  destruct c as [[] [] [] [] [] [] [] []]; vm_compute; congruence.
Qed.

Lemma fromhex_length n : forall s bs,
  (String.length s <= n)%nat -> all_hex s = true -> fromhex s = Ok bs ->
  String.length s = (2 * length bs)%nat.
Proof.
  induction n as [n IH] using (well_founded_induction lt_wf).
  intros s bs Hn Hhex Hrun.
  destruct s as [| c [| d rest]]; simpl in Hrun.
  - injection Hrun as <-. reflexivity.
  - unfold all_hex in Hhex. simpl in Hhex.
    destruct (hexval c) as [hi |] eqn:Hc; [| discriminate].
    rewrite (hex_is_not_space _ _ Hc) in Hrun. discriminate.
  - unfold all_hex in Hhex. simpl in Hhex.
    destruct (hexval c) as [hi |] eqn:Hc; [| discriminate].
    destruct (hexval d) as [lo |] eqn:Hd; [| discriminate].
    rewrite (hex_is_not_space _ _ Hc) in Hrun.
    apply bindR_ok in Hrun as (bs' & Hrest & Hbs). injection Hbs as <-.
    simpl in Hn. simpl.
    rewrite (IH (String.length rest) ltac:(lia) rest bs' (Nat.le_refl _) Hhex Hrest). lia.
Qed.

Section WithHash.
Context `{Hash}.

Lemma address_bytes_length s a : address_bytes s = Ok a -> length a = 20%nat.
Proof.
  unfold address_bytes. intros Hrun.
  destruct ((String.length (strip_0x s) =? 40)%nat && all_hex (strip_0x s)) eqn:Hok;
    [| discriminate].
  apply andb_true_iff in Hok as [Hlen Hhex]. apply Nat.eqb_eq in Hlen.
  pose proof (fromhex_length _ _ _ (Nat.le_refl _) Hhex Hrun). lia.
Qed.

Lemma read_address_arg s a :
  read_address s = Ok a -> address_arg s = Ok (Address a) /\ length a = 20%nat.
Proof.
  unfold read_address, address_arg. destruct (is_address s); [| discriminate].
  intros Hrun. rewrite Hrun. split; [reflexivity | exact (address_bytes_length _ _ Hrun)].
Qed.

Lemma truthy_item (op : gmap string pyval) k :
  truthy (get_or op k PNone) = true -> item op k = Ok (get_or op k PNone).
Proof.
  unfold get_or, item. destruct (op !! k); [reflexivity | discriminate].
Qed.

Lemma init_code_read op f :
  read_factory op = Ok f ->
  init_code op = Ok (match f with Some (a, d) => a ++ d | None => [] end).
Proof.
  unfold read_factory, init_code.
  destruct (truthy (get_or op "factory" PNone)) eqn:Ht; simpl.
  - destruct (negb (is_str zero_address (get_or op "factory" PNone))).
    + rewrite (truthy_item _ _ Ht). simpl.
      destruct (_hex_to_bytes (get_or op "factory" PNone)); simpl; [| discriminate].
      destruct (_hex_to_bytes (get_or op "factoryData" PNone)); simpl; [| discriminate].
      intros E. injection E as <-. reflexivity.
    + intros E. injection E as <-. reflexivity.
  - intros E. injection E as <-. reflexivity.
Qed.

Lemma paymaster_and_data_read op p :
  read_paymaster op = Ok p ->
  match p with
  | Some pm =>
      OperationSpec.fits 128 (OperationSpec.pm_verification_gas_limit pm) = true ->
      OperationSpec.fits 128 (OperationSpec.pm_post_op_gas_limit pm) = true ->
      Builder.paymaster_and_data op
      = Ok (OperationSpec.pm_address pm
            ++ OperationSpec.half (OperationSpec.pm_verification_gas_limit pm)
            ++ OperationSpec.half (OperationSpec.pm_post_op_gas_limit pm)
            ++ OperationSpec.pm_data pm)
  | None => Builder.paymaster_and_data op = Ok []
  end.
Proof.
  unfold read_paymaster, Builder.paymaster_and_data.
  destruct (truthy (get_or op "paymaster" PNone)) eqn:Ht.
  - rewrite (truthy_item _ _ Ht). simpl.
    destruct (_hex_to_bytes (get_or op "paymaster" PNone)); simpl; [| discriminate].
    destruct (_hex_to_int (get_or op "paymasterVerificationGasLimit" (PStr "0x0")));
      simpl; [| discriminate].
    destruct (_hex_to_int (get_or op "paymasterPostOpGasLimit" (PStr "0x0")));
      simpl; [| discriminate].
    destruct (_hex_to_bytes (get_or op "paymasterData" PNone)); simpl; [| discriminate].
    intros E. injection E as <-. simpl. intros Hv Hp.
    rewrite (to_bytes_half _ Hv). simpl. rewrite (to_bytes_half _ Hp). reflexivity.
  - intros E. injection E as <-. reflexivity.
Qed.

(** C1.  For a dict that reads as a well-formed operation, and a valid entry
    point and chain identifier, [compute_user_op_hash] returns the digest of
    the specification's algorithm: the init payload, the call payload and
    paymasterAndData hashed on their own, the gas limits and the fees packed
    as 16-byte halves, the eight-field tuple encoded and hashed, and that hash
    encoded with the entry point and the chain identifier and hashed again.
    The digest has 32 bytes.  Being a function of its three arguments, the
    code returns this same value on every call. *)
Theorem compute_user_op_hash_follows_spec (op : gmap string pyval) (entrypoint : string)
    (chain_id : Z) (o : OperationSpec.Operation) (entry_point : list byte) :
  of_dict op = Ok o ->
  OperationSpec.well_formed o = true ->
  read_address entrypoint = Ok entry_point ->
  OperationSpec.fits 256 chain_id = true ->
  compute_user_op_hash op entrypoint chain_id
  = Ok (OperationSpec.operation_hash o entry_point chain_id)
  /\ length (OperationSpec.operation_hash o entry_point chain_id) = 32%nat.
Proof.
  intros Hread Hwf Hep Hchain.
  split; [| apply keccak_length].
  unfold of_dict in Hread.
  apply bindR_ok in Hread as (s & Hs & Hread).
  apply bindR_ok in Hread as (n_obj & Hno & Hread).
  apply bindR_ok in Hread as (n & Hn & Hread).
  apply bindR_ok in Hread as ([] & Hnint & Hread).
  apply bindR_ok in Hread as (f & Hf & Hread).
  apply bindR_ok in Hread as (cd_obj & Hcdo & Hread).
  apply bindR_ok in Hread as (cd & Hcd & Hread).
  apply bindR_ok in Hread as (vgl & Hvgl & Hread).
  apply bindR_ok in Hread as (cgl & Hcgl & Hread).
  apply bindR_ok in Hread as (pvg & Hpvg & Hread).
  apply bindR_ok in Hread as ([] & Hgint & Hread).
  apply bindR_ok in Hread as (mpf & Hmpf & Hread).
  apply bindR_ok in Hread as (mf & Hmf & Hread).
  apply bindR_ok in Hread as (pm & Hpm & Hread).
  injection Hread as <-.
  unfold OperationSpec.well_formed in Hwf. simpl in Hwf.
  repeat (apply andb_true_iff in Hwf as [Hwf ?]).
  apply Nat.eqb_eq in Hwf.
  (* the sender *)
  unfold read_sender in Hs.
  apply bindR_ok in Hs as (sender_obj & Hso & Hs).
  destruct sender_obj as [| | | | sender_str |]; try discriminate.
  destruct (is_address sender_str) eqn:Haddr; [| discriminate].
  destruct (fromhex (remove_0x sender_str)) as [sender_raw |] eqn:Hraw; [| discriminate].
  simpl in Hs.
  unfold compute_user_op_hash.
  rewrite Hso. simpl. rewrite Hraw. simpl. rewrite Hno. simpl. rewrite Hn. simpl.
  rewrite (init_code_read _ _ Hf). simpl. rewrite Hcdo. simpl. rewrite Hcd. simpl.
  rewrite Hvgl. simpl. rewrite Hcgl. simpl.
  rewrite (to_bytes_half vgl), (to_bytes_half cgl) by assumption. simpl.
  rewrite Hpvg. simpl. rewrite Hmpf. simpl. rewrite Hmf. simpl.
  rewrite (to_bytes_half mpf), (to_bytes_half mf) by assumption. simpl.
  pose proof (paymaster_and_data_read _ _ Hpm) as Hpmd.
  assert (Builder.paymaster_and_data op
          = Ok (OperationSpec.paymaster_payload
                  {| OperationSpec.sender := s; OperationSpec.nonce := n;
                     OperationSpec.factory := f; OperationSpec.callData := cd;
                     OperationSpec.verificationGasLimit := vgl;
                     OperationSpec.callGasLimit := cgl;
                     OperationSpec.preVerificationGas := pvg;
                     OperationSpec.maxPriorityFeePerGas := mpf;
                     OperationSpec.maxFeePerGas := mf;
                     OperationSpec.paymaster := pm;
                     OperationSpec.signature := op !! "signature" |})) as ->.
  { unfold OperationSpec.paymaster_payload. simpl.
    destruct pm as [p |]; [| exact Hpmd].
    match goal with Hp : _ && _ = true |- _ => apply andb_true_iff in Hp as [? ?] end.
    apply Hpmd; assumption. }
  simpl.
  assert (address_arg sender_str = Ok (Address s)) as ->
    by (unfold address_arg; rewrite Haddr, Hs; reflexivity).
  simpl. rewrite Hnint. simpl. rewrite Hgint. simpl.
  destruct (read_address_arg _ _ Hep) as [Hearg Helen].
  rewrite encode_static; [| | reflexivity].
  2:{ cbn [forallb valid]. rewrite Hwf. simpl.
      rewrite ?keccak_length, ?length_app, ?be_bytes_length. simpl.
      unfold OperationSpec.fits in *.
      repeat match goal with Hx : _ = true |- _ => rewrite Hx end. reflexivity. }
  simpl. rewrite Hearg. simpl.
  rewrite encode_static; [| | reflexivity].
  2:{ cbn [forallb valid]. rewrite Helen, keccak_length. simpl.
      unfold OperationSpec.fits in Hchain. rewrite Hchain. reflexivity. }
  f_equal.
  unfold OperationSpec.operation_hash, OperationSpec.inner_hash.
  cbn [map concat enc].
  rewrite !pad_right_full;
    try (rewrite ?keccak_length, ?length_app, ?be_bytes_length; reflexivity).
  rewrite !app_nil_r. reflexivity.
Qed.

Lemma item_insert_ne (op : gmap string pyval) k k' v :
  k <> k' -> item (<[k := v]> op) k' = item op k'.
Proof. intros Hne. unfold item. rewrite lookup_insert_ne by exact Hne. reflexivity. Qed.

Lemma get_or_insert_ne (op : gmap string pyval) k k' v d :
  k <> k' -> get_or (<[k := v]> op) k' d = get_or op k' d.
Proof. intros Hne. unfold get_or. rewrite lookup_insert_ne by exact Hne. reflexivity. Qed.

(** C10.  The hash never reads the signature: writing any object into the
    signature field leaves the result, digest or error, as it was. *)
Theorem hash_ignores_signature (op : gmap string pyval) (entrypoint : string)
    (chain_id : Z) (s : pyval) :
  compute_user_op_hash (<["signature" := s]> op) entrypoint chain_id
  = compute_user_op_hash op entrypoint chain_id.
Proof.
  unfold compute_user_op_hash, init_code, Builder.paymaster_and_data.
  rewrite !item_insert_ne, !get_or_insert_ne by discriminate.
  reflexivity.
Qed.

End WithHash.
End HashFacts.

(** ** Deposit ingestion *)
Module ScannerFacts.
Import Py Abi Store Usdc Scanner Trace MonadFacts FrameFacts.

Lemma has_tx_hash_rows h txs :
  has_tx_hash h txs = true <-> rows_with_hash h txs <> [].
Proof.
  unfold has_tx_hash, rows_with_hash.
  induction txs as [| tx txs IH]; simpl.
  - split; [discriminate | intros Hne; exfalso; apply Hne; reflexivity].
  - rewrite filter_cons. destruct (decide (is_str h (tx_hash tx) = true)) as [E | E].
    + rewrite E. simpl. split; [discriminate | reflexivity].
    + apply not_true_is_false in E. rewrite E. simpl. exact IH.
Qed.

Lemma rows_with_hash_snoc h txs row :
  rows_with_hash h (txs ++ [row])
  = rows_with_hash h txs ++ (if is_str h (tx_hash row) then [row] else []).
Proof.
  unfold rows_with_hash. rewrite filter_app. f_equal.
  rewrite filter_cons, filter_nil.
  destruct (decide (is_str h (tx_hash row) = true)) as [E | E].
  - rewrite E. reflexivity.
  - apply not_true_is_false in E. rewrite E. reflexivity.
Qed.

#[export] Instance idempotent_step_preorder : PreOrder idempotent_step.
Proof.
  split.
  - intros w. split; auto.
  - intros a b c [Hab1 Hab2] [Hbc1 Hbc2]. split.
    + intros h Hh. rewrite <- (Hab1 h Hh). apply Hbc1.
      apply has_tx_hash_rows. rewrite (Hab1 h Hh). apply has_tx_hash_rows. exact Hh.
    + intros h Hh. apply Hbc2, Hab2, Hh.
Qed.

(** Appending a row under an identifier that has none yet. *)
Lemma idempotent_append w w' row h0 :
  transactions w' = transactions w ++ [row] ->
  tx_hash row = PStr h0 ->
  has_tx_hash h0 (transactions w) = false ->
  idempotent_step w w'.
Proof.
  intros Htx Hrow Hnew. split; intros h Hh; rewrite Htx, rows_with_hash_snoc, Hrow; simpl.
  - destruct (String.eqb h0 h) eqn:E; [| apply app_nil_r].
    apply String.eqb_eq in E. subst h0. congruence.
  - destruct (String.eqb h0 h) eqn:E.
    + apply String.eqb_eq in E. subst h0.
      destruct (rows_with_hash h (transactions w)) eqn:Hrows; [simpl; lia |].
      assert (has_tx_hash h (transactions w) = true) as Hhas
        by (apply has_tx_hash_rows; rewrite Hrows; discriminate).
      congruence.
    + rewrite app_nil_r. exact Hh.
Qed.

Lemma idempotent_same w w' :
  transactions w' = transactions w -> idempotent_step w w'.
Proof. intros E. split; intros h Hh; rewrite E; auto. Qed.

Section WithLib.
Context `{Hash} `{Config} (env : Env).

Lemma ingest_skips_known user_map evt w :
  has_tx_hash (te_tx_hash evt) (transactions w) = true ->
  ingest env user_map evt w = (Ok tt, w).
Proof.
  intros Hhas. unfold ingest. destruct (user_map !! lower (te_to evt)); [| reflexivity].
  unfold bind, gets. rewrite Hhas. reflexivity.
Qed.

Lemma ingest_idempotent user_map evt : keeps idempotent_step (ingest env user_map evt).
Proof.
  intros w. unfold ingest. destruct (user_map !! lower (te_to evt)) as [uid |];
    [| reflexivity].
  unfold bind at 1. unfold gets.
  destruct (has_tx_hash (te_tx_hash evt) (transactions w)) eqn:Hhas; [reflexivity |].
  eapply idempotent_append; [| | exact Hhas]; reflexivity.
Qed.

Lemma ingest_all_idempotent user_map evts :
  keeps idempotent_step (ingest_all env user_map evts).
Proof.
  induction evts as [| evt evts IH]; simpl.
  - apply keeps_ret. typeclasses eauto.
  - apply keeps_bind; [typeclasses eauto | apply ingest_idempotent | intros; exact IH].
Qed.

Lemma scan_deposits_idempotent : keeps idempotent_step (scan_deposits env).
Proof.
  unfold scan_deposits, get_latest_block, get_transfer_events, _get_user_addresses.
  keeps_with ltac:(first
    [ apply ingest_all_idempotent
    | solve [intros w; apply idempotent_same; reflexivity] ]).
Qed.

(** The loop never raises. *)
Lemma ingest_all_returns user_map evts w : fst (ingest_all env user_map evts w) = Ok tt.
Proof.
  revert w. induction evts as [| evt evts IH]; intros w; simpl; [reflexivity |].
  unfold bind. unfold ingest at 1.
  destruct (user_map !! lower (te_to evt)); [| apply IH].
  unfold bind, gets.
  destruct (has_tx_hash (te_tx_hash evt) (transactions w)); apply IH.
Qed.

Lemma has_tx_hash_kept h w w' :
  idempotent_step w w' -> has_tx_hash h (transactions w) = true ->
  has_tx_hash h (transactions w') = true.
Proof.
  intros [Hsame _] Hhas. apply has_tx_hash_rows. rewrite (Hsame h Hhas).
  apply has_tx_hash_rows. exact Hhas.
Qed.

(** An event for a known account is on record once the loop has passed it. *)
Lemma ingest_all_records user_map evts evt uid w :
  In evt evts -> user_map !! lower (te_to evt) = Some uid ->
  has_tx_hash (te_tx_hash evt) (transactions (snd (ingest_all env user_map evts w))) = true.
Proof.
  revert w. induction evts as [| e evts IH]; intros w Hin Hknown; [destruct Hin |].
  simpl. unfold bind.
  destruct (ingest env user_map e w) as [[[] | err] w1] eqn:Hstep.
  - destruct Hin as [-> | Hin]; [| apply IH; assumption].
    eapply has_tx_hash_kept.
    + apply (ingest_all_idempotent user_map evts w1).
    + unfold ingest in Hstep. rewrite Hknown in Hstep. unfold bind, gets in Hstep.
      destruct (has_tx_hash (te_tx_hash evt) (transactions w)) eqn:Hhas.
      * injection Hstep as <-. exact Hhas.
      * injection Hstep as <-. simpl. unfold has_tx_hash.
        rewrite existsb_app. simpl. rewrite String.eqb_refl. apply orb_true_r.
  - exfalso. unfold ingest in Hstep.
    destruct (user_map !! lower (te_to e)); [| discriminate].
    unfold bind, gets in Hstep.
    destruct (has_tx_hash (te_tx_hash e) (transactions w)); discriminate.
Qed.

End WithLib.

Section Window.
Context `{Hash} `{Config}.

Lemma scan_deposits_records env w evt :
  in_window env w evt ->
  has_tx_hash (te_tx_hash evt) (transactions (snd (scan_deposits env w))) = true.
Proof.
  intros (latest & last & evts & uid & Hlatest & Hlast & Hlt & Husdc & Hlogs & Hin & Hknown).
  unfold scan_deposits, catch, get_latest_block, get_transfer_events, _get_user_addresses,
    bind, log, modify, lift, gets.
  simpl. rewrite Hlatest, Hlast.
  destruct (latest <=? last) eqn:Hle; [apply Z.leb_le in Hle; lia |].
  destruct (to_checksum_address USDC_CONTRACT_ADDRESS) as [usdc |]; [| discriminate].
  simpl. rewrite Hlogs.
  match goal with
  | |- context [ingest_all env ?um evts ?w0] =>
      pose proof (ingest_all_records env um evts evt uid w0 Hin Hknown) as Hrec;
      pose proof (ingest_all_returns env um evts w0) as Hret;
      destruct (ingest_all env um evts w0) as [[[] | err] w1]
  end; simpl in *; [exact Hrec | discriminate].
Qed.

(** C7.  Ingestion is idempotent on the chain transaction identifier.  An
    event whose identifier already has a row is skipped: the loop step
    changes nothing.  Over a whole tick the rows of an identifier that has
    one stay as they are, and an identifier with at most one row keeps at
    most one, also over a second tick.  An identifier without a row whose
    transfer to a known account is in the first tick's window has exactly
    one row after that tick and still exactly one after the next, whatever
    the second window holds. *)
Theorem deposit_ingestion_is_idempotent (env1 env2 : Env) (w : World) (h : string) :
  let w1 := snd (scan_deposits env1 w) in
  let w2 := snd (scan_deposits env2 w1) in
  (forall user_map evt w0,
     has_tx_hash (te_tx_hash evt) (transactions w0) = true ->
     ingest env1 user_map evt w0 = (Ok tt, w0))
  /\ (has_tx_hash h (transactions w) = true ->
      rows_with_hash h (transactions w1) = rows_with_hash h (transactions w))
  /\ ((length (rows_with_hash h (transactions w)) <= 1)%nat ->
      (length (rows_with_hash h (transactions w1)) <= 1)%nat
      /\ (length (rows_with_hash h (transactions w2)) <= 1)%nat)
  /\ (forall evt,
        te_tx_hash evt = h ->
        rows_with_hash h (transactions w) = [] ->
        in_window env1 w evt ->
        length (rows_with_hash h (transactions w1)) = 1%nat
        /\ length (rows_with_hash h (transactions w2)) = 1%nat).
Proof.
  intros w1 w2.
  pose proof (scan_deposits_idempotent env1 w) as [Hsame1 Hmost1].
  pose proof (scan_deposits_idempotent env2 w1) as [Hsame2 Hmost2].
  fold w1 in Hsame1, Hmost1. fold w2 in Hsame2, Hmost2.
  split; [| split; [| split]].
  - intros. apply ingest_skips_known. assumption.
  - apply Hsame1.
  - intros Hle. split; [apply Hmost1, Hle | apply Hmost2, Hmost1, Hle].
  - intros evt <- Hnone Hwin.
    pose proof (scan_deposits_records env1 w evt Hwin) as Hhas. fold w1 in Hhas.
    assert (length (rows_with_hash (te_tx_hash evt) (transactions w1)) = 1%nat) as Hone.
    { assert (length (rows_with_hash (te_tx_hash evt) (transactions w1)) <= 1)%nat
        by (apply Hmost1; rewrite Hnone; simpl; lia).
      apply has_tx_hash_rows in Hhas.
      destruct (rows_with_hash (te_tx_hash evt) (transactions w1)); [congruence |].
      simpl in *. lia. }
    split; [exact Hone |]. rewrite (Hsame2 _ Hhas). exact Hone.
Qed.

End Window.
End ScannerFacts.

(** ** The hash and the scanner on the scripted world *)
Module HashExamples.
Import Py Abi Store Builder Scanner Wire Trace Scenario HashFacts ScannerFacts.

Lemma compute_user_op_hash_follows_spec_witness :
  compute_user_op_hash reference_op (@ENTRYPOINT_ADDRESS testnet) 84532
  = Ok (OperationSpec.operation_hash reference_operation
          (unhex "0000000071727De22E5E9d8BAf0edAc6f37da032") 84532)
  /\ length (OperationSpec.operation_hash reference_operation
               (unhex "0000000071727De22E5E9d8BAf0edAc6f37da032") 84532) = 32%nat.
Proof.
  apply (compute_user_op_hash_follows_spec reference_op (@ENTRYPOINT_ADDRESS testnet)
           84532 reference_operation (unhex "0000000071727De22E5E9d8BAf0edAc6f37da032"));
    vm_compute; reflexivity.
Defined.

(** Signing the reference operation does not move its hash. *)
Example reference_hash_after_signing :
  compute_user_op_hash (<["signature" := PStr "0xffff"]> reference_op)
                       (@ENTRYPOINT_ADDRESS testnet) 84532
  = compute_user_op_hash reference_op (@ENTRYPOINT_ADDRESS testnet) 84532
  /\ is_ok (compute_user_op_hash reference_op (@ENTRYPOINT_ADDRESS testnet) 84532) = true.
Proof.
  split; vm_compute; reflexivity.
Qed.

(** A gas limit of 2^128 does not fit its half: the hash raises. *)
Example oversized_gas_limit :
  compute_user_op_hash
    (<["callGasLimit" := PStr "0x100000000000000000000000000000000"]> reference_op)
    (@ENTRYPOINT_ADDRESS testnet) 84532
  = Err OverflowError.
Proof. vm_compute. reflexivity. Qed.

(** Two ticks whose windows both hold the same transfer record it once. *)
Example deposit_seen_twice :
  let w1 := snd (scan_deposits (H0 := testnet) (chain_at 100) scanning) in
  let w2 := snd (scan_deposits (H0 := testnet) (chain_at 101) w1) in
  map tx_hash (transactions w1) = [PStr "0xfeed"]
  /\ transactions w2 = transactions w1
  /\ length (events w2) = 1%nat
  /\ last_scanned_block w2 = Some 101.
Proof.
  cbv zeta. split; [| split; [| split]]; vm_compute; reflexivity.
Qed.

Example deposit_in_window :
  in_window (H0 := testnet) (chain_at 100) scanning deposit.
Proof.
  exists 100, 90, [deposit], 1%nat.
  repeat split; try reflexivity; try lia. left. reflexivity.
Qed.

End HashExamples.

(** ** The escrow deposit is one batch *)
Module EscrowFacts.
Import Py Abi Store Usdc Builder Bundler Payment Trace MonadFacts FrameFacts
       BundlerFacts HashFacts.


Lemma byte_digits b c1 c2 :
  digit_of (byte_z b / 16) c1 -> digit_of (byte_z b mod 16) c2 ->
  is_space c1 = false
  /\ hexval c1 = Some (byte_z b / 16)
  /\ hexval c2 = Some (byte_z b mod 16)
  /\ z_byte (16 * (byte_z b / 16) + byte_z b mod 16) = b
  /\ Ascii.eqb c1 "x" = false /\ Ascii.eqb c2 "x" = false.
Proof.
  intros [-> | ->] [-> | ->]; destruct b; vm_compute; repeat split.
Qed.

Lemma spells_fromhex bs s : spells bs s -> fromhex s = Ok bs.
Proof.
  induction 1 as [| b bs c1 c2 s H1 H2 _ IH]; [reflexivity |].
  destruct (byte_digits b c1 c2 H1 H2) as (Hsp & Hv1 & Hv2 & Hb & _).
  simpl. rewrite Hsp, Hv1, Hv2, IH. simpl. rewrite Hb. reflexivity.
Qed.

Lemma spells_length bs s : spells bs s -> String.length s = (2 * length bs)%nat.
Proof. induction 1; simpl; lia. Qed.

Lemma spells_all_hex bs s : spells bs s -> all_hex s = true.
Proof.
  unfold all_hex. induction 1 as [| b bs c1 c2 s H1 H2 _ IH]; [reflexivity |].
  destruct (byte_digits b c1 c2 H1 H2) as (_ & Hv1 & Hv2 & _).
  simpl. rewrite Hv1, Hv2. exact IH.
Qed.

Lemma spells_hexdigits bs : spells bs (hexdigits bs).
Proof.
  induction bs as [| b bs IH]; simpl; constructor; try exact IH; left; reflexivity.
Qed.

(** Digits hold no "0x": [replace] leaves them alone. *)
Lemma remove_0x_hexdigits bs : remove_0x (hexdigits bs) = hexdigits bs.
Proof.
  induction bs as [| b bs IH]; [reflexivity |].
  destruct (byte_digits b _ _ (or_introl eq_refl) (or_introl eq_refl))
    as (_ & _ & _ & _ & _ & Hx2).
  cbn [hexdigits remove_0x]. rewrite Hx2, andb_false_r.
  f_equal.
  destruct bs as [| b' bs']; [reflexivity |].
  destruct (byte_digits b' _ _ (or_introl eq_refl) (or_introl eq_refl))
    as (_ & _ & _ & _ & Hx1 & _).
  cbn [hexdigits remove_0x] in *. rewrite Hx1, andb_false_r.
  f_equal. exact IH.
Qed.

(** What web3 renders as hex reads back as the same bytes. *)
Lemma data_bytes_hexstr bs : data_bytes (Some (hexstr bs)) = Ok bs.
Proof.
  unfold data_bytes, hexstr. cbn [String.eqb].
  cbn [remove_0x]. destruct (hexdigits bs) as [| c rest] eqn:E.
  - destruct bs; [reflexivity | discriminate].
  - cbn [Ascii.eqb andb]. simpl (Ascii.eqb "0" "0" && Ascii.eqb "x" "x").
    cbv iota. rewrite <- E, remove_0x_hexdigits.
    apply spells_fromhex, spells_hexdigits.
Qed.

Lemma checksum_case_spells bs : forall hs,
  spells bs (string_of_list_ascii
               (checksum_case (list_ascii_of_string (hexdigits bs)) hs)).
Proof.
  induction bs as [| b bs IH]; intros hs; [destruct hs; constructor |].
  cbn [hexdigits list_ascii_of_string].
  destruct hs as [| h1 [| h2 hs]]; cbn [checksum_case string_of_list_ascii].
  - rewrite string_of_list_ascii_of_string. constructor;
      [left; reflexivity | left; reflexivity | apply spells_hexdigits].
  - rewrite string_of_list_ascii_of_string. constructor;
      [| left; reflexivity | apply spells_hexdigits].
    destruct (hexval h1) as [v |]; [destruct (8 <=? v) |]; [right | left | left]; reflexivity.
  - constructor; [| | apply IH].
    + destruct (hexval h1) as [v |]; [destruct (8 <=? v) |]; [right | left | left]; reflexivity.
    + destruct (hexval h2) as [v |]; [destruct (8 <=? v) |]; [right | left | left]; reflexivity.
Qed.

Section WithHash.
Context `{Hash}.

(** The checksummed rendering of an address reads back as its bytes. *)
Lemma address_bytes_checksum a :
  length a = 20%nat -> address_bytes (checksum_encode a) = Ok a.
Proof.
  intros Hlen. unfold address_bytes, checksum_encode.
  set (body := string_of_list_ascii _).
  assert (spells a body) as Hsp by apply checksum_case_spells.
  change (strip_0x (String "0" (String "x" body))) with body.
  rewrite (spells_length _ _ Hsp), Hlen, (spells_all_hex _ _ Hsp). simpl.
  apply spells_fromhex. exact Hsp.
Qed.

Lemma to_checksum_address_bytes s c :
  to_checksum_address s = Ok c ->
  exists a, address_bytes s = Ok a /\ address_bytes c = Ok a /\ length a = 20%nat.
Proof.
  unfold to_checksum_address. intros Hrun.
  apply bindR_ok in Hrun as (a & Ha & Hc). injection Hc as <-.
  pose proof (address_bytes_length _ _ Ha) as Hlen.
  exists a. split; [exact Ha |]. split; [apply address_bytes_checksum, Hlen | exact Hlen].
Qed.

End WithHash.

Section Layout.
Context `{Hash} `{Config}.

Lemma encode_call_ok signature args data :
  encode_call signature args = Ok data ->
  data = hexstr (selector signature ++ tuple args).
Proof.
  unfold encode_call, encode.
  destruct (forallb strict args); [| discriminate].
  destruct (forallb valid args); simpl; [| discriminate].
  intros E. injection E as <-. reflexivity.
Qed.

Lemma checksummed_bytes s k (r : string) :
  (let? c := to_checksum_address s in let? a := address_bytes c in k a) = Ok r ->
  exists a, address_bytes s = Ok a /\ k a = Ok r.
Proof.
  intros Hrun. apply bindR_ok in Hrun as (c & Hc & Hrun).
  apply to_checksum_address_bytes in Hc as (a & Ha & Hca & _).
  rewrite Hca in Hrun. simpl in Hrun. eauto.
Qed.

Lemma approve_calldata_layout spender units data :
  encode_approve spender units = Ok data ->
  exists a, address_bytes spender = Ok a
            /\ data = hexstr (selector "approve(address,uint256)"
                              ++ tuple [Address a; Uint256 units]).
Proof.
  unfold encode_approve. intros Hrun.
  apply bindR_ok in Hrun as (_usdc & _ & Hrun).
  apply checksummed_bytes in Hrun as (a & Ha & Hrun).
  exists a. split; [exact Ha | apply encode_call_ok, Hrun].
Qed.

Lemma deposit_calldata_layout order seller units data :
  encode_deposit order seller units = Ok data ->
  exists order_b seller_b,
    fromhex (remove_0x order) = Ok order_b
    /\ address_bytes seller = Ok seller_b
    /\ data = hexstr (selector "deposit(bytes32,address,uint256)"
                      ++ tuple [Bytes32 order_b; Address seller_b; Uint256 units]).
Proof.
  unfold encode_deposit. intros Hrun.
  apply bindR_ok in Hrun as (order_b & Ho & Hrun).
  apply checksummed_bytes in Hrun as (a & Ha & Hrun).
  exists order_b, a. split; [exact Ho |]. split; [exact Ha | apply encode_call_ok, Hrun].
Qed.

Lemma call_dest_bytes c v :
  call_dest c = Ok v -> exists a, address_bytes (call_to c) = Ok a /\ v = Address a.
Proof.
  unfold call_dest. intros Hrun.
  apply bindR_ok in Hrun as (s & Hs & Hrun).
  apply to_checksum_address_bytes in Hs as (a & Ha & Hca & _).
  rewrite Hca in Hrun. simpl in Hrun. injection Hrun as <-. eauto.
Qed.

Lemma batch_of_two_layout to1 to2 d1 d2 data :
  encode_execute_batch
    [{| call_to := to1; call_value := Some 0; call_data := Some (hexstr d1) |};
     {| call_to := to2; call_value := Some 0; call_data := Some (hexstr d2) |}] = Ok data ->
  exists a1 a2,
    address_bytes to1 = Ok a1 /\ address_bytes to2 = Ok a2
    /\ data = hexstr (selector "executeBatch(address[],uint256[],bytes[])"
                      ++ tuple [Array [Address a1; Address a2];
                                Array [Uint256 0; Uint256 0];
                                Array [Bytes d1; Bytes d2]]).
Proof.
  unfold encode_execute_batch. intros Hrun.
  apply bindR_ok in Hrun as (dests & Hd & Hrun).
  apply bindR_ok in Hrun as (funcs & Hf & Hrun).
  cbn [mapR] in Hd.
  apply bindR_ok in Hd as (v1 & Hv1 & Hd). apply bindR_ok in Hd as (vs & Hvs & Hd).
  apply bindR_ok in Hvs as (v2 & Hv2 & Hvs). injection Hvs as <-. injection Hd as <-.
  apply call_dest_bytes in Hv1 as (a1 & Ha1 & ->).
  apply call_dest_bytes in Hv2 as (a2 & Ha2 & ->).
  cbn [mapR] in Hf. unfold call_func in Hf. cbn [call_data] in Hf.
  rewrite !data_bytes_hexstr in Hf.
  simpl in Hf. injection Hf as <-.
  exists a1, a2. split; [exact Ha1 |]. split; [exact Ha2 |].
  apply encode_call_ok in Hrun. exact Hrun.
Qed.

(** The batch [escrow_deposit] builds is the approve-then-deposit calldata. *)
Lemma escrow_batch_layout escrow usdc order seller amount units approve deposit data :
  raw_units amount = Ok units ->
  encode_approve escrow units = Ok approve ->
  encode_deposit order seller units = Ok deposit ->
  encode_execute_batch
    [{| call_to := usdc; call_value := Some 0; call_data := Some approve |};
     {| call_to := escrow; call_value := Some 0; call_data := Some deposit |}] = Ok data ->
  is_escrow_batch escrow usdc order seller amount data.
Proof.
  intros Hu Ha Hd Hb.
  apply approve_calldata_layout in Ha as (eb & Heb & ->).
  apply deposit_calldata_layout in Hd as (ob & sb & Hob & Hsb & ->).
  apply batch_of_two_layout in Hb as (a1 & a2 & Ha1 & Ha2 & ->).
  rewrite Heb in Ha2. injection Ha2 as <-.
  exists units, a1, eb, sb, ob. repeat split; assumption.
Qed.

End Layout.

Lemma submissions_app a b : submissions (a ++ b) = submissions a ++ submissions b.
Proof. unfold submissions. apply flat_map_app. Qed.

Lemma traced_weaken {A} (m : M A) (P Q : result A -> list (list param) -> Prop) :
  traced m P -> (forall r subs, P r subs -> Q r subs) -> traced m Q.
Proof. intros Hm HPQ w. destruct (Hm w) as (new & E & HP). eauto. Qed.

(** A quiet step, then a traced continuation. *)
Lemma traced_after_quiet {A B} (m : M A) (k : A -> M B) P :
  keeps no_submission m ->
  (forall w a w1, m w = (Ok a, w1) -> traced (k a) P) ->
  (forall e, P (Err e) []) ->
  traced (bind m k) P.
Proof.
  intros Hm Hk Herr w. unfold bind.
  destruct (Hm w) as (n1 & E1 & S1).
  destruct (m w) as [[a | e] w1] eqn:Hrun; simpl in E1.
  - destruct (Hk w a w1 Hrun w1) as (n2 & E2 & HP).
    exists (n1 ++ n2). rewrite E2, E1, submissions_app, S1, app_assoc. auto.
  - exists n1. simpl. rewrite S1. auto.
Qed.

(** A traced step, then a quiet continuation. *)
Lemma traced_then_quiet `{Config} {A B} (m : M A) (k : A -> M B) Q :
  traced m (one_submission Q) ->
  (forall a, keeps no_submission (k a)) ->
  traced (bind m k) (one_submission Q).
Proof.
  intros Hm Hk w. unfold bind.
  destruct (Hm w) as (n1 & E1 & HP).
  destruct (m w) as [[a | e] w1] eqn:Hrun; simpl in E1, HP.
  - destruct (Hk a w1) as (n2 & E2 & S2).
    exists (n1 ++ n2). rewrite E2, E1, submissions_app, S2, app_nil_r, app_assoc.
    split; [reflexivity |].
    destruct HP as [[_ Hbad] | Hone]; [discriminate | right; exact Hone].
  - exists n1. split; [exact E1 |].
    destruct HP as [[Hnone _] | Hone]; [left; auto | right; exact Hone].
Qed.

Ltac quiet_same := solve [intros w; exists []; split; [symmetry; apply app_nil_r | reflexivity]].

Lemma log_quiet c : submissions [c] = [] -> keeps no_submission (log c).
Proof. intros Hc w. exists [c]. split; [reflexivity | exact Hc]. Qed.

Section WithLib.
Context `{Hash} `{Config} (env : Env).

Lemma rpc_quiet method params :
  String.eqb method "eth_sendUserOperation" = false ->
  keeps no_submission (_rpc env method params).
Proof.
  intros Hm. unfold _rpc, _next_id.
  keeps_with ltac:(first
    [ quiet_same
    | apply log_quiet; unfold submissions; simpl; rewrite Hm; reflexivity ]).
Qed.

Lemma build_transaction_quiet data : keeps no_submission (build_transaction env data).
Proof.
  unfold build_transaction.
  keeps_with ltac:(first [quiet_same | apply log_quiet; reflexivity]).
Qed.

Lemma build_user_operation_quiet sender call_data deployed owner salt :
  keeps no_submission (build_user_operation env sender call_data deployed owner salt).
Proof.
  unfold build_user_operation, get_nonce, create_account_calldata.
  keeps_with ltac:(first
    [ apply build_transaction_quiet | quiet_same | apply log_quiet; reflexivity ]).
Qed.

Lemma sponsor_user_op_quiet op : keeps no_submission (sponsor_user_op env op).
Proof.
  unfold sponsor_user_op, _get_gas_price.
  keeps_with ltac:(first
    [ apply rpc_quiet; reflexivity | apply log_quiet; reflexivity | quiet_same ]).
Qed.

Lemma wait_loop_quiet rounds h timeout interval elapsed :
  keeps no_submission (wait_loop env rounds h timeout interval elapsed).
Proof.
  revert elapsed. induction rounds as [| rounds IH]; intros elapsed; simpl.
  - keeps_with fail.
  - unfold poll_once, on_runtime_error.
    keeps_with ltac:(first
      [ apply rpc_quiet; reflexivity | apply log_quiet; reflexivity | apply IH ]).
Qed.

End WithLib.

Section Submit.
Context `{Hash} `{Config} (env : Env).

Lemma merge_fields_other keys src (op op' : gmap string pyval) k :
  ~ In k keys -> merge_fields keys src op = Ok op' -> op' !! k = op !! k.
Proof.
  intros Hk. unfold merge_fields. destruct src as [| | | | s | d]; try discriminate.
  - destruct (existsb _ _); [discriminate |]. intros E. injection E as <-. reflexivity.
  - intros E. injection E as <-. revert op.
    induction keys as [| key keys IH]; intros op; [reflexivity |].
    simpl. rewrite IH by (intros Hin; apply Hk; right; exact Hin).
    destruct (assoc_get key d) as [v |]; [| reflexivity].
    destruct (truthy v); [| reflexivity].
    apply lookup_insert_ne. intros ->. apply Hk. left. reflexivity.
Qed.

Lemma sponsor_keeps_call_data op op' w w' :
  sponsor_user_op env op w = (Ok op', w') -> op' !! "callData" = op !! "callData".
Proof.
  unfold sponsor_user_op. intros Hrun.
  apply bind_inv_ok in Hrun as (stub & w1 & _ & Hrun).
  apply bind_inv_ok in Hrun as (op1 & w2 & H1 & Hrun).
  apply bind_inv_ok in Hrun as ([] & w3 & _ & Hrun).
  apply bind_inv_ok in Hrun as (gas & w4 & _ & Hrun).
  apply bind_inv_ok in Hrun as (op2 & w5 & H2 & Hrun).
  apply bind_inv_ok in Hrun as (price & w6 & _ & Hrun).
  apply bind_inv_ok in Hrun as ([] & w7 & _ & Hrun).
  apply bind_inv_ok in Hrun as (pm & w8 & _ & Hrun).
  unfold lift in H1, H2, Hrun.
  injection H1 as H1 _. injection H2 as H2 _. injection Hrun as H3 _.
  apply (merge_fields_other _ _ _ _ "callData") in H1, H2, H3;
    try (unfold paymaster_keys, gas_keys; simpl; intuition discriminate).
  rewrite H3, !lookup_insert_ne by discriminate. rewrite H2, H1. reflexivity.
Qed.

Lemma build_user_operation_call_data sender call_data deployed owner salt w op w' :
  build_user_operation env sender call_data deployed owner salt w = (Ok op, w') ->
  op !! "callData" = Some (PStr call_data).
Proof.
  unfold build_user_operation. intros Hrun.
  apply bind_inv_ok in Hrun as (nonce & w1 & _ & Hrun).
  apply bind_inv_ok in Hrun as (fd & w2 & _ & Hrun).
  apply bind_inv_ok in Hrun as (s & w3 & _ & Hrun).
  apply bind_inv_ok in Hrun as (f & w4 & _ & Hrun).
  unfold ret in Hrun. injection Hrun as <- _.
  cbn [list_to_map foldr uncurry fst snd].
  rewrite !lookup_insert_ne by discriminate. apply lookup_insert_eq.
Qed.

Lemma clean_keeps_string (op : gmap string pyval) k s :
  op !! k = Some (PStr s) -> clean op !! k = Some (PStr s).
Proof. intros E. unfold clean. rewrite lookup_omap, E. reflexivity. Qed.

Lemma send_then_quiet {A} op (k : pyval -> M A) Q call_data :
  op !! "callData" = Some (PStr call_data) -> Q call_data ->
  (forall a, keeps no_submission (k a)) ->
  traced (bind (send_user_op env op) k) (one_submission Q).
Proof.
  intros Hcd HQ Hk w.
  assert (forall r subs,
            subs = [[POp (clean op); PVal (PStr ENTRYPOINT_ADDRESS)]] ->
            one_submission Q (A := A) r subs) as Hone.
  { intros r subs ->. right. exists (clean op), call_data.
    split; [reflexivity |]. split; [apply clean_keeps_string, Hcd | exact HQ]. }
  unfold send_user_op, _rpc, _next_id, log, modify, ret, raise, bind. simpl.
  match goal with
  | |- context [relay env ?i ?m ?ps] => destruct (relay env i m ps) as [v | err | m']
  end; simpl.
  - match goal with |- context [k v ?w1] => destruct (Hk v w1) as (n2 & E2 & S2) end.
    eexists (_ :: n2). rewrite E2. simpl. rewrite <- app_assoc. split; [reflexivity |].
    apply Hone. unfold submissions in *. simpl. rewrite S2. reflexivity.
  - eexists [_]. split; [reflexivity |]. apply Hone. reflexivity.
  - eexists [_]. split; [reflexivity |]. apply Hone. reflexivity.
Qed.

(** One run of the pipeline submits at most one operation; it submits
    exactly one when it returns, and that operation carries [call_data]. *)
Lemma submit_user_op_traced user call_data Q :
  Q call_data -> traced (_submit_user_op env user call_data) (one_submission Q).
Proof.
  intros HQ. unfold _submit_user_op.
  apply traced_after_quiet; [keeps_with fail | intros w0 sender w1 _ | left; auto].
  apply traced_after_quiet;
    [apply build_user_operation_quiet | intros w2 op w3 Hop | left; auto].
  apply build_user_operation_call_data in Hop.
  apply traced_after_quiet;
    [unfold BundlerClient; keeps_with ltac:(quiet_same) | intros w4 [] w5 _ | left; auto].
  apply traced_after_quiet;
    [apply sponsor_user_op_quiet | intros w6 op' w7 Hsp | left; auto].
  apply sponsor_keeps_call_data in Hsp. rewrite Hop in Hsp.
  apply traced_after_quiet; [keeps_with fail | intros w8 digest w9 _ | left; auto].
  apply traced_after_quiet;
    [unfold sign_message; keeps_with ltac:(apply log_quiet; reflexivity)
    | intros w10 sig w11 _ | left; auto].
  apply (send_then_quiet _ _ Q call_data).
  - rewrite lookup_insert_ne by discriminate. exact Hsp.
  - exact HQ.
  - intros user_op_hash. unfold wait_for_receipt.
    keeps_with ltac:(first [apply wait_loop_quiet | quiet_same]).
Qed.

End Submit.

Section Escrow.
Context `{Hash} `{Config} (env : Env).

Lemma traced_raise {A} (e : exn) (P : result A -> list (list param) -> Prop) :
  P (Err e) [] -> traced (raise e) P.
Proof.
  intros HP w. exists []. simpl. split; [symmetry; apply app_nil_r | exact HP].
Qed.

Lemma lift_ok {A} (r : result A) w a w1 : lift r w = (Ok a, w1) -> r = Ok a.
Proof. unfold lift. intros E. injection E as -> _. reflexivity. Qed.

Lemma escrow_deposit_traced user escrow_contract usdc_contract order_id_bytes32 seller amount :
  traced (escrow_deposit env user escrow_contract usdc_contract order_id_bytes32
                         seller amount)
         (one_submission (is_escrow_batch escrow_contract usdc_contract
                                          order_id_bytes32 seller amount)).
Proof.
  unfold escrow_deposit.
  apply traced_after_quiet; [keeps_with fail | intros w0 sender w1 _ | left; auto].
  apply traced_after_quiet; [keeps_with fail | intros w2 sender' w3 _ | left; auto].
  apply traced_after_quiet;
    [ unfold get_balance; keeps_with ltac:(apply log_quiet; reflexivity)
    | intros w4 balance w5 _ | left; auto ].
  destruct (balance <? amount)%float; [apply traced_raise; left; auto |].
  apply traced_after_quiet; [keeps_with fail | intros w6 units w7 Hu | left; auto].
  apply traced_after_quiet;
    [apply build_transaction_quiet | intros w8 approve w9 Ha | left; auto].
  apply traced_after_quiet;
    [apply build_transaction_quiet | intros w10 deposit w11 Hd | left; auto].
  apply traced_after_quiet;
    [apply build_transaction_quiet | intros w12 call_data w13 Hb | left; auto].
  apply lift_ok in Hu.
  apply build_transaction_ok in Ha as (Ha & _), Hd as (Hd & _), Hb as (Hb & _).
  apply traced_then_quiet.
  - apply submit_user_op_traced.
    exact (escrow_batch_layout _ _ _ _ _ _ _ _ _ Hu Ha Hd Hb).
  - intros submitted. unfold insert_transaction, insert_event, fresh_id.
    keeps_with ltac:(quiet_same).
Qed.

(** C8.  Whatever the outside world answers, a run of [escrow_deposit]
    only adds calls to the log.  When it returns, exactly one of them
    submits an operation: it goes to the entry point and its callData is the
    single executeBatch over two calls in this order, the token's approve of
    the escrow contract for the amount, then the escrow's deposit of the
    order, the seller and the amount.  When it raises, it has submitted
    nothing or that one operation, never two and never another. *)
Theorem escrow_deposit_submits_one_batch (user : User)
    (escrow_contract usdc_contract order_id_bytes32 seller : string) (amount : float)
    (w w' : World) (r : result Receipt) :
  escrow_deposit env user escrow_contract usdc_contract order_id_bytes32 seller amount w
  = (r, w') ->
  let the_batch (new : list call) :=
    exists op call_data,
      submissions new = [[POp op; PVal (PStr ENTRYPOINT_ADDRESS)]]
      /\ op !! "callData" = Some (PStr call_data)
      /\ is_escrow_batch escrow_contract usdc_contract order_id_bytes32 seller
                         amount call_data in
  exists new,
    calls w' = calls w ++ new
    /\ match r with
       | Ok _ => the_batch new
       | Err _ => submissions new = [] \/ the_batch new
       end.
Proof.
  intros Hrun the_batch.
  destruct (escrow_deposit_traced user escrow_contract usdc_contract order_id_bytes32
              seller amount w) as (new & Hcalls & Hone).
  rewrite Hrun in Hcalls, Hone. cbn [fst snd] in Hcalls, Hone.
  exists new. split; [exact Hcalls |].
  destruct r as [receipt | e]; destruct Hone as [[Hnone Hbad] | Hone].
  - discriminate.
  - exact Hone.
  - left. exact Hnone.
  - right. exact Hone.
Qed.

End Escrow.

End EscrowFacts.

(** ** The escrow deposit on the scripted world *)
Module EscrowExamples.
Import Py Abi Store Usdc Builder Bundler Payment Trace Scenario EscrowFacts.

(** Two and a half units into escrow: one operation, whose callData is the
    batch of the approve and the deposit of 2500000 base units. *)
Example escrow_deposit_once :
  let run := escrow_deposit (H0 := testnet) env alice bob
                            (@USDC_CONTRACT_ADDRESS testnet) order sponsor 2.5 start in
  is_ok (fst run) = true
  /\ length (submissions (calls (snd run))) = 1%nat
  /\ map (fun ps => match ps with
                    | POp op :: _ => op !! "callData"
                    | _ => None
                    end) (submissions (calls (snd run)))
     = [Some (PStr (hexstr (approve_then_deposit
                              (unhex "036CbD53842c5426634e7929541eC2318f3dCF7e")
                              (unhex "0000000071727De22E5E9d8BAf0edAc6f37da032")
                              (unhex "0101010101010101010101010101010101010101")
                              (unhex "0101010101010101010101010101010101010101010101010101010101010101")
                              2500000)))]
  /\ map tx_kind (transactions (snd run)) = [TEscrowDeposit].
Proof.
  cbv zeta. split; [| split; [| split]]; vm_compute; reflexivity.
Qed.

(** The same deposit: it returns, and the one operation it has submitted is
    the batch. *)
Lemma escrow_deposit_submits_one_batch_witness :
  let run := escrow_deposit (H0 := testnet) env alice bob
                            (@USDC_CONTRACT_ADDRESS testnet) order sponsor 2.5 start in
  exists new,
    calls (snd run) = calls start ++ new
    /\ exists op call_data,
         submissions new = [[POp op; PVal (PStr (@ENTRYPOINT_ADDRESS testnet))]]
         /\ op !! "callData" = Some (PStr call_data)
         /\ is_escrow_batch bob (@USDC_CONTRACT_ADDRESS testnet) order sponsor 2.5
                            call_data.
Proof.
  cbv zeta.
  apply (escrow_deposit_submits_one_batch (H0 := testnet) env alice bob
           (@USDC_CONTRACT_ADDRESS testnet) order sponsor 2.5 start _
           (Ok (EscrowCompleted (PStr "0xabc") (PStr "0xuserop")
                  "0x91E60e0613810449d098b0b5Ec8b51A0FE8c8985" bob order sponsor 2.5))).
  vm_compute. reflexivity.
Defined.

(** With the relay down nothing is submitted and nothing is recorded. *)
Example escrow_deposit_relay_down :
  let run := escrow_deposit (H0 := testnet) (with_relay relay_down) alice bob
                            (@USDC_CONTRACT_ADDRESS testnet) order sponsor 2.5 start in
  is_ok (fst run) = false
  /\ submissions (calls (snd run)) = []
  /\ transactions (snd run) = [].
Proof.
  cbv zeta. split; [| split]; vm_compute; reflexivity.
Qed.

End EscrowExamples.

Module OutflowFacts.
Import Py Abi Store Usdc Builder Bundler Payment Outflow Ledger Calldata Trace MonadFacts FrameFacts
       BundlerFacts SettlementFacts ConfirmFacts HashFacts EscrowFacts.

#[export] Instance same_preorder {X} (f : World -> X) : PreOrder (same f).
Proof.
  split.
  - intros w. reflexivity.
  - intros a b c Hab Hbc. unfold same in *. congruence.
Qed.

Lemma selected_after_mark user payment_id s w :
  s <> Pending ->
  selected user payment_id (set_pending (map (mark_status payment_id s)) w) = [].
Proof.
  intros Hs. apply selected_none. intros p Hp Hid _.
  pose proof (marked_rows payment_id s (pending_payments w)) as Hall.
  rewrite Forall_forall in Hall.
  simpl in Hp. apply list_elem_of_In in Hp.
  rewrite (Hall p Hp Hid). exact Hs.
Qed.

#[export] Instance no_balance_read_preorder : PreOrder no_balance_read.
Proof.
  split.
  - intros w. exists []. split; [symmetry; apply app_nil_r | reflexivity].
  - intros a b c (n1 & E1 & S1) (n2 & E2 & S2). exists (n1 ++ n2). split.
    + rewrite E2, E1. symmetry. apply app_assoc.
    + rewrite existsb_app, S1, S2. reflexivity.
Qed.

Section WithLib.
Context `{Hash} `{Config} (env : Env).

Lemma cancel_not_found user payment_id w :
  selected user payment_id w = [] ->
  cancel_payment user payment_id w = (Err not_found, w).
Proof.
  unfold selected, cancel_payment, bind, gets. intros ->. reflexivity.
Qed.

Lemma cancel_found user payment_id w :
  selected user payment_id w <> [] ->
  cancel_payment user payment_id w
  = (Ok (CancelledPayment payment_id),
     set_events (fun es => es ++ [{| ev_user_id := user_id user;
                                     ev_type := "payment_cancelled";
                                     ev_data := [("payment_id", PInt (Z.of_nat payment_id))] |}])
       (set_pending (map (mark_status payment_id Cancelled)) w)).
Proof.
  unfold selected, cancel_payment, bind, gets. intros Hsel.
  destruct (filter _ (pending_payments w)) as [| p rest]; [contradiction |].
  reflexivity.
Qed.

(** X1.  Cancelling needs a pending row of this user with this identifier.
    Without one it fails and the world is untouched.  With one it writes
    status cancelled on the payment, whatever its expiry, appends one
    payment_cancelled event, records no transaction and makes no outside
    call; afterwards no user has a pending row with this identifier. *)
Theorem cancel_payment_cases (user : User) (payment_id : nat) (w : World) :
  (selected user payment_id w = [] ->
   cancel_payment user payment_id w = (Err not_found, w))
  /\ (selected user payment_id w <> [] ->
      exists w',
        cancel_payment user payment_id w = (Ok (CancelledPayment payment_id), w')
        /\ pending_payments w'
           = map (fun p => if (pp_id p =? payment_id)%nat then with_status Cancelled p else p)
                 (pending_payments w)
        /\ (forall anyone, selected anyone payment_id w' = [])
        /\ events w'
           = events w ++ [{| ev_user_id := user_id user; ev_type := "payment_cancelled";
                             ev_data := [("payment_id", PInt (Z.of_nat payment_id))] |}]
        /\ transactions w' = transactions w
        /\ calls w' = calls w).
Proof.
  split; [apply cancel_not_found |].
  intros Hsel. eexists. split; [apply cancel_found, Hsel |].
  split; [reflexivity |]. split; [| repeat split].
  intros anyone.
  exact (selected_after_mark anyone payment_id Cancelled w ltac:(discriminate)).
Qed.

(** X2.  Once a payment is cancelled, neither a confirmation nor a second
    cancellation finds it, whoever asks: both fail with the not-found error
    and leave the world as it is, so nothing is settled. *)
Theorem cancelled_payment_is_final (user anyone : User) (payment_id : nat)
    (w w1 : World) (c : Cancellation) :
  cancel_payment user payment_id w = (Ok c, w1) ->
  confirm_payment env anyone payment_id w1 = (Err not_found, w1)
  /\ cancel_payment anyone payment_id w1 = (Err not_found, w1).
Proof.
  intros Hrun.
  assert (selected anyone payment_id w1 = []) as Hnone.
  { destruct (selected user payment_id w) as [| p rest] eqn:Hsel.
    - rewrite (cancel_not_found _ _ _ Hsel) in Hrun. discriminate.
    - rewrite cancel_found in Hrun by (rewrite Hsel; discriminate).
      injection Hrun as _ <-.
      exact (selected_after_mark anyone payment_id Cancelled w ltac:(discriminate)). }
  split; [apply confirm_not_found, Hnone | apply cancel_not_found, Hnone].
Qed.

(** *** The checks before a payment or a withdrawal *)

(** X3.  Spending that would take the day's total over the daily limit is
    refused by [pay] and by [withdraw] alike, with an error that carries the
    limit and the running total; the tables are untouched and no outside
    call is made. *)
Theorem spending_over_daily_limit (user : User) (to_address : string)
    (amount : float) (memo : option string) (w : World) (sender : string) :
  _get_sender user = Ok sender ->
  (per_tx_of user <? amount)%float = false ->
  (daily_of user <?
     today_total (user_id user) (start_of_day (clock env (ticks w))) (transactions w)
     + amount)%float = true ->
  let total := today_total (user_id user) (start_of_day (clock env (ticks w)))
                           (transactions w) in
  exists w',
    pay env user to_address amount memo w
      = (Err (over_daily_limit (daily_of user) total), w')
    /\ withdraw env user to_address amount memo w
       = (Err (over_daily_limit (daily_of user) total), w')
    /\ same_store w w' /\ calls w' = calls w /\ users w' = users w.
Proof.
  intros Hs Hper Hday total.
  unfold pay, withdraw, _check_limits, now, gets, bind, lift, ret, raise.
  rewrite Hs, Hper. simpl. rewrite Hday.
  eexists. split; [reflexivity |]. split; [reflexivity |]. repeat split.
Qed.

(** X4.  A payment or withdrawal of more than the balance read from the chain is
    refused with an error that carries the balance and the amount; the
    tables are untouched and the balance read is the only outside call. *)
Theorem spending_over_balance (user : User) (to_address : string)
    (amount : float) (memo : option string) (w : World)
    (sender usdc account : string) (balance : float) :
  _get_sender user = Ok sender ->
  (per_tx_of user <? amount)%float = false ->
  (daily_of user <?
     today_total (user_id user) (start_of_day (clock env (ticks w))) (transactions w)
     + amount)%float = false ->
  to_checksum_address USDC_CONTRACT_ADDRESS = Ok usdc ->
  to_checksum_address sender = Ok account ->
  balance_of env account = Ok balance ->
  (balance <? amount)%float = true ->
  exists w',
    pay env user to_address amount memo w
      = (Err (insufficient_balance balance amount), w')
    /\ withdraw env user to_address amount memo w
       = (Err (insufficient_balance balance amount), w')
    /\ same_store w w' /\ calls w' = calls w ++ [GetBalance account].
Proof.
  intros Hs Hper Hday Husdc Hacc Hbal Hlow.
  unfold pay, withdraw, _check_limits, get_balance, log, modify, now, gets,
    bind, lift, ret, raise.
  rewrite Hs, Hper. simpl. rewrite Hday, Husdc, Hacc. simpl.
  rewrite Hbal, Hlow.
  eexists. split; [reflexivity |]. split; [reflexivity |]. repeat split.
Qed.


(** *** Settling and recording *)

Ltac same_step := solve [intros w; reflexivity].

Lemma submit_user_op_same_ticks user call_data :
  keeps (same ticks) (_submit_user_op env user call_data).
Proof.
  assert (forall rounds h timeout interval elapsed,
            keeps (same ticks) (wait_loop env rounds h timeout interval elapsed)) as Hwait.
  { induction rounds as [| rounds IH]; intros h timeout interval elapsed; simpl.
    - keeps_with fail.
    - unfold poll_once, on_runtime_error, _rpc.
      keeps_with ltac:(first [apply IH | same_step]). }
  unfold _submit_user_op, build_user_operation, get_nonce, create_account_calldata,
    build_transaction, BundlerClient, sponsor_user_op,
    _get_gas_price, sign_message, send_user_op, wait_for_receipt, _rpc.
  keeps_with ltac:(first [apply Hwait | same_step]).
Qed.

Lemma records_outflow_err {A} uid kind amount to created w e w1 :
  same_store w w1 ->
  records_outflow (A := A) env uid kind amount to created w (Err e, w1).
Proof. intros (Hp & Ht & _). split; assumption. Qed.

Lemma records_outflow_from {A} uid kind amount to created w w1 (run : result A * World) :
  same_store w w1 ->
  records_outflow env uid kind amount to created w1 run ->
  records_outflow env uid kind amount to created w run.
Proof.
  intros (Hp & Ht & _) [Hp' Hm]. split; [congruence |].
  destruct (fst run); [| congruence].
  destruct Hm as (Hsaw & row & Hrow & Hrest). split; [exact Hsaw |].
  exists row. rewrite <- Ht. auto.
Qed.

(** Submit, then record: the shape shared by every outflow. *)
Lemma submit_then_record {A} user call_data kind amount from to memo ev
    (data : pyval * pyval -> list (string * pyval)) (res : pyval * pyval -> A) w :
  records_outflow env (user_id user) kind amount to (clock env (ticks w)) w
    ((submitted <- _submit_user_op env user call_data ;;
      insert_transaction env (user_id user) kind amount from to memo
                         (snd submitted) (Some (fst submitted)) None ;;;
      insert_event (user_id user) ev (data submitted) ;;;
      ret (res submitted)) w).
Proof.
  unfold bind.
  pose proof (submit_user_op_same_ticks user call_data w) as Hticks.
  destruct (_submit_user_op env user call_data w) as [[submitted | e] w1] eqn:Hsub.
  - apply submit_user_op_ok in Hsub as [(Hp & Ht & He) Hsaw].
    simpl in Hticks. unfold same in Hticks.
    split; [exact Hp |]. simpl. split.
    + eapply saw_success_calls; [| exact Hsaw]. reflexivity.
    + eexists. rewrite Ht. split; [reflexivity |]. simpl. rewrite Hticks. repeat split.
  - apply records_outflow_err.
    exact (keeps_run same_store _ _ _ _ (submit_user_op_same_store env user call_data) Hsub).
Qed.

Ltac lift_step :=
  match goal with
  | |- context [bind (lift ?x) _ _] =>
      destruct x eqn:?;
      [ rewrite (bind_lift_ok _ _ _ _ eq_refl)
      | rewrite (bind_lift_err _ _ _ _ eq_refl);
        apply records_outflow_err; repeat split ]
  end.

(** A builder in front of an outflow: it fails with the tables untouched, or
    the rest runs in a world that differs by the logged request only. *)
Ltac build_step :=
  unfold build_transfer_calldata, build_approve_calldata, build_deposit_calldata,
    build_execute_calldata, build_execute_batch_calldata;
  rewrite bind_build_transaction;
  match goal with
  | |- context [match ?data with Ok _ => _ | Err _ => _ end] =>
      destruct data eqn:?; [| apply records_outflow_err; repeat split]
  end;
  destruct (eth_chain_id env); [| apply records_outflow_err; repeat split];
  match goal with
  | |- records_outflow _ _ _ _ _ _ ?w (_ ?w') =>
      apply (records_outflow_from _ _ _ _ _ w w'); [repeat split |];
      let w1 := fresh "w" in
      set (w1 := w');
      change (ticks w) with (ticks w1);
      clearbody w1; clear w
  end.

Lemma withdraw_outflow user to_address amount memo w :
  records_outflow env (user_id user) TWithdrawal amount to_address
                  (clock env (S (ticks w))) w
                  (withdraw env user to_address amount memo w).
Proof.
  unfold withdraw. lift_step.
  unfold bind at 1, _check_limits.
  destruct (per_tx_of user <? amount)%float;
    [apply records_outflow_err; repeat split |].
  unfold bind at 1, now, gets. cbv beta iota.
  unfold bind at 1. cbv beta iota.
  destruct (daily_of user <? _)%float;
    [apply records_outflow_err; repeat split |].
  unfold ret at 1. cbv beta iota.
  match goal with |- records_outflow _ _ _ _ _ _ _ (_ ?w') =>
    apply (records_outflow_from _ _ _ _ _ w w'); [repeat split |];
    set (w1 := w'); change (clock env (S (ticks w))) with (clock env (ticks w1));
    clearbody w1; clear w
  end.
  lift_step.
  unfold get_balance. unfold bind at 1. unfold bind at 1. unfold lift at 1.
  destruct (to_checksum_address USDC_CONTRACT_ADDRESS) as [usdc | e];
    [| apply records_outflow_err; repeat split].
  unfold bind at 1.
  destruct (to_checksum_address a0) as [account | e];
    [| apply records_outflow_err; repeat split].
  unfold lift at 1. cbv beta iota. unfold bind at 1, log, modify. cbv beta iota.
  unfold lift at 1.
  destruct (balance_of env account) as [balance | e];
    [| apply records_outflow_err; repeat split].
  cbv beta iota.
  match goal with |- records_outflow _ _ _ _ _ _ _ (_ ?w') =>
    apply (records_outflow_from _ _ _ _ _ w1 w'); [repeat split |];
    set (w2 := w'); change (clock env (ticks w1)) with (clock env (ticks w2));
    clearbody w2; clear w1
  end.
  destruct (balance <? amount)%float; [apply records_outflow_err; repeat split |].
  build_step. build_step.
  apply (submit_then_record user _ TWithdrawal amount a to_address memo "withdrawal_sent"
           (fun submitted =>
              [("to", PStr to_address); ("amount", PFloat amount); ("tx_hash", snd submitted);
               ("user_op_hash", fst submitted); ("memo", opt_str memo)])
           (fun submitted => Completed (snd submitted) (fst submitted) a to_address amount)).
Qed.


(** X5.  A withdrawal never waits for a confirmation: whatever the amount and
    the threshold, no pending payment is written.  It records nothing when
    it fails, and when it returns it has recorded exactly one withdrawal
    row of the user, the amount and the destination, created at the second
    clock reading of the call, after the relay reported a successful
    receipt. *)
Theorem withdraw_records_after_success (user : User) (to_address : string)
    (amount : float) (memo : option string) (w : World) :
  let run := withdraw env user to_address amount memo w in
  pending_payments (snd run) = pending_payments w
  /\ match fst run with
     | Err _ => transactions (snd run) = transactions w
     | Ok _ =>
         saw_success env (snd run)
         /\ exists row,
              transactions (snd run) = transactions w ++ [row]
              /\ tx_user_id row = user_id user /\ tx_kind row = TWithdrawal
              /\ tx_amount row = amount /\ tx_to_address row = to_address
              /\ tx_created_at row = clock env (S (ticks w))
     end.
Proof. exact (withdraw_outflow user to_address amount memo w). Qed.

Lemma execute_payment_outflow user to_address amount memo w :
  records_outflow env (user_id user) TPayment amount to_address (clock env (ticks w)) w
                  (_execute_payment env user to_address amount memo w).
Proof.
  unfold _execute_payment. lift_step. do 2 build_step.
  apply (submit_then_record user _ TPayment amount a to_address memo "payment_sent"
           (fun submitted =>
              [("to", PStr to_address); ("amount", PFloat amount); ("tx_hash", snd submitted);
               ("user_op_hash", fst submitted); ("memo", opt_str memo)])
           (fun submitted => Completed (snd submitted) (fst submitted) a to_address amount)).
Qed.

Lemma contract_call_outflow user contract_address calldata w :
  records_outflow env (user_id user) TContractCall 0%float contract_address
                  (clock env (ticks w)) w
                  (contract_call env user contract_address calldata w).
Proof.
  unfold contract_call. lift_step. build_step.
  apply (submit_then_record user _ TContractCall 0%float a contract_address
           (Some (contract_call_memo calldata)) "contract_call"
           (fun submitted =>
              [("contract_address", PStr contract_address); ("tx_hash", snd submitted);
               ("user_op_hash", fst submitted)])
           (fun submitted => CallCompleted (snd submitted) (fst submitted) a contract_address)).
Qed.

Lemma escrow_deposit_outflow user escrow_contract usdc_contract order_id_bytes32 seller
    amount w :
  records_outflow env (user_id user) TEscrowDeposit amount escrow_contract
                  (clock env (ticks w)) w
                  (escrow_deposit env user escrow_contract usdc_contract order_id_bytes32
                                  seller amount w).
Proof.
  unfold escrow_deposit. do 2 lift_step.
  unfold get_balance. unfold bind at 1. unfold bind at 1. unfold lift at 1.
  destruct (to_checksum_address USDC_CONTRACT_ADDRESS) as [usdc | e];
    [| apply records_outflow_err; repeat split].
  unfold bind at 1.
  destruct (to_checksum_address a0) as [account | e];
    [| apply records_outflow_err; repeat split].
  unfold lift at 1. cbv beta iota. unfold bind at 1, log, modify. cbv beta iota.
  unfold lift at 1.
  destruct (balance_of env account) as [balance | e];
    [| apply records_outflow_err; repeat split].
  cbv beta iota.
  match goal with |- records_outflow _ _ _ _ _ _ _ (_ ?w') =>
    apply (records_outflow_from _ _ _ _ _ w w'); [repeat split |];
    set (w2 := w'); change (clock env (ticks w)) with (clock env (ticks w2));
    clearbody w2; clear w
  end.
  destruct (balance <? amount)%float; [apply records_outflow_err; repeat split |].
  lift_step. do 3 build_step.
  apply (submit_then_record user _ TEscrowDeposit amount a escrow_contract
           (Some (String.append "order:" (String.append order_id_bytes32
                    (String.append " seller:" seller))))
           "escrow_deposit"
           (fun submitted =>
              [("escrow_contract", PStr escrow_contract);
               ("order_id_bytes32", PStr order_id_bytes32);
               ("seller", PStr seller); ("amount", PFloat amount);
               ("tx_hash", snd submitted); ("user_op_hash", fst submitted)])
           (fun submitted => EscrowCompleted (snd submitted) (fst submitted) a escrow_contract
                                             order_id_bytes32 seller amount)).
Qed.

(** *** The daily total *)

Lemma today_total_snoc uid t0 txs row :
  today_total uid t0 (txs ++ [row])
  = if spent_today_row uid t0 row then (today_total uid t0 txs + tx_amount row)%float
    else today_total uid t0 txs.
Proof.
  unfold today_total. rewrite filter_app, fold_left_app.
  rewrite filter_cons, filter_nil.
  destruct (decide (spent_today_row uid t0 row = true)) as [E | E].
  - rewrite E. reflexivity.
  - apply not_true_is_false in E. rewrite E. reflexivity.
Qed.

Lemma outflow_total {A} uid kind amount to created w (run : result A * World) uid' t0 :
  records_outflow env uid kind amount to created w run ->
  today_total uid' t0 (transactions (snd run))
  = match fst run with
    | Ok _ =>
        if (uid =? uid')%nat
           && match kind with TPayment | TWithdrawal => true | _ => false end
           && (t0 <=? created)
        then (today_total uid' t0 (transactions w) + amount)%float
        else today_total uid' t0 (transactions w)
    | Err _ => today_total uid' t0 (transactions w)
    end.
Proof.
  intros [_ Hm]. destruct (fst run); [| rewrite Hm; reflexivity].
  destruct Hm as (_ & row & -> & <- & <- & <- & _ & <-).
  apply today_total_snoc.
Qed.


Ltac quiet :=
  first [ exists []; split; [symmetry; apply app_nil_r | reflexivity]
        | eexists [_]; split; reflexivity ].

(** What a payment comes to: a failed check, a pending confirmation when the
    amount is above the threshold, or else the settlement, started after
    the checks with the tables as they were and the clock read once. *)
Lemma pay_outcome user to_address amount memo w (P : result Receipt * World -> Prop) :
  (forall e w1, same_store w w1 -> no_submission w w1 -> P (Err e, w1)) ->
  ((threshold_of user <? amount)%float = true ->
   forall id expires w', no_submission w w' -> transactions w' = transactions w ->
     P (Ok (PendingConfirmation id expires), w')) ->
  ((threshold_of user <? amount)%float = false ->
   forall w1, same_store w w1 -> ticks w1 = S (ticks w) ->
     (exists new, calls w1 = calls w ++ new /\ submissions new = []) ->
     P (_execute_payment env user to_address amount memo w1)) ->
  P (pay env user to_address amount memo w).
Proof.
  intros Herr Hpending Hsettle.
  unfold pay.
  destruct (_get_sender user) as [sender | e] eqn:Hs;
    [rewrite (bind_lift_ok _ _ _ _ eq_refl)
    | rewrite (bind_lift_err _ _ _ _ eq_refl); apply Herr; [repeat split | quiet]].
  unfold bind at 1, _check_limits.
  destruct (per_tx_of user <? amount)%float; [apply Herr; [repeat split | quiet] |].
  unfold bind at 1, now, gets. cbv beta iota.
  unfold bind at 1. cbv beta iota.
  destruct (daily_of user <? _)%float; [apply Herr; [repeat split | quiet] |].
  unfold ret at 1. cbv beta iota.
  rewrite (bind_lift_ok _ _ _ _ eq_refl).
  unfold get_balance. unfold bind at 1. unfold bind at 1. unfold lift at 1.
  destruct (to_checksum_address USDC_CONTRACT_ADDRESS) as [usdc | e];
    [| apply Herr; [repeat split | quiet]].
  unfold bind at 1.
  destruct (to_checksum_address sender) as [account | e]; [| apply Herr; [repeat split | quiet]].
  unfold lift at 1. cbv beta iota. unfold bind at 1, log, modify. cbv beta iota.
  unfold lift at 1.
  destruct (balance_of env account) as [balance | e]; [| apply Herr; [repeat split | quiet]].
  cbv beta iota.
  destruct (balance <? amount)%float; [apply Herr; [repeat split | quiet] |].
  destruct (threshold_of user <? amount)%float.
  - unfold insert_pending_payment, insert_event, fresh_id, modify, bind, ret. simpl.
    apply Hpending; [reflexivity | quiet | reflexivity].
  - apply Hsettle; [reflexivity | repeat split | reflexivity |].
    exists [GetBalance account]. split; reflexivity.
Qed.

Lemma outflow_counted {A} uid kind amount to created w (run : result A * World) t0 a :
  records_outflow env uid kind amount to created w run ->
  fst run = Ok a ->
  match kind with TPayment | TWithdrawal => true | _ => false end = true ->
  t0 <= created ->
  exists row,
    filter (fun tx => spent_today_row uid t0 tx = true) (transactions (snd run))
    = filter (fun tx => spent_today_row uid t0 tx = true) (transactions w) ++ [row]
    /\ tx_user_id row = uid /\ tx_amount row = amount /\ tx_created_at row = created.
Proof.
  intros [_ Hm] Hok Hkind Hday. rewrite Hok in Hm.
  destruct Hm as (_ & row & Hrow & Hu & Hk & Ha & _ & Hc).
  exists row. split; [| auto].
  rewrite Hrow, filter_app, filter_cons, filter_nil.
  destruct (decide (spent_today_row uid t0 row = true)) as [_ | Hno]; [reflexivity |].
  exfalso. apply Hno. unfold spent_today_row.
  rewrite Hu, Nat.eqb_refl, Hk, Hkind, Hc. apply Z.leb_le in Hday. rewrite Hday. reflexivity.
Qed.

(** X6.  Settled payments and withdrawals count toward the user's daily
    limit.  Of the rows [_check_limits] sums for the user, for a day that
    starts no later than the instant of recording, a completed payment or
    a returned withdrawal keeps every row that was counted and adds
    exactly one, which carries the amount.  The statement is about the
    rows: it depends neither on the order the store returns them in nor
    on how the interpreter sums floats. *)
Theorem settled_spending_counts_toward_daily_total (user : User) (to_address : string)
    (amount : float) (memo : option string) (w : World) (t0 : time) :
  let counted (txs : list Transaction) :=
    filter (fun tx => spent_today_row (user_id user) t0 tx = true) txs in
  t0 <= clock env (S (ticks w)) ->
  (forall tx_hash user_op_hash from to amt w',
     pay env user to_address amount memo w
       = (Ok (Completed tx_hash user_op_hash from to amt), w') ->
     exists row,
       Permutation (counted (transactions w')) (row :: counted (transactions w))
       /\ tx_user_id row = user_id user /\ tx_amount row = amount
       /\ tx_created_at row = clock env (S (ticks w)))
  /\ (forall r w',
        withdraw env user to_address amount memo w = (Ok r, w') ->
        exists row,
          Permutation (counted (transactions w')) (row :: counted (transactions w))
          /\ tx_user_id row = user_id user /\ tx_amount row = amount
          /\ tx_created_at row = clock env (S (ticks w))).
Proof.
  cbv zeta. intros Hday. split.
  - apply (pay_outcome user to_address amount memo w
             (fun run => forall tx_hash user_op_hash from to amt w',
                run = (Ok (Completed tx_hash user_op_hash from to amt), w') ->
                exists row,
                  Permutation
                    (filter (fun tx => spent_today_row (user_id user) t0 tx = true)
                            (transactions w'))
                    (row :: filter (fun tx => spent_today_row (user_id user) t0 tx = true)
                                   (transactions w))
                  /\ tx_user_id row = user_id user /\ tx_amount row = amount
                  /\ tx_created_at row = clock env (S (ticks w)))).
    + intros e w1 _ _ tx_hash user_op_hash from to amt w' E. discriminate.
    + intros _ id expires w1 _ _ tx_hash user_op_hash from to amt w' E. discriminate.
    + intros _ w1 (_ & Ht & _) Hticks _ tx_hash user_op_hash from to amt w' Hrun.
      destruct (outflow_counted _ _ _ _ _ _ _ t0 _
                  (execute_payment_outflow user to_address amount memo w1)
                  ltac:(rewrite Hrun; reflexivity) eq_refl
                  ltac:(rewrite Hticks; exact Hday))
        as (row & Hrows & Hu & Ha & Hc).
      rewrite Hrun in Hrows. cbn [snd] in Hrows. rewrite Ht in Hrows.
      exists row. rewrite Hrows, <- Hticks. split; [| auto].
      symmetry. apply Permutation_cons_append.
  - intros r w' Hrun.
    destruct (outflow_counted _ _ _ _ _ _ _ t0 _
                (withdraw_outflow user to_address amount memo w)
                ltac:(rewrite Hrun; reflexivity) eq_refl Hday)
      as (row & Hrows & Hu & Ha & Hc).
    rewrite Hrun in Hrows. cbn [snd] in Hrows.
    exists row. rewrite Hrows. split; [| auto].
    symmetry. apply Permutation_cons_append.
Qed.

(** X7.  Escrow deposits and contract calls bypass the spending limits: the run
    is the same whatever the user's limits and threshold are, and the row it
    records never counts toward anybody's daily total, on any day. *)
Theorem escrow_and_contract_calls_bypass_limits (user : User)
    (per_tx daily threshold : option float) (w : World) :
  (forall escrow_contract usdc_contract order_id_bytes32 seller amount,
     let run := escrow_deposit env user escrow_contract usdc_contract order_id_bytes32
                               seller amount w in
     escrow_deposit env (with_limits per_tx daily threshold user) escrow_contract
                    usdc_contract order_id_bytes32 seller amount w = run
     /\ forall uid t0,
          today_total uid t0 (transactions (snd run)) = today_total uid t0 (transactions w))
  /\ (forall contract_address calldata,
        let run := contract_call env user contract_address calldata w in
        contract_call env (with_limits per_tx daily threshold user) contract_address
                      calldata w = run
        /\ forall uid t0,
             today_total uid t0 (transactions (snd run))
             = today_total uid t0 (transactions w)).
Proof.
  split.
  - intros escrow_contract usdc_contract order_id_bytes32 seller amount run.
    split; [reflexivity |]. intros uid t0. subst run.
    rewrite (outflow_total _ _ _ _ _ _ _ uid t0
               (escrow_deposit_outflow user escrow_contract usdc_contract order_id_bytes32
                                       seller amount w)).
    rewrite andb_false_r. simpl. destruct (fst _); reflexivity.
  - intros contract_address calldata run.
    split; [reflexivity |]. intros uid t0. subst run.
    rewrite (outflow_total _ _ _ _ _ _ _ uid t0
               (contract_call_outflow user contract_address calldata w)).
    rewrite andb_false_r. simpl. destruct (fst _); reflexivity.
Qed.

(** X8.  At or below the confirmation threshold a payment is never parked: it
    fails a check with the tables untouched, or it is the settlement itself,
    run after the checks. *)
Theorem pay_at_or_below_threshold_settles (user : User) (to_address : string)
    (amount : float) (memo : option string) (w : World) :
  (threshold_of user <? amount)%float = false ->
  let run := pay env user to_address amount memo w in
  pending_payments (snd run) = pending_payments w
  /\ ((exists e, fst run = Err e /\ same_store w (snd run))
      \/ exists w1,
           same_store w w1 /\ ticks w1 = S (ticks w)
           /\ run = _execute_payment env user to_address amount memo w1).
Proof.
  intros Hthr. cbv zeta.
  apply (pay_outcome user to_address amount memo w
           (fun run =>
              pending_payments (snd run) = pending_payments w
              /\ ((exists e, fst run = Err e /\ same_store w (snd run))
                  \/ exists w1,
                       same_store w w1 /\ ticks w1 = S (ticks w)
                       /\ run = _execute_payment env user to_address amount memo w1))).
  - intros e w1 Hsame _. split; [apply Hsame |]. left. exists e. auto.
  - intros Habove. rewrite Hthr in Habove. discriminate.
  - intros _ w1 Hsame Hticks _. split.
    + destruct (execute_payment_outflow user to_address amount memo w1) as [Hp _].
      rewrite Hp. apply Hsame.
    + right. exists w1. auto.
Qed.

(** *** What is submitted *)

Lemma transfer_calldata_layout to amount data :
  encode_transfer to amount = Ok data ->
  exists units a,
    raw_units amount = Ok units /\ address_bytes to = Ok a
    /\ data = hexstr (transfer_call a units).
Proof.
  unfold encode_transfer. intros Hrun.
  apply bindR_ok in Hrun as (_usdc & _ & Hrun).
  apply bindR_ok in Hrun as (units & Hu & Hrun).
  apply checksummed_bytes in Hrun as (a & Ha & Hrun).
  exists units, a. split; [exact Hu |]. split; [exact Ha | apply encode_call_ok, Hrun].
Qed.

Lemma execute_calldata_layout to data call_data :
  encode_execute to 0 data = Ok call_data ->
  is_execute to data call_data.
Proof.
  unfold encode_execute. intros Hrun.
  apply bindR_ok in Hrun as (func & Hf & Hrun).
  apply checksummed_bytes in Hrun as (a & Ha & Hrun).
  exists a, func. split; [exact Ha |]. split; [exact Hf | apply encode_call_ok, Hrun].
Qed.

Lemma transfer_layout to amount inner call_data :
  encode_transfer to amount = Ok inner ->
  encode_execute USDC_CONTRACT_ADDRESS 0 inner = Ok call_data ->
  is_transfer to amount call_data.
Proof.
  intros Hin Hout.
  apply transfer_calldata_layout in Hin as (units & a & Hu & Ha & ->).
  apply execute_calldata_layout in Hout as (usdc_b & func & Husdc & Hf & ->).
  rewrite data_bytes_hexstr in Hf. injection Hf as <-.
  exists units, usdc_b, a. auto.
Qed.

Lemma records_quiet uid kind amount from to memo hash uoh status ev data {A} (res : A) :
  keeps no_submission
    (insert_transaction env uid kind amount from to memo hash uoh status ;;;
     insert_event uid ev data ;;; ret res).
Proof.
  unfold insert_transaction, insert_event, fresh_id. keeps_with ltac:(quiet_same).
Qed.

Lemma execute_payment_traced user to_address amount memo :
  traced (_execute_payment env user to_address amount memo)
         (one_submission (is_transfer to_address amount)).
Proof.
  unfold _execute_payment.
  apply traced_after_quiet; [keeps_with fail | intros w0 sender w1 _ | left; auto].
  apply traced_after_quiet;
    [apply build_transaction_quiet | intros w2 inner w3 Hin | left; auto].
  apply traced_after_quiet;
    [apply build_transaction_quiet | intros w4 call_data w5 Hout | left; auto].
  apply build_transaction_ok in Hin as (Hin & _), Hout as (Hout & _).
  apply traced_then_quiet.
  - apply submit_user_op_traced. exact (transfer_layout _ _ _ _ Hin Hout).
  - intros submitted. apply records_quiet.
Qed.


Lemma withdraw_traced user to_address amount memo :
  traced (withdraw env user to_address amount memo)
         (one_submission (is_transfer to_address amount)).
Proof.
  unfold withdraw.
  apply traced_after_quiet; [keeps_with fail | intros w0 sender w1 _ | left; auto].
  apply traced_after_quiet;
    [unfold _check_limits; keeps_with ltac:(quiet_same) | intros w2 [] w3 _ | left; auto].
  apply traced_after_quiet; [keeps_with fail | intros w4 sender' w5 _ | left; auto].
  apply traced_after_quiet;
    [ unfold get_balance; keeps_with ltac:(apply log_quiet; reflexivity)
    | intros w6 balance w7 _ | left; auto ].
  destruct (balance <? amount)%float; [apply traced_raise; left; auto |].
  apply traced_after_quiet;
    [apply build_transaction_quiet | intros w8 inner w9 Hin | left; auto].
  apply traced_after_quiet;
    [apply build_transaction_quiet | intros w10 call_data w11 Hout | left; auto].
  apply build_transaction_ok in Hin as (Hin & _), Hout as (Hout & _).
  apply traced_then_quiet.
  - apply submit_user_op_traced. exact (transfer_layout _ _ _ _ Hin Hout).
  - intros submitted. apply records_quiet.
Qed.

(** X9.  A payment or a withdrawal only adds calls to the log and submits at
    most one operation.  The operation goes to the entry point and makes
    the account call the token's transfer of the amount, truncated to base
    units, to the destination.  Nothing is submitted only when the call
    fails or, for a payment, waits for confirmation; a completed payment
    and a returned withdrawal have submitted exactly one. *)
Theorem spending_submits_one_transfer (user : User) (to_address : string)
    (amount : float) (memo : option string) (w : World) :
  (let run := pay env user to_address amount memo w in
   exists new,
     calls (snd run) = calls w ++ new
     /\ ((submissions new = []
          /\ forall tx_hash user_op_hash from to amt,
               fst run <> Ok (Completed tx_hash user_op_hash from to amt))
         \/ exists op call_data,
              submissions new = [[POp op; PVal (PStr ENTRYPOINT_ADDRESS)]]
              /\ op !! "callData" = Some (PStr call_data)
              /\ is_transfer to_address amount call_data))
  /\ (let run := withdraw env user to_address amount memo w in
      exists new,
        calls (snd run) = calls w ++ new
        /\ ((submissions new = [] /\ is_ok (fst run) = false)
            \/ exists op call_data,
                 submissions new = [[POp op; PVal (PStr ENTRYPOINT_ADDRESS)]]
                 /\ op !! "callData" = Some (PStr call_data)
                 /\ is_transfer to_address amount call_data)).
Proof.
  split; [| exact (withdraw_traced user to_address amount memo w)].
  cbv zeta.
  apply (pay_outcome user to_address amount memo w
           (fun run =>
              exists new,
                calls (snd run) = calls w ++ new
                /\ ((submissions new = []
                     /\ forall tx_hash user_op_hash from to amt,
                          fst run <> Ok (Completed tx_hash user_op_hash from to amt))
                    \/ exists op call_data,
                         submissions new = [[POp op; PVal (PStr ENTRYPOINT_ADDRESS)]]
                         /\ op !! "callData" = Some (PStr call_data)
                         /\ is_transfer to_address amount call_data))).
  - intros e w1 _ (new & E & S). exists new. split; [exact E |]. left.
    split; [exact S | discriminate].
  - intros _ id expires w' (new & E & S) _. exists new. split; [exact E |]. left.
    split; [exact S | discriminate].
  - intros _ w1 _ _ (n1 & E1 & S1).
    destruct (execute_payment_traced user to_address amount memo w1) as (n2 & E2 & Hone).
    exists (n1 ++ n2). rewrite E2, E1, app_assoc. split; [reflexivity |].
    rewrite submissions_app, S1. simpl.
    destruct Hone as [[Hnone Hbad] | Hone]; [left | right; exact Hone].
    split; [exact Hnone |]. intros tx_hash user_op_hash from to amt Hok.
    rewrite Hok in Hbad. discriminate.
Qed.


Ltac unread := solve [intro; quiet].

Lemma submit_user_op_reads_no_balance user call_data :
  keeps no_balance_read (_submit_user_op env user call_data).
Proof.
  assert (forall rounds h timeout interval elapsed,
            keeps no_balance_read (wait_loop env rounds h timeout interval elapsed))
    as Hwait.
  { induction rounds as [| rounds IH]; intros h timeout interval elapsed; simpl.
    - keeps_with fail.
    - unfold poll_once, on_runtime_error, _rpc.
      keeps_with ltac:(first [apply IH | unread]). }
  unfold _submit_user_op, build_user_operation, get_nonce, create_account_calldata,
    build_transaction, BundlerClient, sponsor_user_op,
    _get_gas_price, sign_message, send_user_op, wait_for_receipt, _rpc.
  keeps_with ltac:(first [apply Hwait | unread]).
Qed.

Lemma contract_call_traced user contract_address calldata :
  traced (contract_call env user contract_address calldata)
         (one_submission (is_execute contract_address calldata)).
Proof.
  unfold contract_call.
  apply traced_after_quiet; [keeps_with fail | intros w0 sender w1 _ | left; auto].
  apply traced_after_quiet;
    [apply build_transaction_quiet | intros w2 call_data w3 Hcd | left; auto].
  apply build_transaction_ok in Hcd as (Hcd & _).
  apply traced_then_quiet.
  - apply submit_user_op_traced. exact (execute_calldata_layout _ _ _ Hcd).
  - intros submitted. apply records_quiet.
Qed.

(** X10.  A contract call reads no balance and checks no limit.  It submits at
    most one operation, exactly one when it returns, which makes the
    account call the given contract with value zero and the bytes the
    caller's calldata spells.  A failure records nothing; a success records
    one contract_call row of amount zero. *)
Theorem contract_call_submits_the_call (user : User) (contract_address calldata : string)
    (w : World) :
  let run := contract_call env user contract_address calldata w in
  exists new,
    calls (snd run) = calls w ++ new
    /\ (forall address, ~ In (GetBalance address) new)
    /\ ((submissions new = [] /\ is_ok (fst run) = false)
        \/ exists op call_data,
             submissions new = [[POp op; PVal (PStr ENTRYPOINT_ADDRESS)]]
             /\ op !! "callData" = Some (PStr call_data)
             /\ is_execute contract_address calldata call_data)
    /\ match fst run with
       | Err _ => transactions (snd run) = transactions w
       | Ok _ =>
           exists row,
             transactions (snd run) = transactions w ++ [row]
             /\ tx_user_id row = user_id user /\ tx_kind row = TContractCall
             /\ tx_amount row = 0%float /\ tx_to_address row = contract_address
       end.
Proof.
  cbv zeta.
  destruct (contract_call_traced user contract_address calldata w) as (new & E & Hone).
  exists new. split; [exact E |]. split; [| split; [exact Hone |]].
  - assert (keeps no_balance_read (contract_call env user contract_address calldata))
      as Hquiet.
    { unfold contract_call, build_execute_calldata, build_transaction,
        insert_transaction, insert_event, fresh_id.
      keeps_with ltac:(first [apply submit_user_op_reads_no_balance | unread]). }
    destruct (Hquiet w) as (new' & E' & Hno).
    rewrite E in E'. apply app_inv_head in E'. subst new'.
    intros address Hin.
    assert (existsb (fun c => match c with GetBalance _ => true | _ => false end) new = true)
      as Hyes by (apply existsb_exists; exists (GetBalance address); auto).
    rewrite Hno in Hyes. discriminate.
  - destruct (contract_call_outflow user contract_address calldata w) as [_ Hm].
    destruct (fst _); [| exact Hm].
    destruct Hm as (_ & row & Hrow & Hu & Hk & Ha & Ht & _). exists row. auto.
Qed.

End WithLib.
End OutflowFacts.

(** ** The sweep of expired pending payments *)
Module CleanupFacts.
Import Py Store Payment Outflow Cleanup Trace MonadFacts ConfirmFacts OutflowFacts.

Lemma expire_cases t p :
  expire t p = p
  \/ (pp_status p = Pending /\ pp_expires_at p < t /\ expire t p = with_status Expired p).
Proof.
  unfold expire, overdue.
  destruct (payment_status_eqb (pp_status p) Pending) eqn:Hs; simpl; [| left; reflexivity].
  destruct (pp_expires_at p <? t) eqn:Ht; [| left; reflexivity].
  right. apply Z.ltb_lt in Ht.
  destruct (pp_status p); try discriminate. auto.
Qed.

Lemma expire_not_overdue t p : pp_status (expire t p) = Pending -> t <= pp_expires_at p.
Proof.
  unfold expire, overdue.
  destruct (payment_status_eqb (pp_status p) Pending) eqn:Hs; simpl.
  - destruct (pp_expires_at p <? t) eqn:Ht; simpl; [discriminate |].
    intros _. apply Z.ltb_ge in Ht. exact Ht.
  - intros Hp. rewrite Hp in Hs. discriminate.
Qed.

Section WithLib.
Context `{Hash} `{Config} (env : Env).

Lemma cleanup_run w :
  expired_payment_cleanup env w
  = (Ok tt, set_pending (map (expire (clock env (ticks w)))) (snd (now env w))).
Proof. reflexivity. Qed.

(** X11.  One sweep, at the instant [t] it reads from the clock, returns normally
    and changes nothing but the status of pending payments: each row is
    either left exactly as it was, or it was pending with an expiry before
    [t] and is now expired.  Afterwards no pending row has an expiry before
    [t].  No transaction, event or outside call is made. *)
Theorem cleanup_expires_overdue_payments (w : World) :
  let run := expired_payment_cleanup env w in
  let t := clock env (ticks w) in
  fst run = Ok tt
  /\ Forall2 (fun p q =>
                q = p
                \/ (pp_status p = Pending /\ pp_expires_at p < t
                    /\ q = with_status Expired p))
             (pending_payments w) (pending_payments (snd run))
  /\ Forall (fun q => pp_status q = Pending -> t <= pp_expires_at q)
            (pending_payments (snd run))
  /\ transactions (snd run) = transactions w
  /\ events (snd run) = events w
  /\ calls (snd run) = calls w.
Proof.
  cbv zeta. rewrite cleanup_run. simpl.
  split; [reflexivity |]. split; [| split; [| auto]].
  - induction (pending_payments w) as [| p ps IH]; simpl; constructor; [| exact IH].
    destruct (expire_cases (clock env (ticks w)) p) as [-> | (Hs & Ht & ->)]; auto.
  - induction (pending_payments w) as [| p ps IH]; simpl; constructor; [| exact IH].
    intros Hp. pose proof (expire_not_overdue _ _ Hp) as Hle.
    destruct (expire_cases (clock env (ticks w)) p) as [-> | (Hs & Ht & E)]; [exact Hle | lia].
Qed.

(** X12.  A payment the sweep has expired is no longer found: where a
    confirmation before the sweep would have answered "expired", after it
    both confirmation and cancellation answer "not found", and they leave
    the world as it is. *)
Theorem swept_payment_is_not_found (user : User) (payment_id : nat) (w : World) :
  (forall p, In p (pending_payments w) ->
     pp_id p = payment_id -> pp_status p = Pending ->
     pp_expires_at p < clock env (ticks w)) ->
  let w1 := snd (expired_payment_cleanup env w) in
  confirm_payment env user payment_id w1 = (Err not_found, w1)
  /\ cancel_payment user payment_id w1 = (Err not_found, w1).
Proof.
  intros Hdue w1.
  assert (selected user payment_id w1 = []) as Hnone.
  { apply selected_none. intros q Hq Hid _ Hst.
    subst w1. rewrite cleanup_run in Hq. simpl in Hq.
    apply in_map_iff in Hq as (p & <- & Hp).
    pose proof (expire_not_overdue _ _ Hst) as Hle.
    destruct (expire_cases (clock env (ticks w)) p) as [E | (Hs & Ht & E)].
    - rewrite E in Hid, Hst. specialize (Hdue p Hp Hid Hst). lia.
    - rewrite E in Hst. discriminate. }
  split; [apply confirm_not_found, Hnone | apply cancel_not_found, Hnone].
Qed.

End WithLib.
End CleanupFacts.

(** ** The requests that move funds *)
Module RoutesFacts.
Import Py Store Payment Api Outflow Routes Trace MonadFacts.

Section WithLib.
Context `{Hash} `{Config} (env : Env).

(** X13.  A withdrawal or an escrow deposit request whose amount is not positive
    is turned down by the request model before the handler runs: the answer
    is a validation error and the world is untouched. *)
Theorem outflow_endpoints_reject_non_positive_amounts (user : User) (w : World) :
  (forall body,
     coefficient (withdraw_amount body) <= 0 ->
     withdraw_endpoint env body user w = (Err (RequestValidationError "amount"), w))
  /\ (forall body,
        coefficient (escrow_amount body) <= 0 ->
        escrow_deposit_endpoint env body user w
        = (Err (RequestValidationError "amount"), w)).
Proof.
  split; intros body Hle.
  - unfold withdraw_endpoint, positive.
    destruct (0 <? coefficient (withdraw_amount body)) eqn:Hpos; [lia | reflexivity].
  - unfold escrow_deposit_endpoint, positive.
    destruct (0 <? coefficient (escrow_amount body)) eqn:Hpos; [lia | reflexivity].
Qed.

End WithLib.
End RoutesFacts.

(** ** Outflows and the sweep on the scripted world *)
Module OutflowExamples.
Import Py Abi Store Usdc Builder Bundler Payment Outflow Ledger Cleanup Trace Scenario Cases
       OutflowFacts CleanupFacts.

(** Alice cancels her waiting payment; she can then neither confirm it nor
    cancel it again. *)
Lemma cancelled_payment_is_final_witness :
  let w1 := snd (cancel_payment alice 0 (with_payment waiting)) in
  confirm_payment (H0 := testnet) env alice 0 w1 = (Err not_found, w1)
  /\ cancel_payment alice 0 w1 = (Err not_found, w1).
Proof.
  apply (cancelled_payment_is_final (H0 := testnet) env alice alice 0 (with_payment waiting) _
           (CancelledPayment 0)).
  vm_compute. reflexivity.
Defined.

(** Eight more units on a day on which forty-five were spent, against the
    default daily limit of fifty. *)
Lemma spending_over_daily_limit_witness :
  exists w',
    pay (H0 := testnet) env alice bob 8 None after_spending
      = (Err (over_daily_limit 50 45), w')
    /\ withdraw (H0 := testnet) env alice bob 8 None after_spending
       = (Err (over_daily_limit 50 45), w')
    /\ same_store after_spending w' /\ calls w' = calls after_spending
    /\ users w' = users after_spending.
Proof.
  apply (spending_over_daily_limit (H0 := testnet) env alice bob 8 None after_spending
           "0x91E60e0613810449d098b0b5Ec8b51A0FE8c8985");
    vm_compute; reflexivity.
Defined.

(** Three units against a balance of one. *)
Lemma spending_over_balance_witness :
  exists w',
    pay (H0 := testnet) low_balance alice bob 3 None start
      = (Err (insufficient_balance 1 3), w')
    /\ withdraw (H0 := testnet) low_balance alice bob 3 None start
       = (Err (insufficient_balance 1 3), w')
    /\ same_store start w'
    /\ calls w' = calls start ++ [GetBalance "0x91E60e0613810449d098b0b5Ec8b51A0FE8c8985"].
Proof.
  apply (spending_over_balance (H0 := testnet) low_balance alice bob 3 None start
           "0x91E60e0613810449d098b0b5Ec8b51A0FE8c8985"
           "0x036CbD53842c5426634e7929541eC2318f3dCF7e"
           "0x91E60e0613810449d098b0b5Ec8b51A0FE8c8985" 1);
    vm_compute; reflexivity.
Defined.

(** Alice's payment of three units, counted from the epoch on. *)
Lemma settled_spending_counts_toward_daily_total_witness :
  let run := pay (H0 := testnet) env alice bob 3 None start in
  exists row,
    Permutation
      (filter (fun tx => spent_today_row 1 0 tx = true) (transactions (snd run)))
      (row :: filter (fun tx => spent_today_row 1 0 tx = true) (transactions start))
    /\ tx_user_id row = 1%nat /\ tx_amount row = 3%float
    /\ tx_created_at row = clock env 1.
Proof.
  cbv zeta.
  refine (proj1 (settled_spending_counts_toward_daily_total (H0 := testnet) env alice bob 3
                   None start 0 _)
                (PStr "0xabc") (PStr "0xuserop")
                "0x91E60e0613810449d098b0b5Ec8b51A0FE8c8985" bob 3%float _ _).
  - vm_compute. discriminate.
  - vm_compute. reflexivity.
Defined.

(** Three units, below the default threshold of five. *)
Lemma pay_at_or_below_threshold_settles_witness :
  let run := pay (H0 := testnet) env alice bob 3 None start in
  pending_payments (snd run) = pending_payments start
  /\ ((exists e, fst run = Err e /\ same_store start (snd run))
      \/ exists w1,
           same_store start w1 /\ ticks w1 = S (ticks start)
           /\ run = _execute_payment (H0 := testnet) env alice bob 3 None w1).
Proof.
  apply (pay_at_or_below_threshold_settles (H0 := testnet) env alice bob 3 None start).
  reflexivity.
Defined.

(** Alice's overdue payment, swept and then confirmed. *)
Lemma swept_payment_is_not_found_witness :
  let w1 := snd (expired_payment_cleanup env (with_payment overdue_payment)) in
  confirm_payment (H0 := testnet) env alice 0 w1 = (Err not_found, w1)
  /\ cancel_payment alice 0 w1 = (Err not_found, w1).
Proof.
  apply (swept_payment_is_not_found (H0 := testnet) env alice 0 (with_payment overdue_payment)).
  intros p [<- | []] _ _. vm_compute. reflexivity.
Defined.

(** The runs the properties speak of do happen on the scripted world: a
    payment and a withdrawal of three units complete and record one row
    each, and a contract call records a row of amount zero. *)
Example outflows_complete :
  let paid := pay (H0 := testnet) env alice bob 3 None start in
  let withdrawn := withdraw (H0 := testnet) env alice bob 3 None start in
  let called := contract_call (H0 := testnet) env alice bob "0xa9059cbb" start in
  is_ok (fst paid) = true /\ map tx_kind (transactions (snd paid)) = [TPayment]
  /\ is_ok (fst withdrawn) = true
  /\ map tx_kind (transactions (snd withdrawn)) = [TWithdrawal]
  /\ is_ok (fst called) = true
  /\ map tx_kind (transactions (snd called)) = [TContractCall]
  /\ map tx_memo (transactions (snd called)) = [Some "contract_call:0xa9059cbb..."].
Proof.
  cbv zeta. repeat (split; [vm_compute; reflexivity |]). vm_compute. reflexivity.
Qed.

End OutflowExamples.

(** ** The builder and the hash, together *)
Module BuilderFacts.
Import Py Abi Store Usdc Builder Bundler Trace MonadFacts FrameFacts BundlerFacts
       HashFacts EscrowFacts.

(** *** Numbers written as hex and read back *)

Lemma hexchar_digit d :
  0 <= d < 16 ->
  hexval (hexchar d) = Some d
  /\ Ascii.eqb (hexchar d) "_" = false
  /\ is_space (hexchar d) = false.
Proof.
  intros Hd.
  assert (d = 0 \/ d = 1 \/ d = 2 \/ d = 3 \/ d = 4 \/ d = 5 \/ d = 6 \/ d = 7 \/ d = 8
          \/ d = 9 \/ d = 10 \/ d = 11 \/ d = 12 \/ d = 13 \/ d = 14 \/ d = 15) as Hcases
    by lia.
  repeat (destruct Hcases as [-> | Hcases]; [vm_compute; auto |]).
  subst d. vm_compute. auto.
Qed.

(** The digits [hex] writes for [n], most significant first, in front of
    [acc]; read back by [int], they give [n]. *)
Lemma hex_digits_of_spec k : forall n acc,
  0 <= n < 16 ^ (Z.of_nat k + 1) ->
  exists ds,
    list_ascii_of_string (hex_digits_of (S k) n acc) = ds ++ list_ascii_of_string acc
    /\ Forall (fun c => is_space c = false) ds
    /\ (exists c rest, ds = c :: rest /\ Ascii.eqb c "_" = false)
    /\ forall a flag tail,
         digits16 a flag (ds ++ tail)
         = digits16 (a * 16 ^ Z.of_nat (length ds) + n) true tail.
Proof.
  assert (forall n acc, 0 <= n -> n / 16 = 0 ->
            exists ds,
              list_ascii_of_string (String (hexchar (n mod 16)) acc)
              = ds ++ list_ascii_of_string acc
              /\ Forall (fun c => is_space c = false) ds
              /\ (exists c rest, ds = c :: rest /\ Ascii.eqb c "_" = false)
              /\ forall a flag tail,
                   digits16 a flag (ds ++ tail)
                   = digits16 (a * 16 ^ Z.of_nat (length ds) + n) true tail) as Hone.
  { intros n acc Hn Hq.
    destruct (hexchar_digit (n mod 16) ltac:(apply Z.mod_pos_bound; lia))
      as (Hv & Hu & Hsp).
    exists [hexchar (n mod 16)]. split; [reflexivity |].
    split; [constructor; [exact Hsp | constructor] |].
    split; [eauto |].
    intros a flag tail. simpl. rewrite Hu, Hv. f_equal.
    rewrite (Z.div_mod n 16) at 2 by lia. rewrite Hq. lia. }
  induction k as [| k IH]; intros n acc Hn.
  - simpl. assert (n / 16 = 0) as Hq by (apply Z.div_small; simpl in Hn; lia).
    rewrite Hq. simpl. apply Hone; lia.
  - assert (hex_digits_of (S (S k)) n acc
            = if n / 16 =? 0 then String (hexchar (n mod 16)) acc
              else hex_digits_of (S k) (n / 16) (String (hexchar (n mod 16)) acc)) as ->
      by reflexivity.
    destruct (n / 16 =? 0) eqn:Hq.
    + apply Z.eqb_eq in Hq. apply Hone; lia.
    + apply Z.eqb_neq in Hq.
      assert (0 <= n / 16 < 16 ^ (Z.of_nat k + 1)) as Hn'.
      { split; [apply Z.div_pos; lia |].
        apply Z.div_lt_upper_bound; [lia |].
        replace (Z.of_nat (S k) + 1) with (Z.succ (Z.of_nat k + 1)) in Hn by lia.
        rewrite Z.pow_succ_r in Hn by lia. lia. }
      destruct (IH (n / 16) (String (hexchar (n mod 16)) acc) Hn')
        as (ds & Hds & Hsp & (c & rest & Hc & Hu) & Hread).
      destruct (hexchar_digit (n mod 16) ltac:(apply Z.mod_pos_bound; lia))
        as (Hv0 & Hu0 & Hsp0).
      exists (ds ++ [hexchar (n mod 16)]). split; [| split; [| split]].
      * rewrite Hds. simpl. rewrite <- app_assoc. reflexivity.
      * apply Forall_app. split; [exact Hsp | constructor; [exact Hsp0 | constructor]].
      * subst ds. exists c, (rest ++ [hexchar (n mod 16)]). split; [reflexivity | exact Hu].
      * intros a flag tail. rewrite <- app_assoc. rewrite Hread. simpl.
        rewrite Hu0, Hv0. f_equal.
        rewrite length_app. simpl.
        replace (Z.of_nat (length ds + 1)) with (Z.succ (Z.of_nat (length ds))) by lia.
        rewrite Z.pow_succ_r by lia.
        rewrite (Z.div_mod n 16) at 3 by lia. lia.
Qed.

Lemma lstrip_no_space l :
  Forall (fun c => is_space c = false) l -> lstrip l = l.
Proof. intros Hl. destruct Hl as [| c l Hc _]; simpl; [reflexivity | rewrite Hc; reflexivity]. Qed.

Lemma strip_no_space l :
  Forall (fun c => is_space c = false) l -> strip l = l.
Proof.
  intros Hl. unfold strip. rewrite (lstrip_no_space l Hl).
  rewrite lstrip_no_space.
  - apply rev_involutive.
  - apply Forall_forall. intros c Hc. rewrite Forall_forall in Hl.
    apply Hl. apply list_elem_of_In. apply list_elem_of_In in Hc.
    apply in_rev. exact Hc.
Qed.

Lemma skip_underscore c (rest : list ascii) :
  Ascii.eqb c "_" = false ->
  match c :: rest with
  | "_"%char :: r' => r'
  | _ => c :: rest
  end = c :: rest.
Proof.
  destruct c as [[] [] [] [] [] [] [] []]; intros Hu; try reflexivity; discriminate.
Qed.

Lemma int_of_hex_digits (n : Z) : _hex_to_int (PStr (hex n)) = Ok n.
Proof.
  unfold _hex_to_int, hex.
  set (fuel := Z.to_nat (Z.log2 (Z.abs n))).
  assert (0 <= Z.abs n < 16 ^ (Z.of_nat fuel + 1)) as Hn.
  { split; [lia |]. subst fuel. rewrite Z2Nat.id by apply Z.log2_nonneg.
    destruct (Z.eq_dec (Z.abs n) 0) as [-> | Hnz]; [simpl; lia |].
    pose proof (Z.log2_spec (Z.abs n) ltac:(lia)) as [_ Hup].
    eapply Z.lt_le_trans; [exact Hup |].
    replace (Z.succ (Z.log2 (Z.abs n))) with (Z.log2 (Z.abs n) + 1) by lia.
    change 16 with (2 ^ 4). rewrite <- Z.pow_mul_r by (pose proof (Z.log2_nonneg (Z.abs n)); lia).
    apply Z.pow_le_mono_r; pose proof (Z.log2_nonneg (Z.abs n)); lia. }
  destruct (hex_digits_of_spec fuel (Z.abs n) EmptyString Hn)
    as (ds & Hds & Hsp & (c & rest & Hc & Hu) & Hread).
  change (list_ascii_of_string "") with (@nil ascii) in Hds. rewrite app_nil_r in Hds.
  specialize (Hread 0 false []). rewrite app_nil_r, Z.mul_0_l, Z.add_0_l in Hread.
  unfold int16.
  destruct (n <? 0) eqn:Hneg.
  - cbn [list_ascii_of_string]. rewrite Hds.
    rewrite strip_no_space
      by (repeat (constructor; [reflexivity |]); exact Hsp).
    cbn beta iota. rewrite Hc, (skip_underscore c rest Hu), <- Hc.
    rewrite Hread. apply Z.ltb_lt in Hneg. simpl. f_equal. lia.
  - cbn [list_ascii_of_string]. rewrite Hds.
    rewrite strip_no_space
      by (repeat (constructor; [reflexivity |]); exact Hsp).
    cbn beta iota. rewrite Hc, (skip_underscore c rest Hu), <- Hc.
    rewrite Hread. apply Z.ltb_ge in Hneg. simpl. f_equal. lia.
Qed.

(** X14.  What [hex] writes, [int(_, 16)] reads back, for every integer, negative
    ones included: the nonce the builder puts into the operation is the
    nonce the hash packs. *)
Theorem hex_to_int_of_hex (n : Z) : _hex_to_int (PStr (hex n)) = Ok n.
Proof. apply int_of_hex_digits. Qed.


(** *** A fresh operation, read as the record the hash is specified on *)

Section WithLib.
Context `{Hash} `{Config} (env : Env).

Lemma checksum_is_address a : length a = 20%nat -> is_address (checksum_encode a) = true.
Proof.
  intros Hlen. unfold is_address. rewrite (address_bytes_checksum a Hlen). reflexivity.
Qed.

Lemma checksum_fromhex a :
  length a = 20%nat -> fromhex (remove_0x (checksum_encode a)) = Ok a.
Proof.
  intros Hlen. unfold checksum_encode.
  set (body := string_of_list_ascii _).
  assert (spells a body) as Hsp by apply checksum_case_spells.
  assert (remove_0x body = body) as Hbody.
  { clear Hlen. revert Hsp. generalize body. clear body.
    induction a as [| b bs IH]; intros body Hsp; inversion Hsp as [| ? ? c1 c2 s H1 H2 Hs];
      subst; [reflexivity |].
    destruct (byte_digits b c1 c2 H1 H2) as (_ & _ & _ & _ & Hx1 & Hx2).
    cbn [remove_0x]. rewrite Hx2, andb_false_r. f_equal.
    specialize (IH s Hs).
    destruct s as [| d1 s']; [reflexivity |].
    inversion Hs as [| b' ? d1' d2 s'' H1' H2' Hs']; subst.
    destruct (byte_digits b' d1 d2 H1' H2') as (_ & _ & _ & _ & Hy1 & _).
    cbn [remove_0x]. rewrite Hy1, andb_false_r. f_equal. exact IH. }
  cbn [remove_0x]. destruct body as [| c rest] eqn:E.
  - destruct a; [reflexivity | inversion Hsp].
  - simpl (Ascii.eqb "0" "0" && Ascii.eqb "x" "x"). cbv iota.
    rewrite Hbody. apply spells_fromhex. exact Hsp.
Qed.


Lemma hex_to_bytes_hexstr bs : _hex_to_bytes (PStr (hexstr bs)) = Ok bs.
Proof.
  unfold _hex_to_bytes.
  assert (truthy (PStr (hexstr bs)) = true) as -> by reflexivity.
  destruct bs as [| b bs]; [reflexivity |].
  assert (is_str "0x" (PStr (hexstr (b :: bs))) = false) as -> by reflexivity.
  pose proof (data_bytes_hexstr (b :: bs)) as Hd. unfold data_bytes in Hd.
  assert (String.eqb (hexstr (b :: bs)) "" = false) as E by reflexivity.
  rewrite E in Hd. exact Hd.
Qed.

Lemma hex_to_bytes_checksum a :
  length a = 20%nat -> _hex_to_bytes (PStr (checksum_encode a)) = Ok a.
Proof.
  intros Hlen. unfold _hex_to_bytes.
  assert (truthy (PStr (checksum_encode a)) = true) as -> by reflexivity.
  assert (is_str "0x" (PStr (checksum_encode a)) = false) as ->.
  { unfold is_str, checksum_encode.
    set (body := string_of_list_ascii _).
    assert (spells a body) as Hsp by apply checksum_case_spells.
    apply spells_length in Hsp. rewrite Hlen in Hsp.
    destruct body; [discriminate | reflexivity]. }
  simpl. apply checksum_fromhex. exact Hlen.
Qed.

Lemma rev_spells_zero a :
  length a = 20%nat -> checksum_encode a = zero_address -> a = repeat x00 20.
Proof.
  intros Hlen Hz. pose proof (address_bytes_checksum a Hlen) as Ha.
  rewrite Hz in Ha. vm_compute in Ha. injection Ha as <-. reflexivity.
Qed.

Ltac field_of_fresh :=
  match goal with |- ?o !! _ = _ => unfold o end;
  rewrite ?lookup_insert_ne by discriminate; apply lookup_insert_eq.

(** X15.  The operation [build_user_operation] returns reads as the record the
    hash is specified on: the sender's twenty bytes, the nonce the entry
    point reported, no init payload for a deployed account and the factory
    followed by createAccount(owner, salt) for an undeployed one, the
    caller's calldata, every gas and fee field zero, and no paymaster.  The
    outside calls are the nonce read and, for an undeployed account, the
    chain id request that building the createAccount call makes. *)
Theorem fresh_operation_reads_as (sender call_data : string) (is_deployed : bool)
    (owner : string) (salt : Z) (w w' : World) (op : gmap string pyval)
    (cd : list byte) :
  build_user_operation env sender call_data is_deployed owner salt w = (Ok op, w') ->
  _hex_to_bytes (PStr call_data) = Ok cd ->
  exists s nonce,
    address_bytes sender = Ok s
    /\ entrypoint_nonce env (checksum_encode s) = Ok nonce
    /\ calls w' = calls w ++ GetNonce (checksum_encode s)
                              :: (if is_deployed then [] else [ChainId])
    /\ (is_deployed = false -> is_ok (eth_chain_id env) = true)
    /\ exists init,
         Wire.of_dict op
         = Ok {| OperationSpec.sender := s; OperationSpec.nonce := nonce;
                 OperationSpec.factory := init; OperationSpec.callData := cd;
                 OperationSpec.verificationGasLimit := 0;
                 OperationSpec.callGasLimit := 0;
                 OperationSpec.preVerificationGas := 0;
                 OperationSpec.maxPriorityFeePerGas := 0;
                 OperationSpec.maxFeePerGas := 0;
                 OperationSpec.paymaster := None;
                 OperationSpec.signature := Some (PStr dummy_signature) |}
         /\ (is_deployed = true -> init = None)
         /\ (is_deployed = false ->
             forall f o,
               address_bytes SIMPLE_ACCOUNT_FACTORY = Ok f -> f <> repeat x00 20 ->
               address_bytes owner = Ok o ->
               init = Some (f, selector "createAccount(address,uint256)"
                               ++ tuple [Address o; Uint256 salt])).
Proof.
  intros Hrun Hcd. unfold build_user_operation in Hrun.
  apply bind_inv_ok in Hrun as (nonce & w1 & Hnonce & Hrun).
  apply bind_inv_ok in Hrun as (fd & w2 & Hfd & Hrun).
  apply bind_inv_ok in Hrun as (c & w3 & Hc & Hrun).
  apply bind_inv_ok in Hrun as (f & w4 & Hf & Hrun).
  unfold ret in Hrun. injection Hrun as <- <-.
  (* the nonce read *)
  unfold get_nonce in Hnonce.
  apply bind_inv_ok in Hnonce as (ep & w5 & Hep & Hnonce).
  apply SettlementFacts.lift_run in Hep as [_ ->].
  apply bind_inv_ok in Hnonce as (c' & w6 & Hc' & Hnonce).
  pose proof Hc' as Hc''. apply lift_ok in Hc''.
  apply SettlementFacts.lift_run in Hc' as [_ ->].
  apply bind_inv_ok in Hnonce as ([] & w7 & Hlog & Hnonce).
  unfold log, modify in Hlog. injection Hlog as <-.
  unfold lift in Hnonce. injection Hnonce as Hn <-.
  pose proof Hc as Hcs. apply lift_ok in Hcs.
  apply SettlementFacts.lift_run in Hc as [_ ->].
  rewrite Hc'' in Hcs. injection Hcs as ->.
  unfold to_checksum_address in Hc''.
  apply bindR_ok in Hc'' as (s & Hs & Hcs). injection Hcs as <-.
  pose proof (address_bytes_length _ _ Hs) as Hlen.
  exists s, nonce. split; [exact Hs |]. split; [exact Hn |].
  assert (calls w4 = calls w ++ GetNonce (checksum_encode s)
                                :: (if is_deployed then [] else [ChainId])) as Hcalls.
  { destruct is_deployed.
    - unfold ret in Hfd. injection Hfd as _ <-.
      simpl in Hf. unfold ret in Hf. injection Hf as _ <-. reflexivity.
    - unfold create_account_calldata in Hfd.
      apply (build_transaction_ok env) in Hfd as (_ & _ & ->).
      destruct (String.eqb SIMPLE_ACCOUNT_FACTORY zero_address).
      + unfold ret in Hf. injection Hf as _ <-. simpl. rewrite <- app_assoc. reflexivity.
      + apply bind_inv_ok in Hf as (fc & w8 & Hfc & Hf).
        apply SettlementFacts.lift_run in Hfc as [_ ->].
        unfold ret in Hf. injection Hf as _ <-. simpl. rewrite <- app_assoc. reflexivity. }
  split; [exact Hcalls |].
  split.
  { intros ->. unfold create_account_calldata in Hfd.
    apply (build_transaction_ok env) in Hfd as (_ & Hnode & _). exact Hnode. }
  (* the fields *)
  match goal with |- context [Wire.of_dict ?o] => set (op := o) end.
  assert (op !! "sender" = Some (PStr (checksum_encode s))) as Hsender by field_of_fresh.
  assert (op !! "nonce" = Some (PStr (hex nonce))) as Hnonce by field_of_fresh.
  assert (op !! "factory" = Some f) as Hfactory by field_of_fresh.
  assert (op !! "factoryData"
          = Some (if String.eqb (if is_deployed then zero_address else SIMPLE_ACCOUNT_FACTORY)
                                zero_address
                  then PNone else PStr fd)) as Hfdata by field_of_fresh.
  assert (op !! "callData" = Some (PStr call_data)) as Hcall by field_of_fresh.
  assert (op !! "callGasLimit" = Some (PStr "0x0")) as Hcgl by field_of_fresh.
  assert (op !! "verificationGasLimit" = Some (PStr "0x0")) as Hvgl by field_of_fresh.
  assert (op !! "preVerificationGas" = Some (PStr "0x0")) as Hpvg by field_of_fresh.
  assert (op !! "maxFeePerGas" = Some (PStr "0x0")) as Hmf by field_of_fresh.
  assert (op !! "maxPriorityFeePerGas" = Some (PStr "0x0")) as Hmpf by field_of_fresh.
  assert (op !! "signature" = Some (PStr dummy_signature)) as Hsig by field_of_fresh.
  assert (op !! "paymaster" = Some PNone) as Hpm by field_of_fresh.
  clearbody op.
  assert (exists init,
            Wire.read_factory op = Ok init
            /\ (is_deployed = true -> init = None)
            /\ (is_deployed = false ->
                forall f0 o,
                  address_bytes SIMPLE_ACCOUNT_FACTORY = Ok f0 -> f0 <> repeat x00 20 ->
                  address_bytes owner = Ok o ->
                  init = Some (f0, selector "createAccount(address,uint256)"
                                   ++ tuple [Address o; Uint256 salt]))) as (init & Hinit & Hdep & Hundep).
  { unfold Wire.read_factory, get_or. rewrite Hfactory, Hfdata.
    destruct is_deployed.
    - simpl in Hf. unfold ret in Hf. injection Hf as <- _.
      exists None. split; [reflexivity |]. split; [reflexivity | discriminate].
    - destruct (String.eqb SIMPLE_ACCOUNT_FACTORY zero_address) eqn:Hzero.
      + unfold ret in Hf. injection Hf as <- _.
        exists None. split; [reflexivity |]. split; [reflexivity |].
        intros _ f0 o Hf0 Hnz _. exfalso. apply Hnz.
        apply String.eqb_eq in Hzero. rewrite Hzero in Hf0.
        vm_compute in Hf0. injection Hf0 as <-. reflexivity.
      + apply bind_inv_ok in Hf as (fc & w8 & Hfc & Hf).
        apply lift_ok in Hfc. unfold ret in Hf. injection Hf as <- _.
        unfold to_checksum_address in Hfc.
        apply bindR_ok in Hfc as (fb & Hfb & Hfc). injection Hfc as <-.
        pose proof (address_bytes_length _ _ Hfb) as Hflen.
        unfold create_account_calldata in Hfd.
        apply (build_transaction_ok env) in Hfd as (Hfd & _ & _).
        unfold encode_create_account in Hfd.
        apply bindR_ok in Hfd as (_f & _ & Hfd).
        apply checksummed_bytes in Hfd as (ob & Hob & Hfd).
        apply encode_call_ok in Hfd. subst fd.
        assert (truthy (PStr (checksum_encode fb)) = true) as -> by reflexivity.
        destruct (is_str zero_address (PStr (checksum_encode fb))) eqn:Hz.
        * exists None. split; [reflexivity |]. split; [discriminate |].
          intros _ f0 o Hf0 Hnz _. exfalso. apply Hnz.
          rewrite Hfb in Hf0. injection Hf0 as <-.
          apply rev_spells_zero; [exact Hflen |].
          unfold is_str in Hz. apply String.eqb_eq in Hz. exact Hz.
        * eexists. split.
          { cbn [andb negb].
            rewrite (hex_to_bytes_checksum fb Hflen), hex_to_bytes_hexstr. reflexivity. }
          split; [discriminate |].
          intros _ f0 o Hf0 _ Ho. rewrite Hfb in Hf0. rewrite Hob in Ho.
          injection Hf0 as <-. injection Ho as <-. reflexivity. }
  exists init. split; [| split; [exact Hdep | exact Hundep]].
  unfold Wire.of_dict, Wire.read_sender, Wire.read_paymaster, item, get_or.
  rewrite Hsender, Hnonce, Hcall, Hcgl, Hvgl, Hpvg, Hmf, Hmpf, Hsig, Hpm.
  cbn [bindR]. rewrite (checksum_is_address s Hlen), (checksum_fromhex s Hlen).
  cbn [is_ok andb]. rewrite (address_bytes_checksum s Hlen). cbn [bindR].
  rewrite int_of_hex_digits. cbn [bindR encodable_int].
  rewrite Hinit.
  cbn [bindR]. rewrite Hcd. reflexivity.
Qed.


(** *** The relay client *)

Lemma rpc_ok method params w v w1 :
  _rpc env method params w = (Ok v, w1) ->
  relay env (S (rpc_seq w)) method params = RpcResult v
  /\ calls w1 = calls w ++ [Rpc (S (rpc_seq w)) method params]
  /\ rpc_seq w1 = S (rpc_seq w).
Proof.
  unfold _rpc, _next_id, log, modify, bind, ret, raise. simpl.
  destruct (relay env (S (rpc_seq w)) method params) as [v' | err | m];
    intros E; [| discriminate | discriminate].
  injection E as <- <-. auto.
Qed.

Lemma lift_same {A} (r : result A) w a w1 : lift r w = (Ok a, w1) -> r = Ok a /\ w1 = w.
Proof. unfold lift. intros E. injection E as -> ->. auto. Qed.

(** X16.  Sponsoring makes three relay requests and one gas price read, in this
    order and numbered consecutively: the stub request on the operation as
    given, the gas estimate, the gas price, the paymaster request.  When it
    returns, both fee fields of the operation are the gas price read, and
    every field that is neither a fee, a gas limit nor a paymaster field is
    as it was given. *)
Theorem sponsor_user_op_steps (op op' : gmap string pyval) (w w' : World) :
  sponsor_user_op env op w = (Ok op', w') ->
  exists op1 op3 price,
    calls w' = calls w ++
      [Rpc (S (rpc_seq w)) "pm_getPaymasterStubData"
           [POp (clean op); PVal (PStr ENTRYPOINT_ADDRESS); PVal (PStr CHAIN_ID_HEX)];
       Rpc (S (S (rpc_seq w))) "eth_estimateUserOperationGas"
           [POp (clean op1); PVal (PStr ENTRYPOINT_ADDRESS)];
       GasPrice;
       Rpc (S (S (S (rpc_seq w)))) "pm_getPaymasterData"
           [POp (clean op3); PVal (PStr ENTRYPOINT_ADDRESS); PVal (PStr CHAIN_ID_HEX)]]
    /\ eth_gas_price env = Ok price
    /\ op' !! "maxFeePerGas" = Some price
    /\ op' !! "maxPriorityFeePerGas" = Some price
    /\ forall k,
         ~ In k (paymaster_keys ++ gas_keys ++ ["maxFeePerGas"; "maxPriorityFeePerGas"]) ->
         op' !! k = op !! k.
Proof.
  unfold sponsor_user_op. intros Hrun.
  apply bind_inv_ok in Hrun as (stub & w1 & Hstub & Hrun).
  apply bind_inv_ok in Hrun as (op1 & w2 & H1 & Hrun).
  apply bind_inv_ok in Hrun as ([] & w3 & Hg1 & Hrun).
  apply bind_inv_ok in Hrun as (gas & w4 & Hgas & Hrun).
  apply bind_inv_ok in Hrun as (op2 & w5 & H2 & Hrun).
  apply bind_inv_ok in Hrun as (price & w6 & Hprice & Hrun).
  apply bind_inv_ok in Hrun as ([] & w7 & Hg2 & Hrun).
  apply bind_inv_ok in Hrun as (pm & w8 & Hpm & Hrun).
  apply lift_same in H1 as [H1 ->]. apply lift_same in Hg1 as [_ ->].
  apply lift_same in H2 as [H2 ->]. apply lift_same in Hg2 as [_ ->].
  apply lift_same in Hrun as [H3 ->].
  apply rpc_ok in Hstub as (_ & Hc1 & Hs1).
  apply rpc_ok in Hgas as (_ & Hc2 & Hs2).
  apply rpc_ok in Hpm as (_ & Hc3 & Hs3).
  unfold _get_gas_price, log, modify, lift, bind in Hprice. simpl in Hprice.
  destruct (eth_gas_price env) as [p |] eqn:Hgp; [| discriminate].
  injection Hprice as Hp Hw. subst p w6. simpl in Hc3, Hs3.
  exists op1, (<["maxPriorityFeePerGas" := price]> (<["maxFeePerGas" := price]> op2)), price.
  split; [| split; [reflexivity | split; [| split]]].
  - rewrite Hc3, Hc2, Hc1, Hs2, Hs1, <- !app_assoc. reflexivity.
  - rewrite (merge_fields_other paymaster_keys _ _ _ "maxFeePerGas") with (2 := H3)
      by (intros Hin; repeat (destruct Hin as [Hin | Hin]; [discriminate Hin |]); exact Hin).
    rewrite lookup_insert_ne by discriminate. apply lookup_insert_eq.
  - rewrite (merge_fields_other paymaster_keys _ _ _ "maxPriorityFeePerGas") with (2 := H3)
      by (intros Hin; repeat (destruct Hin as [Hin | Hin]; [discriminate Hin |]); exact Hin).
    apply lookup_insert_eq.
  - intros k Hk.
    assert (~ In k paymaster_keys) as Hpk by (intros Hin; apply Hk; apply in_or_app; auto).
    assert (~ In k gas_keys) as Hgk
      by (intros Hin; apply Hk; apply in_or_app; right; apply in_or_app; auto).
    assert (k <> "maxFeePerGas" /\ k <> "maxPriorityFeePerGas") as [Hf1 Hf2].
    { split; intros ->; apply Hk; apply in_or_app; right; apply in_or_app; right;
        simpl; auto. }
    rewrite (merge_fields_other _ _ _ _ k Hpk H3).
    rewrite !lookup_insert_ne by congruence.
    rewrite (merge_fields_other _ _ _ _ k Hgk H2).
    exact (merge_fields_other _ _ _ _ k Hpk H1).
Qed.

(** X17.  Submitting makes exactly one request, to the entry point, whatever the
    relay answers.  The operation sent has no field whose value is None and
    is otherwise the operation given; what is returned is the relay's
    result. *)
Theorem send_user_op_sends_clean (op : gmap string pyval) (w : World) :
  let run := send_user_op env op w in
  exists sent,
    calls (snd run) = calls w ++
      [Rpc (S (rpc_seq w)) "eth_sendUserOperation" [POp sent; PVal (PStr ENTRYPOINT_ADDRESS)]]
    /\ (forall k, sent !! k <> Some PNone)
    /\ (forall k v, v <> PNone -> (sent !! k = Some v <-> op !! k = Some v))
    /\ (forall v, fst run = Ok v <->
          relay env (S (rpc_seq w)) "eth_sendUserOperation"
                [POp sent; PVal (PStr ENTRYPOINT_ADDRESS)] = RpcResult v).
Proof.
  cbv zeta. exists (clean op).
  unfold send_user_op, _rpc, _next_id, log, modify, bind, ret, raise. simpl.
  split; [| split; [| split]].
  - destruct (relay env _ _ _); reflexivity.
  - intros k. unfold clean. rewrite lookup_omap.
    destruct (op !! k) as [[] |]; simpl; discriminate.
  - intros k v Hv. unfold clean. rewrite lookup_omap.
    destruct (op !! k) as [[] |]; simpl; split; intros E; try discriminate; try exact E;
      injection E as <-; contradiction.
  - intros v. destruct (relay env _ _ _); simpl; split; intros E; try discriminate;
      injection E as <-; reflexivity.
Qed.


(** *** Fields the hash reads as absent *)

Lemma hash_ext (op op' : gmap string pyval) entrypoint chain_id :
  (forall k, In k ["sender"; "nonce"; "callData"] -> op !! k = op' !! k) ->
  (forall k, In k ["verificationGasLimit"; "callGasLimit"; "preVerificationGas";
                   "maxPriorityFeePerGas"; "maxFeePerGas"] ->
     get_or op k (PStr "0x0") = get_or op' k (PStr "0x0")) ->
  init_code op = init_code op' ->
  Builder.paymaster_and_data op = Builder.paymaster_and_data op' ->
  compute_user_op_hash op entrypoint chain_id = compute_user_op_hash op' entrypoint chain_id.
Proof.
  intros Hitem Hgas Hinit Hpm. unfold compute_user_op_hash, item.
  rewrite Hinit, Hpm.
  rewrite (Hitem "sender"), (Hitem "nonce"), (Hitem "callData") by (simpl; auto).
  rewrite (Hgas "verificationGasLimit"), (Hgas "callGasLimit"),
    (Hgas "preVerificationGas"), (Hgas "maxPriorityFeePerGas"), (Hgas "maxFeePerGas")
    by (simpl; auto 10).
  reflexivity.
Qed.

Ltac other_field :=
  unfold get_or;
  rewrite ?lookup_insert_ne, ?lookup_delete_ne by discriminate; reflexivity.

Ltac listed k Hk :=
  repeat (destruct Hk as [<- | Hk]; [other_field |]); destruct Hk.

(** X18.  The hash makes no difference between a factory that is absent, None,
    empty or the zero address, nor between a paymaster that is absent, None
    or empty; without a factory it does not read factoryData, and without a
    paymaster it reads none of the paymaster fields; a gas or fee field that
    is absent counts as zero. *)
Theorem hash_reads_absent_fields_as_empty (op : gmap string pyval) (entrypoint : string)
    (chain_id : Z) :
  let hash o := compute_user_op_hash o entrypoint chain_id in
  (forall v data,
     In v [PNone; PStr ""; PStr zero_address] ->
     hash (<["factoryData" := data]> (<["factory" := v]> op)) = hash (delete "factory" op))
  /\ (forall v limit1 limit2 data,
        In v [PNone; PStr ""] ->
        hash (<["paymasterData" := data]>
                (<["paymasterPostOpGasLimit" := limit2]>
                   (<["paymasterVerificationGasLimit" := limit1]>
                      (<["paymaster" := v]> op))))
        = hash (delete "paymaster" op))
  /\ (forall k,
        In k ["verificationGasLimit"; "callGasLimit"; "preVerificationGas";
              "maxPriorityFeePerGas"; "maxFeePerGas"] ->
        op !! k = None ->
        hash (<[k := PStr "0x0"]> op) = hash op).
Proof.
  cbv zeta. split; [| split].
  - intros v data Hv. apply hash_ext.
    + intros k Hk. listed k Hk.
    + intros k Hk. listed k Hk.
    + unfold init_code, get_or.
      rewrite lookup_insert_ne, lookup_insert_eq, lookup_delete_eq by discriminate.
      repeat (destruct Hv as [<- | Hv]; [reflexivity |]). destruct Hv.
    + unfold Builder.paymaster_and_data, item. other_field.
  - intros v limit1 limit2 data Hv. apply hash_ext.
    + intros k Hk. listed k Hk.
    + intros k Hk. listed k Hk.
    + unfold init_code, item. other_field.
    + unfold Builder.paymaster_and_data, get_or.
      rewrite !lookup_insert_ne, lookup_insert_eq, lookup_delete_eq by discriminate.
      repeat (destruct Hv as [<- | Hv]; [reflexivity |]). destruct Hv.
  - intros k Hk Hnone. apply hash_ext.
    + intros k' Hk'.
      repeat (destruct Hk as [<- | Hk]; [listed k' Hk' |]). destruct Hk.
    + intros k' Hk'. unfold get_or.
      destruct (decide (k = k')) as [<- | Hne].
      * rewrite lookup_insert_eq, Hnone. reflexivity.
      * rewrite lookup_insert_ne by exact Hne. reflexivity.
    + unfold init_code, item.
      repeat (destruct Hk as [<- | Hk]; [other_field |]). destruct Hk.
    + unfold Builder.paymaster_and_data, item.
      repeat (destruct Hk as [<- | Hk]; [other_field |]). destruct Hk.
Qed.

End WithLib.
End BuilderFacts.

(** ** The scanner: whom it credits and how its cursor moves *)
Module CursorFacts.
Import Py Abi Store Usdc Scanner Trace MonadFacts FrameFacts ScannerFacts.

(** *** The address map *)

Lemma add_user_addresses_spec (m : gmap string nat) (row : User) a uid :
  add_user_addresses m row !! a = Some uid ->
  (uid = user_id row
   /\ (a = lower (wallet_address row)
       \/ exists sa, smart_account_address row = Some sa /\ sa <> "" /\ a = lower sa))
  \/ m !! a = Some uid.
Proof.
  unfold add_user_addresses.
  destruct (smart_account_address row) as [sa |] eqn:Hsa.
  - destruct (String.eqb sa "") eqn:Hempty.
    + destruct (decide (lower (wallet_address row) = a)) as [<- | Hne].
      * rewrite lookup_insert_eq. intros E. injection E as <-. left. auto.
      * rewrite lookup_insert_ne by exact Hne. auto.
    + destruct (decide (lower sa = a)) as [<- | Hne].
      * rewrite lookup_insert_eq. intros E. injection E as <-. left. split; [reflexivity |].
        right. exists sa. split; [reflexivity |]. split; [| reflexivity].
        intros ->. discriminate.
      * rewrite lookup_insert_ne by exact Hne.
        destruct (decide (lower (wallet_address row) = a)) as [<- | Hne'].
        -- rewrite lookup_insert_eq. intros E. injection E as <-. left. auto.
        -- rewrite lookup_insert_ne by exact Hne'. auto.
  - destruct (decide (lower (wallet_address row) = a)) as [<- | Hne].
    + rewrite lookup_insert_eq. intros E. injection E as <-. left. auto.
    + rewrite lookup_insert_ne by exact Hne. auto.
Qed.

Lemma add_user_addresses_own (m : gmap string nat) (row : User) :
  is_Some (add_user_addresses m row !! lower (wallet_address row))
  /\ forall sa, smart_account_address row = Some sa -> sa <> "" ->
       add_user_addresses m row !! lower sa = Some (user_id row).
Proof.
  unfold add_user_addresses. split.
  - destruct (smart_account_address row) as [sa |];
      [destruct (String.eqb sa "") |]; try (rewrite lookup_insert_eq; eauto).
    destruct (decide (lower sa = lower (wallet_address row))) as [E | Hne].
    + rewrite E, lookup_insert_eq. eauto.
    + rewrite lookup_insert_ne by exact Hne. rewrite lookup_insert_eq. eauto.
  - intros sa -> Hne. destruct (String.eqb sa "") eqn:E.
    + apply String.eqb_eq in E. contradiction.
    + apply lookup_insert_eq.
Qed.

Lemma add_user_addresses_keeps (m : gmap string nat) (row : User) a :
  is_Some (m !! a) -> is_Some (add_user_addresses m row !! a).
Proof.
  intros Hm. unfold add_user_addresses.
  assert (forall k v (m' : gmap string nat), is_Some (m' !! a) -> is_Some (<[k := v]> m' !! a))
    as Hins.
  { intros k v m' Hm'. destruct (decide (k = a)) as [<- | Hne].
    - rewrite lookup_insert_eq. eauto.
    - rewrite lookup_insert_ne by exact Hne. exact Hm'. }
  destruct (smart_account_address row) as [sa |]; [destruct (String.eqb sa "") |];
    repeat apply Hins; exact Hm.
Qed.

Lemma lower_idempotent s : lower (lower s) = lower s.
Proof.
  induction s as [| c s IH]; [reflexivity |]. simpl. rewrite IH. f_equal.
  destruct c as [[] [] [] [] [] [] [] []]; reflexivity.
Qed.

(** X19.  The address map holds, in lower case, the owner address of every user
    and the smart account address of every user that has one; each key maps
    to a user with that address; keys are lower case, so a lookup by the
    lower-cased recipient finds an account whatever the case it was stored
    or reported in. *)
Theorem user_addresses_cover_every_account (w : World) :
  exists known,
    _get_user_addresses w = (Ok known, w)
    /\ (forall u, In u (users w) ->
          is_Some (known !! lower (wallet_address u))
          /\ forall sa, smart_account_address u = Some sa -> sa <> "" ->
               is_Some (known !! lower sa))
    /\ (forall a uid, known !! a = Some uid ->
          lower a = a
          /\ exists u, In u (users w) /\ user_id u = uid
               /\ (a = lower (wallet_address u)
                   \/ exists sa, smart_account_address u = Some sa /\ sa <> ""
                                 /\ a = lower sa)).
Proof.
  exists (fold_left add_user_addresses (users w) ∅).
  split; [reflexivity |].
  assert (forall us (m : gmap string nat),
            (forall u, In u us ->
               is_Some (fold_left add_user_addresses us m !! lower (wallet_address u))
               /\ forall sa, smart_account_address u = Some sa -> sa <> "" ->
                    is_Some (fold_left add_user_addresses us m !! lower sa))
            /\ (forall a, is_Some (m !! a) ->
                  is_Some (fold_left add_user_addresses us m !! a))) as Hcover.
  { induction us as [| row us IH]; intros m; simpl.
    - split; [intros u [] | auto].
    - destruct (IH (add_user_addresses m row)) as [IH1 IH2]. split.
      + intros u [<- | Hin]; [| apply IH1, Hin].
        destruct (add_user_addresses_own m row) as [Hown Hsa]. split.
        * apply IH2, Hown.
        * intros sa E Hne. apply IH2. rewrite (Hsa sa E Hne). eauto.
      + intros a Ha. apply IH2, add_user_addresses_keeps, Ha. }
  assert (forall us (m : gmap string nat) a uid,
            fold_left add_user_addresses us m !! a = Some uid ->
            (exists u, In u us /\ user_id u = uid
               /\ (a = lower (wallet_address u)
                   \/ exists sa, smart_account_address u = Some sa /\ sa <> ""
                                 /\ a = lower sa))
            \/ m !! a = Some uid) as Hback.
  { induction us as [| row us IH]; intros m a uid; simpl; [auto |].
    intros Hl. destruct (IH _ _ _ Hl) as [(u & Hin & Hid & Ha) | Hm].
    - left. exists u. auto.
    - destruct (add_user_addresses_spec _ _ _ _ Hm) as [[-> Ha] | Hm']; [| auto].
      left. exists row. auto. }
  split.
  - intros u Hu. apply (Hcover (users w) ∅). exact Hu.
  - intros a uid Ha.
    destruct (Hback _ _ _ _ Ha) as [(u & Hin & Hid & Hwhere) | Hempty];
      [| rewrite lookup_empty in Hempty; discriminate].
    split; [| exists u; auto].
    destruct Hwhere as [-> | (sa & _ & _ & ->)]; apply lower_idempotent.
Qed.


(** *** One tick *)

Section WithLib.
Context `{Hash} `{Config} (env : Env).

Lemma ingest_credits user_map evt w :
  let w' := snd (ingest env user_map evt w) in
  pending_payments w' = pending_payments w /\ users w' = users w
  /\ last_scanned_block w' = last_scanned_block w /\ calls w' = calls w
  /\ exists new,
       transactions w' = transactions w ++ new
       /\ Forall (fun row => tx_kind row = TDeposit /\ tx_status row = Some "completed"
                             /\ user_map !! lower (tx_to_address row)
                                = Some (tx_user_id row)) new
       /\ length (events w') = (length (events w) + length new)%nat.
Proof.
  cbv zeta. unfold ingest.
  destruct (user_map !! lower (te_to evt)) as [uid |] eqn:Hknown.
  - unfold bind, gets.
    destruct (has_tx_hash (te_tx_hash evt) (transactions w)).
    + simpl. do 4 (split; [reflexivity |]). exists []. rewrite app_nil_r. simpl. auto.
    + simpl. do 4 (split; [reflexivity |]). eexists [_]. split; [reflexivity |]. split.
      * constructor; [| constructor]. simpl. auto.
      * rewrite length_app. reflexivity.
  - simpl. do 4 (split; [reflexivity |]). exists []. rewrite app_nil_r. simpl. auto.
Qed.

Lemma ingest_all_credits user_map evts : forall w,
  let w' := snd (ingest_all env user_map evts w) in
  pending_payments w' = pending_payments w /\ users w' = users w
  /\ last_scanned_block w' = last_scanned_block w /\ calls w' = calls w
  /\ exists new,
       transactions w' = transactions w ++ new
       /\ Forall (fun row => tx_kind row = TDeposit /\ tx_status row = Some "completed"
                             /\ user_map !! lower (tx_to_address row)
                                = Some (tx_user_id row)) new
       /\ length (events w') = (length (events w) + length new)%nat.
Proof.
  induction evts as [| evt evts IH]; intros w; cbv zeta.
  - simpl. do 4 (split; [reflexivity |]). exists []. rewrite app_nil_r. simpl. auto.
  - simpl. unfold bind.
    pose proof (ingest_credits user_map evt w) as Hstep. cbv zeta in Hstep.
    destruct (ingest env user_map evt w) as [[[] | e] w1]; simpl in Hstep.
    + destruct Hstep as (Hp & Hu & Hl & Hc & n1 & Ht & Hall & He).
      destruct (IH w1) as (Hp' & Hu' & Hl' & Hc' & n2 & Ht' & Hall' & He').
      do 4 (split; [congruence |]).
      exists (n1 ++ n2). split; [rewrite Ht', Ht, app_assoc; reflexivity |].
      split; [apply Forall_app; auto |]. rewrite He', He, length_app. lia.
    + exact Hstep.
Qed.

(** X20.  A tick never raises.  It leaves the pending payments and the users as
    they are and only appends transactions: each new row is a completed
    deposit credited to the user whose address, taken in lower case, is the
    recipient of the transfer, and comes with one event. *)
Theorem scan_deposits_credits_known_accounts (w : World) :
  let run := scan_deposits env w in
  let known := fold_left add_user_addresses (users w) ∅ in
  fst run = Ok tt
  /\ pending_payments (snd run) = pending_payments w
  /\ users (snd run) = users w
  /\ exists new,
       transactions (snd run) = transactions w ++ new
       /\ Forall (fun row => tx_kind row = TDeposit /\ tx_status row = Some "completed"
                             /\ known !! lower (tx_to_address row) = Some (tx_user_id row))
                 new
       /\ length (events (snd run)) = (length (events w) + length new)%nat.
Proof.
  cbv zeta.
  assert (forall w0 : World,
            exists new : list Transaction,
              transactions w0 = transactions w0 ++ new
              /\ Forall (fun row => tx_kind row = TDeposit /\ tx_status row = Some "completed"
                                    /\ fold_left add_user_addresses (users w) ∅
                                         !! lower (tx_to_address row)
                                       = Some (tx_user_id row)) new
              /\ length (events w0) = (length (events w0) + length new)%nat) as Hnone.
  { intros w0. exists []. rewrite app_nil_r. simpl. auto. }
  unfold scan_deposits, catch, get_latest_block, get_transfer_events, _get_user_addresses,
    bind, log, modify, lift, gets, ret.
  simpl.
  destruct (latest_block env) as [latest | e]; [| simpl; do 3 (split; [reflexivity |]); apply Hnone].
  destruct (last_scanned_block w) as [last |]; [| simpl; do 3 (split; [reflexivity |]); apply Hnone].
  destruct (latest <=? last); [simpl; do 3 (split; [reflexivity |]); apply Hnone |].
  destruct (to_checksum_address USDC_CONTRACT_ADDRESS) as [usdc | e];
    [| simpl; do 3 (split; [reflexivity |]); apply Hnone].
  simpl.
  destruct (transfer_logs env _ _) as [evts | e]; [| simpl; do 3 (split; [reflexivity |]); apply Hnone].
  match goal with
  | |- context [ingest_all env ?um evts ?w0] =>
      pose proof (ingest_all_credits um evts w0) as Hrun;
      pose proof (ingest_all_returns env um evts w0) as Hret;
      destruct (ingest_all env um evts w0) as [[[] | err] w1]
  end; cbv zeta in Hrun; simpl in *; [| discriminate].
  destruct Hrun as (Hp & Hu & _ & _ & new & Ht & Hall & He).
  do 3 (split; [assumption || reflexivity |]). exists new. auto.
Qed.

(** X21.  The cursor.  When the chain cannot be read the cursor stays where it
    is.  The first tick only sets it to the chain's head, without scanning
    history.  Later ticks never move it back, never past the head, and by at
    most 2001 blocks; it moves only after the whole window was read and
    ingested, and otherwise stays, so that the window is scanned again. *)
Theorem scan_deposits_moves_cursor_forward (w : World) :
  let run := scan_deposits env w in
  match latest_block env, last_scanned_block w with
  | Err _, _ =>
      last_scanned_block (snd run) = last_scanned_block w
      /\ transactions (snd run) = transactions w
  | Ok latest, None =>
      last_scanned_block (snd run) = Some latest
      /\ transactions (snd run) = transactions w
      /\ calls (snd run) = calls w ++ [LatestBlock]
  | Ok latest, Some last =>
      let to_block := Z.min latest (last + 2001) in
      (latest <= last ->
       last_scanned_block (snd run) = Some last /\ transactions (snd run) = transactions w
       /\ calls (snd run) = calls w ++ [LatestBlock])
      /\ (last < latest ->
          (last_scanned_block (snd run) = Some to_block
           /\ is_ok (transfer_logs env (last + 1) to_block) = true
           /\ calls (snd run) = calls w ++ [LatestBlock; GetLogs (last + 1) to_block])
          \/ (last_scanned_block (snd run) = Some last
              /\ transactions (snd run) = transactions w))
      /\ exists cursor,
           last_scanned_block (snd run) = Some cursor
           /\ last <= cursor <= Z.max last latest /\ cursor <= last + 2001
  end.
Proof.
  cbv zeta.
  unfold scan_deposits, catch, get_latest_block, get_transfer_events, _get_user_addresses,
    bind, log, modify, lift, gets, ret.
  simpl.
  destruct (latest_block env) as [latest | e]; [| simpl; auto].
  destruct (last_scanned_block w) as [last |] eqn:Hlast; [| simpl; auto].
  replace (last + 1 + 2000) with (last + 2001) by lia.
  destruct (latest <=? last) eqn:Hle.
  - apply Z.leb_le in Hle. simpl.
    split; [auto |]. split; [lia |]. exists last. split; [reflexivity | lia].
  - apply Z.leb_gt in Hle.
    split; [lia |].
    destruct (to_checksum_address USDC_CONTRACT_ADDRESS) as [usdc | e].
    + simpl.
      destruct (transfer_logs env (last + 1) (Z.min latest (last + 2001))) as [evts | e]
        eqn:Hlogs.
      * match goal with
        | |- context [ingest_all env ?um evts ?w0] =>
            pose proof (ingest_all_credits um evts w0) as Hrun;
            pose proof (ingest_all_returns env um evts w0) as Hret;
            destruct (ingest_all env um evts w0) as [[[] | err] w1]
        end; cbv zeta in Hrun; simpl in *; [| discriminate].
        destruct Hrun as (_ & _ & _ & Hc & _).
        split.
        -- intros _. left. split; [reflexivity |]. split; [reflexivity |].
           rewrite Hc, <- app_assoc. reflexivity.
        -- eexists. split; [reflexivity | lia].
      * simpl. split; [auto |]. exists last. split; [reflexivity | lia].
    + simpl. split; [auto |]. exists last. split; [reflexivity | lia].
Qed.

End WithLib.
End CursorFacts.

(** ** The limiter *)
Module RateLimitFacts.
Import Py RateLimit.

Lemma requests_of_set key stamps l k :
  requests_of (set_requests key stamps l) k
  = if decide (key = k) then stamps else requests_of l k.
Proof.
  unfold requests_of, set_requests. simpl.
  destruct (decide (key = k)) as [<- | Hne].
  - rewrite lookup_insert_eq. reflexivity.
  - rewrite lookup_insert_ne by exact Hne. reflexivity.
Qed.

Section WithClock.
Variable time_time : nat -> float.

(** X22.  One check of [key] at clock reading [n], when the window is a number a
    float can hold.  With fewer than [max_requests] timestamps newer than
    the cutoff it admits the request and records the next clock reading
    after the recent ones; otherwise it refuses with HTTP 429 and records
    nothing.  Either way the stale timestamps of [key] are dropped, the
    timestamps of every other key and the two settings are untouched, and
    two clock readings at most are taken. *)
Theorem check_admits_below_the_limit (key : string) (l : RateLimiter) (n : nat)
    (window : float) :
  float_of_int (window_seconds l) = Ok window ->
  let recent :=
    List.filter (fun t => (time_time n - window <? t)%float) (requests_of l key) in
  let run := check time_time key (l, n) in
  let l' := fst (snd run) in
  (if max_requests l <=? Z.of_nat (length recent)
   then fst run = Err (rate_limited l) /\ requests_of l' key = recent
        /\ snd (snd run) = S n
   else fst run = Ok tt /\ requests_of l' key = recent ++ [time_time (S n)]
        /\ snd (snd run) = S (S n))
  /\ (forall other, other <> key -> requests_of l' other = requests_of l other)
  /\ max_requests l' = max_requests l /\ window_seconds l' = window_seconds l.
Proof.
  intros Hwin. cbv zeta. unfold check, _cleanup. simpl. rewrite Hwin. simpl.
  rewrite requests_of_set. destruct (decide (key = key)) as [_ | Hne]; [| contradiction].
  set (recent := List.filter _ (requests_of l key)).
  destruct (max_requests l <=? Z.of_nat (length recent)); simpl.
  - rewrite requests_of_set. destruct (decide (key = key)) as [_ | Hne]; [| contradiction].
    split; [auto |]. split; [| auto].
    intros other Hne. rewrite requests_of_set.
    destruct (decide (key = other)) as [-> | _]; [contradiction | reflexivity].
  - rewrite requests_of_set. destruct (decide (key = key)) as [_ | Hne]; [| contradiction].
    split; [auto |]. split; [| auto].
    intros other Hne. rewrite !requests_of_set.
    destruct (decide (key = other)) as [-> | _]; [contradiction | reflexivity].
Qed.

Lemma check_bounded key st k bound :
  max_requests (fst st) <= bound -> 0 <= bound ->
  Z.of_nat (length (requests_of (fst st) k)) <= bound ->
  Z.of_nat (length (requests_of (fst (snd (check time_time key st))) k)) <= bound
  /\ max_requests (fst (snd (check time_time key st))) = max_requests (fst st)
  /\ window_seconds (fst (snd (check time_time key st))) = window_seconds (fst st).
Proof.
  intros Hmax Hpos Hlen. unfold check, _cleanup.
  destruct (float_of_int (window_seconds (fst st))) as [window | e]; [| simpl; auto].
  simpl. rewrite requests_of_set.
  destruct (decide (key = key)) as [_ | Hne]; [| contradiction].
  set (recent := List.filter _ (requests_of (fst st) key)).
  assert (length recent <= length (requests_of (fst st) key))%nat as Hrecent
    by apply List.filter_length_le.
  destruct (max_requests (fst st) <=? Z.of_nat (length recent)) eqn:Hfull; simpl.
  - split; [| auto]. rewrite requests_of_set.
    destruct (decide (key = k)) as [<- | _]; lia.
  - apply Z.leb_gt in Hfull. split; [| auto]. rewrite !requests_of_set.
    destruct (decide (key = k)) as [<- | _]; [| lia].
    rewrite length_app. simpl. lia.
Qed.

(** X23.  However many checks a limiter serves, for whatever keys and at whatever
    times, it never holds more than [max_requests] timestamps for a key, and
    its two settings stay as it was built with. *)
Theorem limiter_holds_at_most_max (keys : list string) (max_requests window_seconds : Z)
    (n : nat) (key : string) :
  let l := fst (serve time_time keys (new_limiter max_requests window_seconds, n)) in
  Z.of_nat (length (requests_of l key)) <= Z.max 0 max_requests
  /\ RateLimit.max_requests l = max_requests
  /\ RateLimit.window_seconds l = window_seconds.
Proof.
  cbv zeta.
  assert (forall st,
            RateLimit.max_requests (fst st) = max_requests ->
            RateLimit.window_seconds (fst st) = window_seconds ->
            Z.of_nat (length (requests_of (fst st) key)) <= Z.max 0 max_requests ->
            Z.of_nat (length (requests_of (fst (serve time_time keys st)) key))
            <= Z.max 0 max_requests
            /\ RateLimit.max_requests (fst (serve time_time keys st)) = max_requests
            /\ RateLimit.window_seconds (fst (serve time_time keys st)) = window_seconds)
    as Hall.
  { induction keys as [| k keys IH]; intros st Hm Hw Hlen; simpl; [auto |].
    destruct (check_bounded k st key (Z.max 0 max_requests)) as (Hb & Hm' & Hw');
      [rewrite Hm; lia | lia | exact Hlen |].
    apply IH; congruence. }
  apply Hall; try reflexivity.
  unfold requests_of, new_limiter. simpl. rewrite lookup_empty. simpl. lia.
Qed.

End WithClock.
End RateLimitFacts.

(** ** The limits of a user *)
Module SettingsFacts.
Import Py Abi Store Usdc Payment Api Settings MonadFacts.

Lemma updated_other req uid u : user_id u <> uid -> updated req uid u = u.
Proof.
  intros Hne. unfold updated. apply Nat.eqb_neq in Hne. rewrite Hne. reflexivity.
Qed.

Section WithLib.
Context `{Hash} `{Config} (env : Env).

(** What the update makes of one row. *)
Lemma updated_row req uid u :
  let u' := updated req uid u in
  user_id u' = user_id u
  /\ wallet_address u' = wallet_address u
  /\ smart_account_address u' = smart_account_address u
  /\ smart_account_deployed u' = smart_account_deployed u
  /\ privy_wallet_id u' = privy_wallet_id u
  /\ (user_id u <> uid -> u' = u)
  /\ (user_id u = uid ->
      per_transaction_limit u'
      = match new_per_transaction_limit req with
        | Some d => Some (float_of_decimal d)
        | None => per_transaction_limit u
        end
      /\ daily_limit u'
         = match new_daily_limit req with
           | Some d => Some (float_of_decimal d)
           | None => daily_limit u
           end
      /\ require_confirmation_above u'
         = match new_require_confirmation_above req with
           | Some d => Some (float_of_decimal d)
           | None => require_confirmation_above u
           end).
Proof.
  cbv zeta. unfold updated. destruct (Nat.eqb_spec (user_id u) uid) as [E | Hne]; simpl.
  - do 5 (split; [reflexivity |]). split; [intros Hne; contradiction |].
    intros _. repeat split.
  - do 5 (split; [reflexivity |]). split; [reflexivity |].
    intros E. contradiction.
Qed.

(** X24.  A request that names no limit is refused and changes nothing.  Any
    other request rewrites the users table and nothing else: a row of
    another user is left as it is, and in every row of this user each
    limit the request names becomes the requested value, as a float, while
    each limit it does not name and every other field stay as they were.
    The values returned are those of such a row.  A payment of the user
    read back from the table that exceeds a per-transaction limit set this
    way is refused. *)
Theorem update_settings_changes_the_named_limits (user : User)
    (req : UpdateSettingsRequest) (w : World) :
  let run := update_settings user req w in
  let set_to (requested : option Decimal) (before after : option float) :=
    after = match requested with
            | Some d => Some (float_of_decimal d)
            | None => before
            end in
  (new_per_transaction_limit req = None -> new_daily_limit req = None ->
   new_require_confirmation_above req = None ->
   run = (Raised (ValueError [Txt "No settings to update"]), w))
  /\ pending_payments (snd run) = pending_payments w
  /\ transactions (snd run) = transactions w
  /\ events (snd run) = events w
  /\ calls (snd run) = calls w
  /\ Forall2 (fun u u' =>
                user_id u' = user_id u
                /\ wallet_address u' = wallet_address u
                /\ smart_account_address u' = smart_account_address u
                /\ smart_account_deployed u' = smart_account_deployed u
                /\ privy_wallet_id u' = privy_wallet_id u
                /\ (user_id u <> user_id user -> u' = u)
                /\ (user_id u = user_id user ->
                    set_to (new_per_transaction_limit req)
                           (per_transaction_limit u) (per_transaction_limit u')
                    /\ set_to (new_daily_limit req) (daily_limit u) (daily_limit u')
                    /\ set_to (new_require_confirmation_above req)
                              (require_confirmation_above u)
                              (require_confirmation_above u')))
             (users w) (users (snd run))
  /\ (forall shown, fst run = Returned shown ->
        exists u, In u (users w) /\ user_id u = user_id user
          /\ set_to (new_per_transaction_limit req)
                    (per_transaction_limit u) (shown_per_transaction_limit shown)
          /\ set_to (new_daily_limit req) (daily_limit u) (shown_daily_limit shown)
          /\ set_to (new_require_confirmation_above req)
                    (require_confirmation_above u)
                    (shown_require_confirmation_above shown))
  /\ (forall limit u' to_address amount memo w0,
        new_per_transaction_limit req = Some limit ->
        In u' (users (snd run)) -> user_id u' = user_id user ->
        (float_of_decimal limit <? amount)%float = true ->
        exists m, pay env u' to_address amount memo w0 = (Err (ValueError m), w0)).
Proof.
  cbv zeta.
  match goal with |- context [Forall2 ?r (users w) _] => set (R := r) end.
  assert (forall us, Forall2 R us (map (updated req (user_id user)) us)) as Hrows.
  { induction us as [| u us IH]; simpl; constructor; [| exact IH].
    unfold R. exact (updated_row req (user_id user) u). }
  assert (forall limit u' to_address amount memo w0,
            new_per_transaction_limit req = Some limit ->
            In u' (map (updated req (user_id user)) (users w)) ->
            user_id u' = user_id user ->
            (float_of_decimal limit <? amount)%float = true ->
            exists m, pay env u' to_address amount memo w0 = (Err (ValueError m), w0))
    as Hpay.
  { intros limit u' to_address amount memo w0 Hlimit Hin Hid Hover.
    apply in_map_iff in Hin as (u & <- & _).
    unfold updated in *. destruct (user_id u =? user_id user)%nat eqn:E.
    - unfold pay. simpl.
      destruct (_get_sender _) as [sender | e] eqn:Hs.
      + rewrite (bind_lift_ok _ _ _ sender eq_refl).
        unfold _check_limits, per_tx_of. simpl. rewrite Hlimit, Hover.
        eexists. reflexivity.
      + unfold _get_sender in Hs. simpl in Hs.
        destruct (smart_account_address u) as [sa |]; [destruct (String.eqb sa "") |];
          try discriminate; injection Hs as <-; eexists; reflexivity.
    - apply Nat.eqb_neq in E. contradiction. }
  assert (forall row rest,
            List.filter (fun u => (user_id u =? user_id user)%nat)
                        (map (updated req (user_id user)) (users w)) = row :: rest ->
            exists u, In u (users w) /\ user_id u = user_id user
                      /\ row = updated req (user_id user) u) as Hfirst.
  { intros row rest Hf.
    assert (In row (List.filter (fun u => (user_id u =? user_id user)%nat)
                                (map (updated req (user_id user)) (users w)))) as Hin
      by (rewrite Hf; left; reflexivity).
    apply filter_In in Hin as [Hin Hid]. apply Nat.eqb_eq in Hid.
    apply in_map_iff in Hin as (u & <- & Hu).
    exists u. split; [exact Hu |]. split; [| reflexivity].
    destruct (updated_row req (user_id user) u) as (Hsame & _). congruence. }
  assert (let run := match List.filter (fun u => (user_id u =? user_id user)%nat)
                             (users (set_users (map (updated req (user_id user))) w)) with
                     | row :: _ =>
                         (Returned (view row),
                          set_users (map (updated req (user_id user))) w)
                     | [] => (IndexError, set_users (map (updated req (user_id user))) w)
                     end in
          pending_payments (snd run) = pending_payments w
          /\ transactions (snd run) = transactions w
          /\ events (snd run) = events w
          /\ calls (snd run) = calls w
          /\ Forall2 R (users w) (users (snd run))
          /\ (forall shown, fst run = Returned shown ->
                   exists u, In u (users w) /\ user_id u = user_id user
                     /\ shown_per_transaction_limit shown
                        = match new_per_transaction_limit req with
                          | Some d => Some (float_of_decimal d)
                          | None => per_transaction_limit u
                          end
                     /\ shown_daily_limit shown
                        = match new_daily_limit req with
                          | Some d => Some (float_of_decimal d)
                          | None => daily_limit u
                          end
                     /\ shown_require_confirmation_above shown
                        = match new_require_confirmation_above req with
                          | Some d => Some (float_of_decimal d)
                          | None => require_confirmation_above u
                          end)
          /\ (forall limit u' to_address amount memo w0,
                new_per_transaction_limit req = Some limit ->
                In u' (users (snd run)) -> user_id u' = user_id user ->
                (float_of_decimal limit <? amount)%float = true ->
                exists m, pay env u' to_address amount memo w0
                          = (Err (ValueError m), w0))) as Hwritten.
  { cbv zeta. simpl (users (set_users _ _)).
    destruct (List.filter _ _) as [| row rest] eqn:Hf; simpl;
      do 4 (split; [reflexivity |]); (split; [apply Hrows |]; split; [| exact Hpay]).
    - intros shown E. discriminate E.
    - intros shown E. injection E as <-.
      destruct (Hfirst row rest eq_refl) as (u & Hu & Hid & ->).
      exists u. split; [exact Hu |]. split; [exact Hid |].
      destruct (updated_row req (user_id user) u) as (_ & _ & _ & _ & _ & _ & Hl).
      exact (Hl Hid). }
  cbv zeta in Hwritten.
  destruct Hwritten as (Hp & Ht & He & Hc & Hw & Hshown & Hpay').
  unfold update_settings.
  destruct (new_per_transaction_limit req) as [p |] eqn:E1;
    [split; [intros E; discriminate E |];
     do 4 (split; [assumption |]); split; [exact Hw |]; split; [exact Hshown | exact Hpay'] |].
  destruct (new_daily_limit req) as [d |] eqn:E2;
    [split; [intros _ E; discriminate E |];
     do 4 (split; [assumption |]); split; [exact Hw |]; split; [exact Hshown | exact Hpay'] |].
  destruct (new_require_confirmation_above req) as [t |] eqn:E3;
    [split; [intros _ _ E; discriminate E |];
     do 4 (split; [assumption |]); split; [exact Hw |]; split; [exact Hshown | exact Hpay'] |].
  simpl. split; [reflexivity |]. do 4 (split; [reflexivity |]).
  split; [| split; [intros shown E; discriminate E | intros; discriminate]].
  assert (forall us, Forall2 R us us) as Hsame.
  { induction us as [| u us IH]; constructor; [| exact IH].
    unfold R. rewrite ?E1, ?E2, ?E3. repeat split. }
  apply Hsame.
Qed.

End WithLib.
End SettingsFacts.

(** ** Amounts in base units *)
Module UnitsFacts.
Import Py Abi Store Usdc.

Lemma digits2_pos_bound m : Z.pos m < 2 ^ Z.pos (digits2_pos m).
Proof.
  induction m as [m IH | m IH |]; simpl.
  - rewrite Pos2Z.inj_succ, Z.pow_succ_r by lia. lia.
  - rewrite Pos2Z.inj_succ, Z.pow_succ_r by lia. lia.
  - reflexivity.
Qed.

Lemma valid_mantissa s m e :
  valid_binary (S754_finite s m e) = true -> Z.pos m < 2 ^ 53.
Proof.
  unfold valid_binary, bounded, canonical_mantissa. intros Hv.
  apply andb_true_iff in Hv as [Hc _]. apply Z.eqb_eq in Hc.
  unfold fexp in Hc.
  pose proof (digits2_pos_bound m) as Hm.
  assert (Z.pos (digits2_pos m) <= 53) as Hd by (unfold prec, emin, emax in *; lia).
  eapply Z.lt_le_trans; [exact Hm |].
  apply Z.pow_le_mono_r; lia.
Qed.

(** X25.  An amount of less than one base unit is truncated to zero units: the
    calldata built for it transfers nothing. *)
Theorem raw_units_below_one_is_zero (amount : float) :
  (0 <=? amount * 1000000)%float = true ->
  (amount * 1000000 <? 1)%float = true ->
  raw_units amount = Ok 0.
Proof.
  unfold raw_units, int_of_float. intros Hpos Hlt.
  rewrite leb_spec in Hpos. rewrite ltb_spec in Hlt.
  pose proof (Prim2SF_valid (amount * 1000000)%float) as Hvalid.
  change (Prim2SF 0) with (S754_zero false) in Hpos.
  change (Prim2SF 1) with (S754_finite false 4503599627370496 (-52)) in Hlt.
  destruct (Prim2SF (amount * 1000000)%float) as [s | s | | s m e]; try reflexivity;
    try discriminate.
  - destruct s; discriminate.
  - destruct s; [discriminate |].
    apply valid_mantissa in Hvalid.
    unfold SFltb, SFcompare in Hlt.
    destruct (Z.compare e (-52)) eqn:He; try discriminate.
    + apply Z.compare_eq in He. subst e.
      destruct (Pos.compare_cont Eq m 4503599627370496) eqn:Hm; try discriminate.
      pose proof (proj1 (Pos.compare_lt_iff m 4503599627370496) Hm) as Hlt'.
      apply Pos2Z.pos_lt_pos in Hlt'. clear Hvalid Hm Hlt Hpos.
      change (0 <=? -52) with false. cbv iota.
      change (2 ^ (- -52)) with 4503599627370496.
      f_equal. apply Z.div_small. split; [apply Pos2Z.is_nonneg | exact Hlt'].
    + rewrite Z.compare_lt_iff in He.
      destruct (0 <=? e) eqn:Hs; [apply Z.leb_le in Hs; lia |].
      f_equal. apply Z.div_small. split; [lia |].
      eapply Z.lt_le_trans; [exact Hvalid |].
      apply Z.pow_le_mono_r; lia.
Qed.

End UnitsFacts.

(** ** The digest handed to the signer *)
Module PrivyFacts.
Import Py Abi Builder Privy EscrowFacts BuilderFacts.

Section WithHash.
Context `{Hash}.

(** X26.  For a 32-byte hash rendered as hex, which is what the pipeline passes,
    the digest requested from the signer is the hex of the EIP-191 hash:
    Keccak of the byte 0x19, the text "Ethereum Signed Message:", a newline,
    the decimal length "32", and the 32 bytes themselves. *)
Theorem eth_signed_hash_of_operation_hash (h : list byte) :
  length h = 32%nat ->
  eth_signed_hash (hexstr h)
  = Ok (hexstr (keccak (list_byte_of_string
                          (String (ascii_of_nat 25) "Ethereum Signed Message:")
                        ++ [x0a; x33; x32] ++ h))).
Proof.
  intros Hlen. unfold eth_signed_hash.
  assert (fromhex (remove_0x (hexstr h)) = Ok h) as ->.
  { pose proof (hex_to_bytes_hexstr h) as Hb. unfold _hex_to_bytes in Hb.
    destruct h as [| b h]; [discriminate |].
    exact Hb. }
  cbn [bindR]. rewrite Hlen.
  assert ((list_byte_of_string (String (ascii_of_nat 25) "Ethereum Signed Message:")
           ++ [x0a] ++ list_byte_of_string (str_of_nat 32)) ++ h
          = list_byte_of_string (String (ascii_of_nat 25) "Ethereum Signed Message:")
            ++ [x0a; x33; x32] ++ h) as -> by (rewrite <- app_assoc; reflexivity).
  f_equal. unfold hexstr. cbn [remove_0x].
  simpl (Ascii.eqb "0" "0" && Ascii.eqb "x" "x"). cbv iota.
  rewrite remove_0x_hexdigits. reflexivity.
Qed.

End WithHash.
End PrivyFacts.

(** ** The builder, the relay client and the limiter on the scripted world *)
Module BuilderExamples.
Import Py Abi Store Usdc Builder Bundler RateLimit Privy Trace Scenario Fixtures
       BuilderFacts RateLimitFacts UnitsFacts PrivyFacts.

(** The operation built for Alice's undeployed account. *)
Lemma fresh_operation_reads_as_witness :
  exists s nonce,
    address_bytes "0x91E60e0613810449d098b0b5Ec8b51A0FE8c8985" = Ok s
    /\ entrypoint_nonce env (checksum_encode s) = Ok nonce
    /\ calls (snd built) = calls start ++ [GetNonce (checksum_encode s); ChainId]
    /\ (false = false -> is_ok (eth_chain_id env) = true)
    /\ exists init,
         Wire.of_dict fresh_operation
         = Ok {| OperationSpec.sender := s; OperationSpec.nonce := nonce;
                 OperationSpec.factory := init;
                 OperationSpec.callData := unhex "b61d27f6";
                 OperationSpec.verificationGasLimit := 0;
                 OperationSpec.callGasLimit := 0;
                 OperationSpec.preVerificationGas := 0;
                 OperationSpec.maxPriorityFeePerGas := 0;
                 OperationSpec.maxFeePerGas := 0;
                 OperationSpec.paymaster := None;
                 OperationSpec.signature := Some (PStr dummy_signature) |}
         /\ (false = true -> init = None)
         /\ (false = false ->
             forall f o,
               address_bytes (@SIMPLE_ACCOUNT_FACTORY testnet) = Ok f ->
               f <> repeat x00 20 ->
               address_bytes "0x036CbD53842c5426634e7929541eC2318f3dCF7e" = Ok o ->
               init = Some (f, selector "createAccount(address,uint256)"
                               ++ tuple [Address o; Uint256 0])).
Proof.
  apply (fresh_operation_reads_as (H0 := testnet) env
           "0x91E60e0613810449d098b0b5Ec8b51A0FE8c8985" "0xb61d27f6" false
           "0x036CbD53842c5426634e7929541eC2318f3dCF7e" 0 start (snd built)
           fresh_operation (unhex "b61d27f6"));
    vm_compute; reflexivity.
Defined.

(** The same operation, sponsored by the scripted relay. *)
Lemma sponsor_user_op_steps_witness :
  exists op1 op3 price,
    calls (snd sponsored) = calls (snd built) ++
      [Rpc (S (rpc_seq (snd built))) "pm_getPaymasterStubData"
           [POp (clean fresh_operation); PVal (PStr (@ENTRYPOINT_ADDRESS testnet));
            PVal (PStr (CHAIN_ID_HEX (H := testnet)))];
       Rpc (S (S (rpc_seq (snd built)))) "eth_estimateUserOperationGas"
           [POp (clean op1); PVal (PStr (@ENTRYPOINT_ADDRESS testnet))];
       GasPrice;
       Rpc (S (S (S (rpc_seq (snd built))))) "pm_getPaymasterData"
           [POp (clean op3); PVal (PStr (@ENTRYPOINT_ADDRESS testnet));
            PVal (PStr (CHAIN_ID_HEX (H := testnet)))]]
    /\ eth_gas_price env = Ok price
    /\ sponsored_operation !! "maxFeePerGas" = Some price
    /\ sponsored_operation !! "maxPriorityFeePerGas" = Some price
    /\ forall k,
         ~ In k (paymaster_keys ++ gas_keys ++ ["maxFeePerGas"; "maxPriorityFeePerGas"]) ->
         sponsored_operation !! k = fresh_operation !! k.
Proof.
  apply (sponsor_user_op_steps (H0 := testnet) env fresh_operation sponsored_operation
           (snd built) (snd sponsored)).
  vm_compute. reflexivity.
Defined.

(** A third request from the address, ten seconds after the first. *)
Lemma check_admits_below_the_limit_witness :
  let recent :=
    List.filter (fun t => (frozen 0 - 60 <? t)%float) (requests_of busy "203.0.113.7") in
  let run := check frozen "203.0.113.7" (busy, 0%nat) in
  let l' := fst (snd run) in
  (if max_requests busy <=? Z.of_nat (length recent)
   then fst run = Err (rate_limited busy) /\ requests_of l' "203.0.113.7" = recent
        /\ snd (snd run) = 1%nat
   else fst run = Ok tt /\ requests_of l' "203.0.113.7" = recent ++ [frozen 1]
        /\ snd (snd run) = 2%nat)
  /\ (forall other, other <> "203.0.113.7" -> requests_of l' other = requests_of busy other)
  /\ max_requests l' = max_requests busy /\ window_seconds l' = window_seconds busy.
Proof.
  apply (check_admits_below_the_limit frozen "203.0.113.7" busy 0 60).
  vm_compute. reflexivity.
Defined.

(** Two to the power -21 of a unit: just under half a base unit. *)
Lemma raw_units_below_one_is_zero_witness : raw_units 0x1p-21 = Ok 0.
Proof.
  apply (raw_units_below_one_is_zero 0x1p-21); vm_compute; reflexivity.
Defined.

(** The digest for the hash of the empty message. *)
Lemma eth_signed_hash_of_operation_hash_witness :
  eth_signed_hash (hexstr (keccak []))
  = Ok (hexstr (keccak (list_byte_of_string
                          (String (ascii_of_nat 25) "Ethereum Signed Message:")
                        ++ [x0a; x33; x32] ++ keccak []))).
Proof.
  apply (eth_signed_hash_of_operation_hash (keccak [])). apply keccak_length.
Defined.

End BuilderExamples.

(** ** Where the hash is defined *)
Module HashDomainFacts.
Import Py Abi Builder Wire HashFacts.



Section WithHash.
Context `{Hash}.





End WithHash.
End HashDomainFacts.

(** ** The wait that ends well *)
Module ReceiptSuccessFacts.
Import Py Abi Store Usdc Builder Bundler Payment Trace MonadFacts FrameFacts BundlerFacts.

Section WithEnv.
Variable env : Env.

Lemma poll_success h w d :
  relay env (S (rpc_seq w)) "eth_getUserOperationReceipt" [PVal h] = RpcResult (PDict d) ->
  truthy (success_of d) = true ->
  is_ok (transaction_hash d (PStr "")) = true ->
  catch (poll_once env h) (on_runtime_error env) w = (Ok (Some (PDict d)), after_poll h w).
Proof.
  intros E Hs Htx.
  unfold catch, poll_once, _rpc, _next_id, log, modify, bind, ret, raise, lift; simpl.
  rewrite E. simpl. fold (success_of d). rewrite Hs.
  destruct (transaction_hash d (PStr "")); [reflexivity | discriminate].
Qed.

Lemma rounds_rpc_seq h interval n w :
  rpc_seq (Nat.iter n (after_round h interval) w) = (rpc_seq w + n)%nat.
Proof.
  induction n as [| n IH]; simpl; [lia | rewrite IH; lia].
Qed.

(** X28.  The wait returns the first successful receipt: when the relay does not
    know the receipt at the first [n] polls and the elapsed time stays
    below the timeout, and the next poll is answered with a receipt whose
    success flag is true, the wait returns that receipt, having sent
    [n + 1] polls and slept [n] times, and no more. *)
Theorem wait_returns_first_successful_receipt (n rounds : nat) (h : pyval)
    (timeout interval : float) (w : World) (d : list (string * pyval)) :
  (n < rounds)%nat ->
  (forall k, (k <= n)%nat -> (elapsed_after interval k <? timeout)%float = true) ->
  (forall k, (k < n)%nat ->
     unknown_reply env
       (relay env (S (rpc_seq w + k)) "eth_getUserOperationReceipt" [PVal h])) ->
  relay env (S (rpc_seq w + n)) "eth_getUserOperationReceipt" [PVal h]
    = RpcResult (PDict d) ->
  truthy (success_of d) = true ->
  is_ok (transaction_hash d (PStr "")) = true ->
  wait_for_receipt env rounds h timeout interval w
  = (Ok (PDict d), after_poll h (Nat.iter n (after_round h interval) w)).
Proof.
  intros Hn Hlt Hun E Hs Htx. unfold wait_for_receipt.
  replace rounds with (n + S (rounds - S n))%nat by lia.
  rewrite wait_loop_unknown_rounds.
  - simpl. fold (elapsed_after interval n). rewrite (Hlt n (Nat.le_refl n)).
    rewrite (bind_ok _ _ _ _ _
               (poll_success h (Nat.iter n (after_round h interval) w) d
                  ltac:(rewrite rounds_rpc_seq; exact E) Hs Htx)).
    reflexivity.
  - intros k Hk. split; [| apply Hun; exact Hk].
    apply (Hlt k). lia.
Qed.

End WithEnv.
End ReceiptSuccessFacts.

(** ** The hash and the wait on the scripted world *)
Module DomainExamples.
Import Py Abi Store Builder Bundler Wire Trace Scenario Fixtures HashDomainFacts
       ReceiptSuccessFacts.


(** The checksummed spelling of that sender is another string, and the hash
    is that of the reference operation. *)
Example unchecked_sender_is_hashed :
  to_checksum_address unchecked_sender = Ok "0x91E60e0613810449d098b0b5Ec8b51A0FE8c8985"
  /\ String.eqb unchecked_sender "0x91E60e0613810449d098b0b5Ec8b51A0FE8c8985" = false
  /\ compute_user_op_hash unchecked_op unchecked_entry_point 84532
     = compute_user_op_hash reference_op (@ENTRYPOINT_ADDRESS testnet) 84532
  /\ is_ok (compute_user_op_hash unchecked_op unchecked_entry_point 84532) = true.
Proof.
  repeat split; vm_compute; reflexivity.
Qed.

(** The scripted relay knows the receipt at the seventh request. *)
Lemma wait_returns_first_successful_receipt_witness :
  wait_for_receipt env default_rounds (PStr "0xuserop") default_timeout
                   default_interval start
  = (Ok receipt_ok,
     after_poll (PStr "0xuserop")
       (Nat.iter 6 (after_round (PStr "0xuserop") default_interval) start)).
Proof.
  apply (wait_returns_first_successful_receipt env 6 default_rounds
           (PStr "0xuserop") default_timeout default_interval start
           [("success", PBool true);
            ("receipt", PDict [("transactionHash", PStr "0xabc")])]).
  - unfold default_rounds. lia.
  - intros k Hk. do 7 (destruct k as [| k]; [vm_compute; reflexivity |]). lia.
  - intros k Hk. do 6 (destruct k as [| k];
      [right; exists (PStr "receipt not found"); split; vm_compute; reflexivity |]). lia.
  - vm_compute. reflexivity.
  - vm_compute. reflexivity.
  - vm_compute. reflexivity.
Defined.

End DomainExamples.

(** ** Registration: one live code, one account *)
Module RegistrationFacts.
Import Py Abi Privy Registration.

Lemma retire_not_live email c : live email (retire email c) = false.
Proof.
  unfold retire. destruct (live email c) eqn:Hl; [| exact Hl].
  unfold live, with_used. simpl. apply andb_false_r.
Qed.

Lemma retired_all email cs : List.filter (live email) (map (retire email) cs) = [].
Proof.
  induction cs as [| c cs IH]; simpl; [reflexivity |].
  rewrite retire_not_live. exact IH.
Qed.

Lemma retire_other email other c :
  other <> email -> live other (retire email c) = live other c.
Proof.
  intros Hne. unfold retire. destruct (live email c) eqn:Hl; [| reflexivity].
  unfold live in *. simpl. apply andb_true_iff in Hl as [He _].
  apply String.eqb_eq in He. rewrite He.
  destruct (String.eqb_spec email other) as [-> | _]; [contradiction | reflexivity].
Qed.

Lemma retire_keeps_others email other cs :
  other <> email ->
  List.filter (live other) (map (retire email) cs)
  = List.filter (live other) cs.
Proof.
  intros Hne. induction cs as [| c cs IH]; simpl; [reflexivity |].
  rewrite (retire_other _ _ _ Hne).
  destruct (live other c) eqn:Hl.
  - rewrite IH. f_equal. unfold retire.
    destruct (live email c) eqn:Hle; [| reflexivity].
    unfold live in Hl, Hle.
    apply andb_true_iff in Hl as [Ho _]. apply andb_true_iff in Hle as [He _].
    apply String.eqb_eq in Ho, He. congruence.
  - exact IH.
Qed.

Lemma used_after id cs c :
  In c (map (use id) cs) -> vc_id c = id -> vc_used c = true.
Proof.
  intros Hin Hid. apply in_map_iff in Hin as (c0 & <- & _).
  unfold use in *. destruct (Nat.eqb_spec (vc_id c0) id) as [_ | Hne]; [reflexivity |].
  contradiction.
Qed.

Lemma users_with_nil email r :
  users_with email r = [] <-> ~ In email (map acc_email (wallet_users r)).
Proof.
  unfold users_with. induction (wallet_users r) as [| a l IH]; simpl.
  - split; [intros _ [] | reflexivity].
  - destruct (String.eqb_spec (acc_email a) email) as [E | Hne].
    + split; [discriminate | intros Hn; exfalso; apply Hn; left; exact E].
    + rewrite IH. split; [intros Hn [E | Hin]; [contradiction | exact (Hn Hin)] |].
      intros Hn Hin. apply Hn. right. exact Hin.
Qed.

Section WithLib.
Context `{Hash} `{Config}.
Variable out : Outside.
Variables RESEND_API_KEY FROM_EMAIL : string.

(** X29.  Registering leaves one live code.  For an address that has an account
    the call raises and changes nothing.  Otherwise the codes issued to the
    address before are marked used and a new six-digit code, good for five
    minutes, is stored as its only live one, before the mail is sent and
    whether or not sending succeeds; the live codes of other addresses and
    the accounts are as they were. *)
Theorem register_leaves_one_live_code (email : string) (r : Registry) :
  let run := register out RESEND_API_KEY FROM_EMAIL email r in
  match users_with email r with
  | _ :: _ =>
      run = (Err (ValueError [Txt "Email already registered. Use your existing API key."]), r)
  | [] =>
      List.filter (live email) (wallet_verification_codes (snd run))
      = [{| vc_id := next_code_id r; vc_email := email;
            vc_code := zero_padded 6 (entropy out (readings r) mod 1000000)%N;
            vc_expires_at := utcnow out (S (readings r)) + Store.minutes 5;
            vc_used := false |}]
      /\ (forall other, other <> email ->
            List.filter (live other) (wallet_verification_codes (snd run))
            = List.filter (live other) (wallet_verification_codes r))
      /\ wallet_users (snd run) = wallet_users r
      /\ (fst run = Ok (CodeSent email)
          \/ RESEND_API_KEY <> ""
             /\ exists e, fst run = Err e /\ resend_send out (S (S (readings r))) = Err e)
  end.
Proof.
  cbv zeta. unfold register.
  destruct (users_with email r) as [| a l] eqn:Hu; [| reflexivity].
  assert (forall cs row,
            row = {| vc_id := next_code_id r; vc_email := email;
                     vc_code := zero_padded 6 (entropy out (readings r) mod 1000000)%N;
                     vc_expires_at := utcnow out (S (readings r)) + Store.minutes 5;
                     vc_used := false |} ->
            List.filter (live email) (map (retire email) cs ++ [row]) = [row]
            /\ forall other, other <> email ->
                 List.filter (live other) (map (retire email) cs ++ [row])
                 = List.filter (live other) cs) as Hcodes.
  { intros cs row ->. split.
    - rewrite List.filter_app, retired_all. cbn. unfold live. cbn.
      rewrite String.eqb_refl. reflexivity.
    - intros other Hne. rewrite List.filter_app, (retire_keeps_others _ _ _ Hne). cbn.
      unfold live at 2. cbn.
      destruct (String.eqb_spec email other) as [E | _]; [congruence |].
      cbn. apply app_nil_r. }
  unfold and_then, randbelow, datetime_now, reading, insert_code, set_codes, unit_. cbn -[N.modulo].
  destruct (String.eqb_spec RESEND_API_KEY "") as [Hkey | Hkey].
  - cbn -[N.modulo].
    destruct (Hcodes (wallet_verification_codes r) _ eq_refl) as [Hlive Hothers].
    split; [exact Hlive |]. split; [exact Hothers |].
    split; [reflexivity | left; reflexivity].
  - unfold send_code, and_then, request_, reading, lift_. cbn -[N.modulo].
    destruct (Hcodes (wallet_verification_codes r) _ eq_refl) as [Hlive Hothers].
    destruct (resend_send out (S (S (readings r)))) as [[] | e] eqn:Hsend; cbn -[N.modulo];
      (split; [exact Hlive |]; split; [exact Hothers |]; split; [reflexivity |]).
    + left. reflexivity.
    + right. split; [exact Hkey | eauto].
Qed.

(** X30.  Verifying registers an address once.  A call that returns has found a
    live row for the address and the code whose expiry has not passed,
    for an address without an account; it marks every row with that
    identifier used, asks the signer for a wallet and the factory for the
    address of that wallet's smart account, and appends one account: of
    that address, with the wallet the signer answered, the smart account
    address the factory answered, which is also the wallet address the
    call returns, and the hash of the plain key it returns.  A call that
    raises leaves the accounts as they were, and for an address that has
    an account every call raises a ValueError.  So no two accounts ever
    share an address. *)
Theorem verify_registers_once (email code : string) (r : Registry) :
  let run := verify out email code r in
  match fst run with
  | Ok credentials =>
      users_with email r = []
      /\ exists record account,
           head (List.filter (matching email code) (wallet_verification_codes r))
           = Some record
           /\ (vc_expires_at record <? utcnow out (readings r)) = false
           /\ wallet_verification_codes (snd run)
              = map (use (vc_id record)) (wallet_verification_codes r)
           /\ (forall c, In c (wallet_verification_codes (snd run)) ->
                 vc_id c = vc_id record -> vc_used c = true)
           /\ wallet_users (snd run) = wallet_users r ++ [account]
           /\ acc_email account = email
           /\ privy_create_wallet out (S (readings r))
              = Ok (acc_privy_wallet_id account, acc_wallet_address account)
           /\ acc_smart_account_address account = credentials_wallet_address credentials
           /\ credentials_email credentials = email
           /\ api_key credentials
              = String.append "pk_live_" (token_hex out (S (S (S (readings r)))))
           /\ acc_api_key_hash account
              = bcrypt_hashpw out (api_key credentials) (S (S (S (S (readings r)))))
           /\ exists owner,
                to_checksum_address (acc_wallet_address account) = Ok owner
                /\ factory_get_address out (S (S (readings r))) owner 0
                   = Ok (acc_smart_account_address account)
                /\ requests (snd run)
                   = requests r ++ [CreateWallet; GetAddress owner 0]
  | Err e =>
      wallet_users (snd run) = wallet_users r
      /\ (users_with email r <> [] -> exists m, e = ValueError m)
  end
  /\ (NoDup (map acc_email (wallet_users r)) ->
      NoDup (map acc_email (wallet_users (snd run)))).
Proof.
  cbv zeta. unfold verify.
  destruct (List.filter (matching email code) (wallet_verification_codes r))
    as [| record rest] eqn:Hrows.
  { cbn. split; [| exact (fun Hnd => Hnd)]. split; [reflexivity | eauto]. }
  unfold and_then, datetime_now, reading, fail, unit_. cbn.
  destruct (vc_expires_at record <? utcnow out (readings r)) eqn:Hexp.
  { cbn. split; [| exact (fun Hnd => Hnd)]. split; [reflexivity | eauto]. }
  unfold set_codes, users_with. cbn. fold (users_with email r).
  destruct (users_with email r) as [| a l] eqn:Hu.
  2:{ cbn. split; [| exact (fun Hnd => Hnd)]. split; [reflexivity | eauto]. }
  unfold create_wallet, get_smart_account_address, generate_api_key, insert_user,
    and_then, request_, reading, lift_, unit_. cbn.
  destruct (privy_create_wallet out (S (readings r))) as [[wallet_id address] | e] eqn:Hw;
    cbn.
  2:{ split; [| exact (fun Hnd => Hnd)]. split; [reflexivity | intros Hn; contradiction]. }
  destruct (to_checksum_address SIMPLE_ACCOUNT_FACTORY) as [fa | e]; cbn.
  2:{ split; [| exact (fun Hnd => Hnd)]. split; [reflexivity | intros Hn; contradiction]. }
  destruct (to_checksum_address address) as [o | e] eqn:Ho; cbn.
  2:{ split; [| exact (fun Hnd => Hnd)]. split; [reflexivity | intros Hn; contradiction]. }
  destruct (factory_get_address out (S (S (readings r))) o 0) as [smart_account | e]
    eqn:Hfa; cbn.
  2:{ split; [| exact (fun Hnd => Hnd)]. split; [reflexivity | intros Hn; contradiction]. }
  split.
  - split; [reflexivity |].
    eexists record, _. split; [reflexivity |]. split; [exact Hexp |].
    split; [reflexivity |]. split; [intros c; apply used_after |].
    split; [reflexivity |]. cbn. do 6 (split; [reflexivity |]).
    exists o. split; [exact Ho |]. split; [exact Hfa |].
    rewrite <- app_assoc. reflexivity.
  - intros Hnd. rewrite map_app. cbn.
    apply NoDup_app. split; [exact Hnd |]. split.
    + intros x Hx Hin. apply list_elem_of_In in Hx, Hin.
      destruct Hin as [<- | []]. apply (proj1 (users_with_nil email r) Hu). exact Hx.
    + apply NoDup_singleton.
Qed.

End WithLib.
End RegistrationFacts.

(** ** Registration on the scripted desk *)
Module RegistrationExamples.
Import Py Abi Store Registration Scenario Desk.

(** The code that [register] mails is the code that [verify] accepts, once. *)
Example code_verifies_once :
  let issued := register outside "re_123" "wallet@pactum.example"
                         "alice@example.org" empty in
  let verified := verify (H0 := testnet) outside "alice@example.org" "001042" (snd issued) in
  let again := verify (H0 := testnet) outside "alice@example.org" "001042" (snd verified) in
  fst issued = Ok (CodeSent "alice@example.org")
  /\ requests (snd issued)
     = [SendCode "wallet@pactum.example" "alice@example.org" "001042"]
  /\ fst verified
     = Ok {| api_key := "pk_live_000102030405060708090a0b0c0d0e0f";
             credentials_wallet_address := "0x91E60e0613810449d098b0b5Ec8b51A0FE8c8985";
             credentials_email := "alice@example.org" |}
  /\ requests (snd verified)
     = requests (snd issued)
       ++ [CreateWallet; GetAddress "0x036CbD53842c5426634e7929541eC2318f3dCF7e" 0]
  /\ fst again = Err (ValueError [Txt "Invalid or expired verification code"])
  /\ fst (register outside "re_123" "wallet@pactum.example"
                   "alice@example.org" (snd verified))
     = Err (ValueError [Txt "Email already registered. Use your existing API key."]).
Proof.
  cbv zeta. repeat split; vm_compute; reflexivity.
Qed.

End RegistrationExamples.
